(** * merge_packages.py: [merge], [validate_paths] and [main]

    A shallow embedding of [src/merge_packages.py].  Its core is [merge]
    on parsed documents: the loop over the [package.xml] documents (lines
    86-138) and the rendering of the aggregate into the template (lines
    140-164).  Around the core stand [validate_paths] (lines 40-73), the
    file side of [merge] (opening and parsing each file in turn, the lines
    printed, the output to STDOUT or to a file; lines 84-184) and [main]
    (lines 186-221).

    What is modelled and how:
    - a parsed document is the value [xmltodict.parse] returns: [None], a
      [str], a [dict] with [str] keys (insertion-ordered, hence an
      association list) or a [list]; the records are plain [dict]s, as
      xmltodict has returned them since its version 0.13, so that
      [type(x) == dict] holds for each of them;
    - a Python [str] is its UTF-8 byte string; byte-wise lexicographic order
      on UTF-8 coincides with code-point order, which is what [list.sort]
      uses on [str];
    - [types_dict] is a finite map from hashable keys to sets of hashable
      keys ([gmap] / [gset]); the only hashable values that reach it are
      [str] and [None];
    - a Python [float] is an IEEE-754 binary64 number, kept as a sign and a
      magnitude counted in units of [2^-1074]; [float] and the format
      [.1f] round exactly as binary64 does;
    - exceptions are explicit: every operation returns [Ok v] or [Raise e];
    - the core takes the list of parsed documents in the order of
      [packages] and returns the final value of [template];
    - the outside world is a parameter, the record [system]: what a path
      names, what [os.walk] enumerates, what a file parses to (or that it
      cannot be read), what [unparse] returns, whether a file can be
      opened for writing.  What the program does to it is a list of
      events: files opened, files created and written, lines printed;
    - [parse_arguments] is [argparse] only and is not modelled: [main]
      starts from the namespace it returns.

    The file has the model first, then the definitions the statements and
    proofs need, then the properties: the loop and its [break], the fold of
    [types_dict], sorting, the rendered document, one section for each
    property of the result (members, order, name and description, shapes
    of [types] and [members], version, merging a result again, order of
    the batch, well-formed batches), the packages that pass the validity
    test and still end the run, and the program around the core. *)

From Stdlib Require Import ZArith NArith Lia Bool Ascii String List.
From Stdlib Require Import Decimal DecimalString DecimalN.
From stdpp Require Import base option list gmap sets strings sorting.

Local Open Scope string_scope.
Local Open Scope list_scope.
Local Set Warnings "-clear-no-such-hyp".
Local Arguments String.append !s1 s2 : simpl nomatch.

(** ** Values and exceptions *)

#[warnings="-register-all"]
Inductive value : Type :=
| VNone
| VStr (s : string)
| VDict (d : list (string * value))
| VList (l : list value).

Inductive exn : Type := KeyError | TypeError | ValueError.

Definition exn_name (e : exn) : string :=
  match e with
  | KeyError => "KeyError"
  | TypeError => "TypeError"
  | ValueError => "ValueError"
  end.

Inductive result (A : Type) : Type :=
| Ok (a : A)
| Raise (e : exn).
Arguments Ok {A} a.
Arguments Raise {A} e.

Definition bind {A B} (r : result A) (k : A -> result B) : result B :=
  match r with
  | Ok a => k a
  | Raise e => Raise e
  end.

Notation "x <-- r ; k" := (bind r (fun x => k))
  (at level 100, r at next level, right associativity,
   format "'[v' x  <--  r ; '/' k ']'").

(** Threading a fallible step through a list, left to right. *)
Fixpoint fold_result {A S} (f : S -> A -> result S) (l : list A) (s : S) : result S :=
  match l with
  | [] => Ok s
  | x :: l' => s' <-- f s x; fold_result f l' s'
  end.

Fixpoint traverse {A B} (f : A -> result B) (l : list A) : result (list B) :=
  match l with
  | [] => Ok []
  | x :: l' => y <-- f x; ys <-- traverse f l'; Ok (y :: ys)
  end.

(** ** Python dictionaries with [str] keys *)

Fixpoint dict_get (k : string) (d : list (string * value)) : option value :=
  match d with
  | [] => None
  | (k', v) :: d' => if String.eqb k k' then Some v else dict_get k d'
  end.

(** [d[k] = v]: an existing key keeps its position, a new key goes last. *)
Fixpoint dict_set (k : string) (v : value) (d : list (string * value))
  : list (string * value) :=
  match d with
  | [] => [(k, v)]
  | (k', v') :: d' =>
      if String.eqb k k' then (k, v) :: d' else (k', v') :: dict_set k v d'
  end.

Definition dict_mem (k : string) (d : list (string * value)) : bool :=
  match dict_get k d with Some _ => true | None => false end.

(** ** The operators of Python the loop uses *)

(** [needle in haystack] on [str] is a substring test. *)
Fixpoint is_substring (needle haystack : string) : bool :=
  String.prefix needle haystack
  || match haystack with
     | EmptyString => false
     | String _ rest => is_substring needle rest
     end.

Definition is_str (k : string) (v : value) : bool :=
  match v with VStr s => String.eqb k s | _ => false end.

(** [k in container] for a [str] left operand. *)
Definition py_in (k : string) (container : value) : result bool :=
  match container with
  | VDict d => Ok (dict_mem k d)
  | VStr s => Ok (is_substring k s)
  | VList l => Ok (existsb (is_str k) l)
  | VNone => Raise TypeError
  end.

(** [container[k]] for a [str] subscript: only a [dict] accepts it. *)
Definition py_getitem (container : value) (k : string) : result value :=
  match container with
  | VDict d =>
      match dict_get k d with
      | Some v => Ok v
      | None => Raise KeyError
      end
  | _ => Raise TypeError
  end.

(** [container[k] = v] for a [str] subscript. *)
Definition py_setitem (container : value) (k : string) (v : value)
  : result value :=
  match container with
  | VDict d => Ok (VDict (dict_set k v d))
  | _ => Raise TypeError
  end.

Fixpoint chars (s : string) : list value :=
  match s with
  | EmptyString => []
  | String c rest => VStr (String c EmptyString) :: chars rest
  end.

(** The items a [for] loop (or [set.update]) draws from a value. *)
Definition py_iter (v : value) : result (list value) :=
  match v with
  | VList l => Ok l
  | VDict d => Ok (map (fun kv => VStr (fst kv)) d)
  | VStr s => Ok (chars s)
  | VNone => Raise TypeError
  end.

(** Hashable values: [None] and [str]; [dict] and [list] are unhashable. *)
Definition key : Type := option string.

Definition py_hash (v : value) : result key :=
  match v with
  | VNone => Ok None
  | VStr s => Ok (Some s)
  | _ => Raise TypeError
  end.

Definition key_value (k : key) : value :=
  match k with
  | None => VNone
  | Some s => VStr s
  end.

(** Truth value of an object, as [not x] tests it. *)
Definition py_truthy (v : value) : bool :=
  match v with
  | VNone => false
  | VStr s => negb (String.eqb s "")
  | VDict d => match d with [] => false | _ => true end
  | VList l => match l with [] => false | _ => true end
  end.

(** ** Floating-point numbers

    A Python [float] is a binary64 number.  Every finite binary64 number is
    an integer multiple of [2^-1074] (the least subnormal), so a finite
    float is kept as its sign and the magnitude [k] with value
    [k * 2^-1074]; the sign is kept apart because [-0.0] prints differently
    from [0.0]. *)

Inductive pyfloat : Type :=
| FNan
| FInf (neg : bool)
| FFin (neg : bool) (k : N).

Definition float_unit : Z := 2 ^ 1074.
Definition float_overflow : Z := 2 ^ 2098.   (* 2^1024 in units of 2^-1074 *)

(** Rounding [a / b] to the nearest integer, ties to the even one
    ([0 <= a], [0 < b]). *)
Definition round_half_even (a b : Z) : Z :=
  let q := (a / b)%Z in
  match (2 * (a mod b) ?= b)%Z with
  | Lt => q
  | Gt => (q + 1)%Z
  | Eq => if Z.even q then q else (q + 1)%Z
  end.

(** The multiple of [2^j] nearest to [s / q] ([0 < s], [0 < q]), ties to
    even, where [j] is the least exponent that leaves at most 53
    significant bits: the rounding of binary64, in units of [2^-1074],
    before the test for overflow. *)
Definition round_to_53_bits (s q : Z) : Z :=
  let j := Z.max 0 (Z.log2 (s / q) - 52) in
  (round_half_even s (q * 2 ^ j) * 2 ^ j)%Z.

(** The binary64 number nearest to [p / q] ([0 < p], [0 < q]). *)
Definition binary64_of_ratio (neg : bool) (p q : Z) : pyfloat :=
  let k := round_to_53_bits (p * float_unit) q in
  if (float_overflow <=? k)%Z then FInf neg else FFin neg (Z.to_N k).

(** The value of the decimal literal [mant * 10^exp10]. *)
Definition binary64_of_decimal (neg : bool) (mant : N) (exp10 : Z) : pyfloat :=
  if (mant =? 0)%N then FFin neg 0
  else if (0 <=? exp10)%Z
       then binary64_of_ratio neg (Z.of_N mant * 10 ^ exp10) 1
       else binary64_of_ratio neg (Z.of_N mant) (10 ^ (- exp10)).

Definition float_signed (neg : bool) (k : N) : Z :=
  if neg then (- Z.of_N k)%Z else Z.of_N k.

(** [b > a] on floats: false whenever a NaN is involved, and [-0.0]
    equals [0.0]. *)
Definition float_gt (b a : pyfloat) : bool :=
  match b, a with
  | FNan, _ | _, FNan => false
  | FInf nb, FInf na => negb nb && na
  | FInf nb, FFin _ _ => negb nb
  | FFin _ _, FInf na => na
  | FFin nb kb, FFin na ka => (float_signed na ka <? float_signed nb kb)%Z
  end.

(** [max(a, b)] keeps its first argument unless the second is greater. *)
Definition py_max (a b : pyfloat) : pyfloat :=
  if float_gt b a then b else a.

(** Truth value of a float: zero of either sign is false, NaN is true. *)
Definition float_truthy (x : pyfloat) : bool :=
  match x with
  | FFin _ k => negb (k =? 0)%N
  | _ => true
  end.

(** *** [float(s)] for a [str]

    White space is stripped at both ends, underscores between digits are
    dropped, and what is left must be a decimal literal, [inf], [infinity]
    or [nan], with an optional sign.  The literal is rounded to the nearest
    binary64 number.  Only ASCII is read here: CPython also takes the
    decimal digits and the white space of other scripts, which this
    function answers with [ValueError]. *)

Definition is_space (c : ascii) : bool :=
  let n := N_of_ascii c in
  ((9 <=? n) && (n <=? 13) || (28 <=? n) && (n <=? 32))%N.

Definition is_digit (c : ascii) : bool :=
  let n := N_of_ascii c in ((48 <=? n) && (n <=? 57))%N.

Fixpoint lstrip (s : string) : string :=
  match s with
  | String c rest => if is_space c then lstrip rest else s
  | EmptyString => EmptyString
  end.

Fixpoint rstrip (s : string) : string :=
  match s with
  | EmptyString => EmptyString
  | String c rest =>
      match rstrip rest with
      | EmptyString =>
          if is_space c then EmptyString else String c EmptyString
      | rest' => String c rest'
      end
  end.

Definition strip (s : string) : string := rstrip (lstrip s).

(** Underscores may only stand between two digits; they are removed
    before the literal is read. *)
Fixpoint drop_underscores (prev : ascii) (s : string) : option string :=
  match s with
  | EmptyString => if Ascii.eqb prev "_" then None else Some EmptyString
  | String c rest =>
      if Ascii.eqb c "_" then
        if is_digit prev then drop_underscores c rest else None
      else if Ascii.eqb prev "_" && negb (is_digit c) then None
      else String c <$> drop_underscores c rest
  end.

Definition parse_sign (s : string) : bool * string :=
  match s with
  | String "-" rest => (true, rest)
  | String "+" rest => (false, rest)
  | _ => (false, s)
  end.

(** The longest prefix of digits, as a decimal numeral, and what follows. *)
Fixpoint take_digits (s : string) : Decimal.uint * string :=
  match s with
  | String c rest =>
      let '(d, r) := take_digits rest in
      let cont (f : Decimal.uint -> Decimal.uint) := (f d, r) in
      match c with
      | "0" => cont D0 | "1" => cont D1 | "2" => cont D2 | "3" => cont D3
      | "4" => cont D4 | "5" => cont D5 | "6" => cont D6 | "7" => cont D7
      | "8" => cont D8 | "9" => cont D9
      | _ => (Nil, s)
      end%char
  | EmptyString => (Nil, EmptyString)
  end.

Definition ndigits (d : Decimal.uint) : nat := Decimal.nb_digits d.

Definition is_nil (d : Decimal.uint) : bool :=
  match d with Nil => true | _ => false end.

(** An optional exponent part, which must reach the end of the string. *)
Definition parse_exponent (s : string) : option Z :=
  match s with
  | EmptyString => Some 0%Z
  | String c rest =>
      if Ascii.eqb c "e" || Ascii.eqb c "E" then
        let '(neg, r1) := parse_sign rest in
        let '(d, r2) := take_digits r1 in
        if is_nil d || negb (String.eqb r2 "") then None
        else Some (if neg then (- Z.of_N (N.of_uint d))%Z
                   else Z.of_N (N.of_uint d))
      else None
  end.

(** [digits [. digits] [exponent]] or [. digits [exponent]], as mantissa
    and decimal exponent. *)
Definition parse_number (s : string) : option (N * Z) :=
  let '(ip, r1) := take_digits s in
  let '(fp, r2) :=
    match r1 with
    | String "." r => take_digits r
    | _ => (Nil, r1)
    end in
  if is_nil ip && is_nil fp then None
  else e ← parse_exponent r2;
       Some ((N.of_uint ip * 10 ^ N.of_nat (ndigits fp) + N.of_uint fp)%N,
             (e - Z.of_nat (ndigits fp))%Z).

Definition lower_ascii (c : ascii) : ascii :=
  let n := N_of_ascii c in
  if ((65 <=? n) && (n <=? 90))%N then ascii_of_N (n + 32) else c.

Fixpoint lower (s : string) : string :=
  match s with
  | EmptyString => EmptyString
  | String c rest => String (lower_ascii c) (lower rest)
  end.

(** A literal without white space or underscores: [nan], [inf],
    [infinity] in any case, or a number, after an optional sign. *)
Definition parse_literal (s : string) : result pyfloat :=
  let '(neg, s2) := parse_sign s in
  let l := lower s2 in
  if String.eqb l "nan" then Ok FNan
  else if String.eqb l "inf" || String.eqb l "infinity" then Ok (FInf neg)
  else match parse_number s2 with
       | Some (mant, exp10) => Ok (binary64_of_decimal neg mant exp10)
       | None => Raise ValueError
       end.

(** [prev] starts as the NUL character, which is not a digit. *)
Definition float_of_string (s : string) : result pyfloat :=
  match drop_underscores "000" (strip s) with
  | None => Raise ValueError
  | Some s1 => parse_literal s1
  end.

(** [float(v)]: a [str] is parsed, anything else here is a [TypeError]. *)
Definition py_float (v : value) : result pyfloat :=
  match v with
  | VStr s => float_of_string s
  | _ => Raise TypeError
  end.

(** *** [f'{x:.1f}'] *)

Definition string_of_N (n : N) : string :=
  NilEmpty.string_of_uint (N.to_uint n).

Definition sign_string (neg : bool) : string := if neg then "-" else "".

Definition format_1f (x : pyfloat) : string :=
  match x with
  | FNan => "nan"
  | FInf neg => sign_string neg ++ "inf"
  | FFin neg k =>
      let n := Z.to_N (round_half_even (10 * Z.of_N k) float_unit) in
      sign_string neg ++ string_of_N (n / 10) ++ "." ++ string_of_N (n mod 10)
  end.

(** ** [list.sort] and [str.join]

    [list.sort] compares with [<]; on [str] that is the order of the code
    points.  A list of fewer than two items is not compared at all.  When
    some item is not a [str] the comparison of [None] or of a [dict] raises
    [TypeError]; a list of [list]s could get through the sort, but every
    list sorted here is then either joined or made of hashable items, so
    that case ends in the same [TypeError]. *)

Definition as_str (v : value) : option string :=
  match v with VStr s => Some s | _ => None end.

Definition py_sort (l : list value) : result (list value) :=
  match l with
  | [] | [_] => Ok l
  | _ =>
      match mapM as_str l with
      | Some ss => Ok (VStr <$> merge_sort String.le ss)
      | None => Raise TypeError
      end
  end.

Definition py_join (sep : string) (l : list value) : result string :=
  match mapM as_str l with
  | Some ss => Ok (String.concat sep ss)
  | None => Raise TypeError
  end.

(** ** The loop of [merge] (lines 86-138) *)

Record state : Type := mkState {
  types_dict : gmap key (gset key);
  package_names : list value;
  max_version : option pyfloat;
  template : option value
}.

Definition initial_state : state :=
  {| types_dict := ∅; package_names := []; max_version := None;
     template := None |}.

(** Lines 98-100: the test that guards the [break]. *)
Definition is_invalid (package_dict : value) : result bool :=
  has_package <-- py_in "Package" package_dict;
  if negb has_package then Ok true
  else
    pkg <-- py_getitem package_dict "Package";
    has_version <-- py_in "version" pkg;
    if negb has_version then Ok true
    else
      has_types <-- py_in "types" pkg;
      Ok (negb has_types).

(** Lines 126-127 and 136-137: a lone record or member becomes a list. *)
Definition wrap_dict (v : value) : value :=
  match v with VDict _ => VList [v] | _ => v end.

Definition wrap_str (v : value) : value :=
  match v with VStr _ => VList [v] | _ => v end.

(** Lines 131-138: one [types] record. *)
Definition add_type (td : gmap key (gset key)) (mdt_type : value)
  : result (gmap key (gset key)) :=
  name <-- py_getitem mdt_type "name";
  k <-- py_hash name;
  let td1 := match td !! k with Some _ => td | None => <[k := ∅]> td end in
  members <-- py_getitem mdt_type "members";
  let members := wrap_str members in
  match td1 !! k with
  | None => Raise KeyError
  | Some s =>
      items <-- py_iter members;
      ks <-- traverse py_hash items;
      Ok (<[k := s ∪ list_to_set ks]> td1)
  end.

(** [float(package_dict['Package']['version'])] *)
Definition read_version (pkg : value) : result pyfloat :=
  version <-- py_getitem pkg "version";
  py_float version.

(** Lines 107-138: one valid package. *)
Definition process_package (st : state) (package_dict : value) : result state :=
  pkg <-- py_getitem package_dict "Package";
  (* 110 *)
  fullName <-- py_getitem pkg "fullName";
  let names := package_names st ++ [fullName] in
  (* 113-114: [not max_version] holds for [None] and for zero *)
  mv <-- match max_version st with
         | Some x => if float_truthy x then Ok x else read_version pkg
         | None => read_version pkg
         end;
  (* 115-118 *)
  v <-- read_version pkg;
  let mv := py_max mv v in
  (* 121-122 *)
  let tpl :=
    match template st with
    | Some t => if py_truthy t then t else package_dict
    | None => package_dict
    end in
  (* 125-127 *)
  mdt_types <-- py_getitem pkg "types";
  let mdt_types := wrap_dict mdt_types in
  (* 130-138 *)
  items <-- py_iter mdt_types;
  td <-- fold_result add_type items (types_dict st);
  Ok {| types_dict := td; package_names := names; max_version := Some mv;
        template := Some tpl |}.

(** The [for] loop; an invalid package leaves it through [break]. *)
Fixpoint merge_loop (packages : list value) (st : state) : result state :=
  match packages with
  | [] => Ok st
  | package_dict :: rest =>
      invalid <-- is_invalid package_dict;
      if invalid then Ok st
      else st' <-- process_package st package_dict; merge_loop rest st'
  end.

(** ** Rendering into the template (lines 140-164) *)

Definition newline : string := String "010" EmptyString.

Definition description_header : string :=
  "This package.xml was created by " ++
  "merging the following packages:" ++ newline.

(** Lines 157-164: the record of one metadata type. *)
Definition render_type (td : gmap key (gset key)) (mdt_name : value)
  : result value :=
  k <-- py_hash mdt_name;
  match td !! k with
  | None => Raise KeyError
  | Some s =>
      members <-- py_sort (key_value <$> elements s);
      Ok (VDict [("members", VList members); ("name", mdt_name)])
  end.

Definition render (st : state) : result value :=
  (* 140 *)
  names <-- py_sort (package_names st);
  (* 142: [template] is still [None] when no package was processed *)
  tpl <-- match template st with Some t => Ok t | None => Raise TypeError end;
  pkg <-- py_getitem tpl "Package";
  pkg <-- py_setitem pkg "fullName" (VStr "Merged_Package");
  (* 144-145 *)
  joined <-- py_join newline names;
  pkg <-- py_setitem pkg "description" (VStr (description_header ++ joined));
  (* 147 *)
  version <-- match max_version st with
              | Some x => Ok (format_1f x)
              | None => Raise TypeError
              end;
  pkg <-- py_setitem pkg "version" (VStr version);
  (* 149-164 *)
  ordered_names <-- py_sort (key_value <$> elements (dom (types_dict st)));
  types <-- traverse (render_type (types_dict st)) ordered_names;
  pkg <-- py_setitem pkg "types" (VList types);
  (* the record was changed in place: the template holds the new one *)
  py_setitem tpl "Package" pkg.

Definition merge (packages : list value) : result value :=
  st <-- merge_loop packages initial_state;
  render st.

(** ** Reading documents

    [field k doc] is [doc['Package'][k]] when it exists. *)

Definition field (k : string) (doc : value) : option value :=
  match doc with
  | VDict top =>
      match dict_get "Package" top with
      | Some (VDict pkg) => dict_get k pkg
      | _ => None
      end
  | _ => None
  end.

(** [doc[k]], beside the [Package] record. *)
Definition top_field (k : string) (doc : value) : option value :=
  match doc with
  | VDict top => dict_get k top
  | _ => None
  end.

(** The packages the loop gets to: those before the first invalid one. *)
Fixpoint processed (packages : list value) : list value :=
  match packages with
  | [] => []
  | package_dict :: rest =>
      match is_invalid package_dict with
      | Ok false => package_dict :: processed rest
      | _ => []
      end
  end.

(** What one [types] record adds: the key of its type and the keys of its
    members, read with the operations [add_type] uses, in the same order. *)
Definition type_entry (mdt_type : value) : result (key * list key) :=
  name <-- py_getitem mdt_type "name";
  k <-- py_hash name;
  members <-- py_getitem mdt_type "members";
  items <-- py_iter (wrap_str members);
  ks <-- traverse py_hash items;
  Ok (k, ks).

Definition package_entries (package_dict : value)
  : result (list (key * list key)) :=
  pkg <-- py_getitem package_dict "Package";
  mdt_types <-- py_getitem pkg "types";
  items <-- py_iter (wrap_dict mdt_types);
  traverse type_entry items.

Definition add_entry (td : gmap key (gset key)) (e : key * list key)
  : gmap key (gset key) :=
  <[e.1 := default ∅ (td !! e.1) ∪ list_to_set e.2]> td.

(** The members the entries [es] give to type [T]. *)
Definition entry_set (T : key) (es : list (key * list key)) : gset key :=
  ⋃ ((fun e => if decide (e.1 = T) then list_to_set e.2 else ∅) <$> es).

Definition value_eq_dec (x y : value) : {x = y} + {x <> y}.
Proof.
  revert x y. fix IH 1.
  intros [|s|d|l] [|s'|d'|l']; try (right; discriminate).
  - left; reflexivity.
  - destruct (string_dec s s') as [->|Hne];
      [left; reflexivity | right; congruence].
  - assert (Hd : {d = d'} + {d <> d'}).
    { revert d'. induction d as [|[k v] d IHd]; intros [|[k' v'] d'];
        try (right; discriminate); [left; reflexivity|].
      destruct (string_dec k k') as [->|Hk]; [|right; congruence].
      destruct (IH v v') as [->|Hv]; [|right; congruence].
      destruct (IHd d') as [->|Hd]; [left; reflexivity | right; congruence]. }
    destruct Hd as [->|Hd]; [left; reflexivity | right; congruence].
  - assert (Hl : {l = l'} + {l <> l'}).
    { revert l'. induction l as [|v l IHl]; intros [|v' l'];
        try (right; discriminate); [left; reflexivity|].
      destruct (IH v v') as [->|Hv]; [|right; congruence].
      destruct (IHl l') as [->|Hl]; [left; reflexivity | right; congruence]. }
    destruct Hl as [->|Hl]; [left; reflexivity | right; congruence].
Defined.

#[global] Instance value_eq_decision : EqDecision value := value_eq_dec.

(** The record line 160 builds, and the records of an output document. *)
Definition type_record (name : value) (members : value) : value :=
  VDict [("members", members); ("name", name)].

Definition out_types (out : value) : list value :=
  match field "types" out with
  | Some (VList l) => l
  | _ => []
  end.

Definition type_name (r : value) : option value :=
  match r with VDict d => dict_get "name" d | _ => None end.

Definition type_members (r : value) : option (list value) :=
  match r with
  | VDict d =>
      match dict_get "members" d with
      | Some (VList l) => Some l
      | _ => None
      end
  | _ => None
  end.

(** The member lists of the records of [out] that are named [T]. *)
Definition members_of (out : value) (T : value) : list (list value) :=
  omap type_members
    (filter (fun r => type_name r = Some T) (out_types out)).

(** ** Sample packages *)

Definition package (fullName version : string) (types : value) : value :=
  VDict [("Package",
          VDict [("@xmlns", VStr "http://soap.sforce.com/2006/04/metadata");
                 ("fullName", VStr fullName);
                 ("types", types);
                 ("version", VStr version)])].

Definition package_a : value :=
  package "A" "58.0" (type_record (VStr "ApexClass") (VStr "Foo")).

Definition package_b : value :=
  package "B" "59.0"
    (VList [type_record (VStr "ApexClass") (VList [VStr "Bar"; VStr "Foo"]);
            type_record (VStr "Layout") (VStr "X")]).

(** What [merge] makes of [package_a] and [package_b]. *)
Definition merged_a_b : value :=
  VDict [("Package",
          VDict [("@xmlns", VStr "http://soap.sforce.com/2006/04/metadata");
                 ("fullName", VStr "Merged_Package");
                 ("types",
                  VList [type_record (VStr "ApexClass")
                           (VList [VStr "Bar"; VStr "Foo"]);
                         type_record (VStr "Layout") (VList [VStr "X"])]);
                 ("version", VStr "59.0");
                 ("description",
                  VStr ("This package.xml was created by merging the "
                        ++ "following packages:" ++ newline
                        ++ "A" ++ newline ++ "B"))])].

(** The state of the loop after [package_a] and [package_b]. *)
Definition state_a_b : state :=
  {| types_dict :=
       {[ Some "ApexClass" := {[ Some "Foo"; Some "Bar" ]};
          Some "Layout" := {[ Some "X" ]} ]};
     package_names := [VStr "A"; VStr "B"];
     max_version := Some (FFin false (59 * 2 ^ 1074));
     template := Some package_a |}.

(** A package without [version]: the validity test rejects it. *)
Definition package_no_version : value :=
  VDict [("Package",
          VDict [("fullName", VStr "C");
                 ("types", type_record (VStr "Flow") (VStr "F"))])].

(** A package without [fullName]: the validity test lets it through. *)
Definition package_no_name : value :=
  VDict [("Package",
          VDict [("types", type_record (VStr "Flow") (VStr "F"));
                 ("version", VStr "58.0")])].

(** ** The normal form of the specification (section 4.2)

    [normalizeTypes] wraps a single record into a one-element sequence and
    [normalizeMembers] wraps a bare string into a one-element sequence;
    anything else passes through.  [normalize_package] puts a package into
    that form: its [types] and the [members] of each of its records. *)

Definition normalizeTypes (rawTypes : value) : value :=
  match rawTypes with
  | VDict _ => VList [rawTypes]
  | _ => rawTypes
  end.

Definition normalizeMembers (rawMembers : value) : value :=
  match rawMembers with
  | VStr _ => VList [rawMembers]
  | _ => rawMembers
  end.

Definition normalize_record (r : value) : value :=
  match r with
  | VDict d =>
      match dict_get "members" d with
      | Some m => VDict (dict_set "members" (normalizeMembers m) d)
      | None => r
      end
  | _ => r
  end.

Definition normalize_types (rawTypes : value) : value :=
  match normalizeTypes rawTypes with
  | VList l => VList (normalize_record <$> l)
  | v => v
  end.

Definition normalize_package (package_dict : value) : value :=
  match package_dict with
  | VDict top =>
      match dict_get "Package" top with
      | Some (VDict pkg) =>
          match dict_get "types" pkg with
          | Some t =>
              VDict (dict_set "Package"
                       (VDict (dict_set "types" (normalize_types t) pkg)) top)
          | None => package_dict
          end
      | _ => package_dict
      end
  | _ => package_dict
  end.

(** [package_a] with its lone record and its lone member in sequences. *)
Definition package_a_sequences : value :=
  package "A" "58.0"
    (VList [type_record (VStr "ApexClass") (VList [VStr "Foo"])]).

(** [float(package_dict['Package']['version'])], from the package. *)
Definition package_version (package_dict : value) : result pyfloat :=
  pkg <-- py_getitem package_dict "Package";
  read_version pkg.

(** Finite floats other than the two zeros, their value in units of
    [2^-1074], and the greatest of a list of them. *)
Definition finite_nonzero (x : pyfloat) : bool :=
  match x with
  | FFin _ k => negb (k =? 0)%N
  | _ => false
  end.

Definition float_units (x : pyfloat) : Z :=
  match x with
  | FFin neg k => float_signed neg k
  | _ => 0%Z
  end.

Definition is_maximum (x : pyfloat) (vs : list pyfloat) : Prop :=
  x ∈ vs /\ Forall (fun v => (float_units v <= float_units x)%Z) vs.

(** Strings of the form [-?[0-9]+\.[0-9]]: one digit after the point. *)
Definition point_digit (s : string) : bool :=
  match s with
  | String p (String d EmptyString) => Ascii.eqb p "." && is_digit d
  | _ => false
  end.

Fixpoint digits_point_digit (s : string) : bool :=
  match s with
  | String c rest => is_digit c && (point_digit rest || digits_point_digit rest)
  | EmptyString => false
  end.

Definition one_decimal (s : string) : bool :=
  match s with
  | String "-" rest => digits_point_digit rest
  | _ => digits_point_digit s
  end.

Definition package_versioned (version : string) : value :=
  package version version (type_record (VStr "ApexClass") (VStr "Foo")).

(** Packages that pass the validity test and fail later: a record
    without [members], an empty [types] element (parsed as [None]), and
    an empty [members] element. *)
Definition package_record_no_members : value :=
  package "N" "58.0"
    (VList [type_record (VStr "ApexClass") (VStr "Foo");
            VDict [("name", VStr "Flow")]]).

Definition package_empty_types : value := package "E" "58.0" VNone.

Definition package_empty_members : value :=
  package "M" "58.0" (type_record (VStr "ApexClass") VNone).

(** A package with an empty [fullName] element. *)
Definition package_empty_name : value :=
  VDict [("Package",
          VDict [("fullName", VNone);
                 ("types", type_record (VStr "Flow") (VStr "F"));
                 ("version", VStr "58.0")])].

(** What [merge] makes of the versions [9], [58.0] and [59]. *)
Definition merged_9_58_59 : value :=
  VDict [("Package",
          VDict [("@xmlns", VStr "http://soap.sforce.com/2006/04/metadata");
                 ("fullName", VStr "Merged_Package");
                 ("types",
                  VList [type_record (VStr "ApexClass") (VList [VStr "Foo"])]);
                 ("version", VStr "59.0");
                 ("description",
                  VStr ("This package.xml was created by merging the "
                        ++ "following packages:" ++ newline
                        ++ "58.0" ++ newline ++ "59" ++ newline ++ "9"))])].

(** Member [m] stands under type [T] in the package. *)
Definition contributes (package_dict : value) (T m : key) : Prop :=
  exists es ks, package_entries package_dict = Ok es /\ (T, ks) ∈ es /\ m ∈ ks.

(** The order [list.sort] leaves between neighbours: both are [str] and
    the left one is smaller. *)
Definition value_lt (a b : value) : Prop :=
  match a, b with
  | VStr x, VStr y => String.ltb x y = true
  | _, _ => False
  end.

(** ** Well-formed packages

    The packages [merge] is meant for: a [Package] record whose [fullName]
    and [version] are strings, the version one that [float] reads, and
    whose [types] is a record or a list of records, each with a string for
    [name] and a string or a list of strings for [members]. *)







(** ** Definitions used in the proofs *)

Definition rendered_package (pkg : list (string * value)) (joined : string)
    (x : pyfloat) (types : list value) : list (string * value) :=
  dict_set "types" (VList types)
    (dict_set "version" (VStr (format_1f x))
       (dict_set "description" (VStr (description_header ++ joined))
          (dict_set "fullName" (VStr "Merged_Package") pkg))).

#[local] Instance key_value_inj : Inj (=) (=) key_value.
Proof. intros [x|] [y|]; simpl; congruence. Qed.

(** What [render_type] returns for the key [k] of [td]. *)
Definition rendered_type (td : gmap key (gset key)) (k : key) (r : value)
  : Prop :=
  exists s ms,
    td !! k = Some s
    /\ py_sort (key_value <$> elements s) = Ok (key_value <$> ms)
    /\ ms ≡ₚ elements s
    /\ r = type_record (key_value k) (VList (key_value <$> ms)).

Definition state_norm (st : state) : state :=
  {| types_dict := types_dict st; package_names := package_names st;
     max_version := max_version st;
     template := normalize_package <$> template st |}.

(** [process_package] once the [Package] record is at hand: the three
    things it reads from the record, and what it does with them. *)
Definition process_body (st : state) (package_dict : value)
    (rn : result value) (rv : result pyfloat)
    (rt : result (gmap key (gset key))) : result state :=
  fullName <-- rn;
  mv <-- match max_version st with
         | Some x => if float_truthy x then Ok x else rv
         | None => rv
         end;
  v <-- rv;
  td <-- rt;
  Ok {| types_dict := td;
        package_names := package_names st ++ [fullName];
        max_version := Some (py_max mv v);
        template :=
          Some match template st with
               | Some t => if py_truthy t then t else package_dict
               | None => package_dict
               end |}.

Definition read_types (td : gmap key (gset key)) (pkg : value)
  : result (gmap key (gset key)) :=
  mdt_types <-- py_getitem pkg "types";
  items <-- py_iter (wrap_dict mdt_types);
  fold_result add_type items td.

Definition normalize_record_of_package (pkg : value) : value :=
  match pkg with
  | VDict d =>
      match dict_get "types" d with
      | Some t => VDict (dict_set "types" (normalize_types t) d)
      | None => pkg
      end
  | _ => pkg
  end.

(** [render] once the template and its [Package] record are at hand. *)
Definition render_into (st : state) (names : list value) (tpl : value)
    (pkg : list (string * value)) : result value :=
  joined <-- py_join newline names;
  x <-- match max_version st with
        | Some x => Ok x
        | None => Raise TypeError
        end;
  ordered <-- py_sort (key_value <$> elements (dom (types_dict st)));
  types <-- traverse (render_type (types_dict st)) ordered;
  py_setitem tpl "Package" (VDict (rendered_package pkg joined x types)).

(** Lines 113-118 on the versions alone. *)
Definition version_step (cur : option pyfloat) (v : pyfloat) : option pyfloat :=
  Some (py_max match cur with
               | Some x => if float_truthy x then x else v
               | None => v
               end v).

Fixpoint all_digits (s : string) : bool :=
  match s with
  | EmptyString => true
  | String c rest => is_digit c && all_digits rest
  end.

(** The magnitudes of binary64 numbers, in units of [2^-1074]: at most
    53 significant bits. *)
Definition representable (k : Z) : Prop :=
  exists m j : Z, (0 <= j /\ 0 <= m < 2 ^ 53 /\ k = m * 2 ^ j)%Z.

Fixpoint no_underscore (s : string) : bool :=
  match s with
  | EmptyString => true
  | String c rest => negb (Ascii.eqb c "_") && no_underscore rest
  end.

(** Floats that [float] can return. *)
Definition float_ok (x : pyfloat) : Prop :=
  match x with
  | FFin _ k => representable (Z.of_N k) /\ (Z.of_N k < float_overflow)%Z
  | _ => True
  end.

(** The entry of a rendered record is its key with the sorted members. *)
Definition entry_of (td : gmap key (gset key)) (k : key)
    (e : key * list key) : Prop :=
  e.1 = k /\ exists s, td !! k = Some s /\ e.2 ≡ₚ elements s.

Definition package_entries_of (pkg : value) : result (list (key * list key)) :=
  mdt_types <-- py_getitem pkg "types";
  items <-- py_iter (wrap_dict mdt_types);
  traverse type_entry items.

(** ** The program around the core: [validate_paths], the file side of
       [merge], and [main]

    What the program does to the outside is kept as a list of events, in
    the order they happen.  What the outside does is a parameter: the file
    system and the two libraries the program calls.  Printing, and writing
    to a file that was opened for it, are taken to succeed. *)

Inductive node : Type :=
| Missing          (* no such path *)
| File             (* a regular file *)
| Directory
| Other.           (* exists, neither file nor directory: a device, a socket *)

Record system : Type := {
  (* [os.path.abspath(os.path.expanduser(p))] *)
  abs_path : string -> string;
  (* what a path names; [os.path.exists] and [os.path.isfile] read it *)
  fs_kind : string -> node;
  (* [os.walk(top)]: directory, its subdirectories, its files *)
  os_walk : string -> list (string * list string * list string);
  (* [os.path.join] *)
  path_join : string -> string -> string;
  (* [open(p, 'r')], [read()] and [xmltodict.parse]; [None] when one of
     them raises *)
  load_package : string -> option value;
  (* [xmltodict.unparse(doc, pretty=True)]; [None] when it raises *)
  unparse : value -> option string;
  (* whether [open(p, 'w')] succeeds *)
  open_write : string -> bool
}.

(** The namespace [parse_arguments] returns; [output] is [None] without
    the flag [-o]. *)
Record arguments : Type := {
  source : string;
  output : option string;
  verbose : bool
}.

Inductive event : Type :=
| Print (text : string)             (* [print(text)] *)
| Open (path : string)              (* [open(path, 'r')] *)
| Create (path : string)            (* [open(path, 'w')] went through *)
| Write (path content : string).    (* [file.write(content)] *)

(** An exception of the core, or whatever the outside raised: opening,
    reading or parsing the file at [path]; [unparse]; opening [path] for
    writing. *)
Inductive failure : Type :=
| Core (e : exn)
| LoadFailure (path : string)
| UnparseFailure
| WriteFailure (path : string).

Definition path_exists (sys : system) (p : string) : bool :=
  match fs_kind sys p with Missing => false | _ => true end.

Definition path_isfile (sys : system) (p : string) : bool :=
  match fs_kind sys p with File => true | _ => false end.

(** Truth value of a [str]. *)
Definition nonempty (s : string) : bool := negb (String.eqb s "").

(** Truth value of a variable that holds [None] or a [str]. *)
Definition given (o : option string) : bool :=
  match o with Some s => nonempty s | None => false end.

(** [validate_paths] (lines 40-73). *)
Definition validate_paths (sys : system) (args : arguments)
  : result (string * option string) :=
  (* 48-52 *)
  let sourcepath := abs_path sys (source args) in
  (* 55-56 *)
  if negb (path_exists sys sourcepath) || path_isfile sys sourcepath
  then Raise ValueError
  else
    (* 59-63 *)
    let outpath :=
      if given (output args)
      then abs_path sys <$> output args
      else None in
    (* 67-71: on the right of [and], [outpath] is a non-empty string *)
    if given outpath
       && (negb (path_exists sys (default "" outpath))
           || path_isfile sys sourcepath)
    then Raise ValueError
    else Ok (sourcepath, outpath).

Definition says (verbose : bool) (text : string) : list event :=
  if verbose then [Print text] else [].

(** The loop of [merge] with its files (lines 91-138): each file is opened
    when the loop comes to it. *)
Fixpoint read_packages (sys : system) (verbose : bool)
    (packages : list string) (st : state) : list event * (failure + state) :=
  match packages with
  | [] => ([], inr st)
  | filepath :: rest =>
      match load_package sys filepath with
      | None => ([Open filepath], inl (LoadFailure filepath))
      | Some package_dict =>
          match is_invalid package_dict with
          | Raise e => ([Open filepath], inl (Core e))
          | Ok true =>
              (Open filepath
               :: says verbose
                    (filepath ++ " is not a valid SFDC package. Skipping."),
               inr st)
          | Ok false =>
              let ev := Open filepath
                        :: says verbose ("Processing " ++ filepath) in
              match process_package st package_dict with
              | Raise e => (ev, inl (Core e))
              | Ok st' =>
                  let '(ev', r) := read_packages sys verbose rest st' in
                  (ev ++ ev', r)
              end
          end
      end
  end.

(** Lines 166-168: the names were sorted in place at line 140. *)
Definition completion_notice (verbose : bool) (st : state)
  : result (list event) :=
  if verbose then
    names <-- py_sort (package_names st);
    joined <-- py_join newline names;
    Ok [Print (newline
               ++ "Merging complete. package.xml created from packages:");
        Print joined]
  else Ok [].

(** Lines 170-184.  The header of line 172 is printed, and the file of
    line 179 opened, before [unparse] is called. *)
Definition deliver (sys : system) (outpath : option string) (verbose : bool)
    (tpl : value) : list event * option failure :=
  if given outpath then
    let path := (default "" outpath ++ "/package.xml")%string in
    if open_write sys path then
      match unparse sys tpl with
      | None => ([Create path], Some UnparseFailure)
      | Some text =>
          (Create path :: Write path text
           :: says verbose (newline ++ "package.xml written to "
                            ++ default "" outpath),
           None)
      end
    else ([], Some (WriteFailure path))
  else
    let header := Print (newline ++ "//// MERGED PACKAGE:" ++ newline) in
    match unparse sys tpl with
    | None => ([header], Some UnparseFailure)
    | Some text => ([header; Print text], None)
    end.

(** [merge(packages, outpath, verbose)] with its files and its output: the
    events, and the exception if one ends it. *)
Definition merge_files (sys : system) (packages : list string)
    (outpath : option string) (verbose : bool) : list event * option failure :=
  let ev0 := says verbose (newline ++ "//// MERGING PACKAGES" ++ newline) in
  match read_packages sys verbose packages initial_state with
  | (ev1, inl f) => (ev0 ++ ev1, Some f)
  | (ev1, inr st) =>
      match render st with
      | Raise e => (ev0 ++ ev1, Some (Core e))
      | Ok tpl =>
          match completion_notice verbose st with
          | Raise e => (ev0 ++ ev1, Some (Core e))
          | Ok ev2 =>
              let '(ev3, r) := deliver sys outpath verbose tpl in
              (ev0 ++ ev1 ++ ev2 ++ ev3, r)
          end
      end
  end.

(** Lines 199-207: the files named [package.xml] under [sourcepath], as
    paths, sorted. *)
Definition found_in (sys : system)
    (entry : string * list string * list string) : list string :=
  let '(dirpath, _, filenames) := entry in
  path_join sys dirpath
    <$> filter (fun f => f = "package.xml") filenames.

Definition find_packages (sys : system) (sourcepath : string) : list string :=
  let packages := os_walk sys sourcepath ≫= found_in sys in
  match packages with
  | [] => packages
  | _ => merge_sort String.le packages
  end.

(** [main] (lines 186-221), from the arguments on. *)
Definition main (sys : system) (args : arguments)
  : list event * option failure :=
  match validate_paths sys args with
  | Raise e => ([], Some (Core e))
  | Ok (sourcepath, outpath) =>
      let packages := find_packages sys sourcepath in
      match packages with
      | [] =>
          (says (verbose args)
             ("No packages found in subdirectory tree with root at SOURCE"
              ++ "(" ++ sourcepath ++ ")"),
           None)
      | _ =>
          let ev :=
            if verbose args then
              Print ("//// FOUND PACKAGES" ++ newline)
              :: Print (string_of_N (N.of_nat (length packages))
                        ++ " package files found:")
              :: (Print <$> packages)
            else [] in
          let '(ev', r) := merge_files sys packages outpath (verbose args) in
          (ev ++ ev', r)
      end
  end.

(** The files opened for reading, the files opened for writing, what was
    written and the lines printed. *)
Definition opened (evs : list event) : list string :=
  omap (fun e => match e with Open p => Some p | _ => None end) evs.

Definition created (evs : list event) : list string :=
  omap (fun e => match e with Create p => Some p | _ => None end) evs.

Definition written (evs : list event) : list (string * string) :=
  omap (fun e => match e with Write p c => Some (p, c) | _ => None end) evs.

Definition printed (evs : list event) : list string :=
  omap (fun e => match e with Print t => Some t | _ => None end) evs.

(** Everything but the lines printed. *)
Definition effects (evs : list event) : list event :=
  omap (fun e => match e with Print _ => None | _ => Some e end) evs.

(** A small system: a directory [/src] with three packages below it, a
    directory [/out] and a file [/out.xml]; [unparse] only tells the
    version. *)
Definition sample_system : system :=
  {| abs_path := fun p => p;
     fs_kind := fun p =>
       if String.eqb p "/src" then Directory
       else if String.eqb p "/out" then Directory
       else if String.eqb p "/out.xml" then File
       else Missing;
     os_walk := fun top =>
       if String.eqb top "/src"
       then [("/src", ["b"; "a"; "c"], ["README"]);
             ("/src/b", [], ["package.xml"]);
             ("/src/a", [], ["Package.xml"; "package.xml"]);
             ("/src/c", [], ["package.xml"; "notes.txt"])]
       else [];
     path_join := fun a b => (a ++ "/" ++ b)%string;
     load_package := fun p =>
       if String.eqb p "/src/a/package.xml" then Some package_a
       else if String.eqb p "/src/b/package.xml" then Some package_b
       else if String.eqb p "/src/c/package.xml" then Some package_no_version
       else None;
     unparse := fun doc =>
       match field "version" doc with
       | Some (VStr v) => Some v
       | _ => None
       end;
     open_write := fun p => String.eqb p "/out/package.xml" |}.

(** The same system with another enumeration of the directories. *)
Definition with_os_walk (sys : system)
    (walk : string -> list (string * list string * list string)) : system :=
  {| abs_path := abs_path sys; fs_kind := fs_kind sys; os_walk := walk;
     path_join := path_join sys; load_package := load_package sys;
     unparse := unparse sys; open_write := open_write sys |}.

(** * Properties *)

(** ** Inversion of the error monad *)

Lemma bind_Ok {A B} (r : result A) (k : A -> result B) (b : B) :
  (x <-- r; k x) = Ok b -> exists a, r = Ok a /\ k a = Ok b.
Proof. destruct r as [a|e]; simpl; [eauto | discriminate]. Qed.

Lemma bind_Raise {A B} (r : result A) (k : A -> result B) (e : exn) :
  (x <-- r; k x) = Raise e ->
  r = Raise e \/ exists a, r = Ok a /\ k a = Raise e.
Proof. destruct r as [a|e']; simpl; [right; eauto | left; congruence]. Qed.

(** ** The loop *)

Lemma merge_loop_break (pre rest : list value) (d : value) (st : state) :
  Forall (fun p => is_invalid p = Ok false) pre ->
  is_invalid d = Ok true ->
  merge_loop (pre ++ d :: rest) st = fold_result process_package pre st.
Proof.
  intros Hpre Hd. revert st.
  induction Hpre as [|p pre Hp _ IH]; intros st; simpl.
  - now rewrite Hd.
  - rewrite Hp; simpl. destruct (process_package st p); simpl; auto.
Qed.

Lemma merge_loop_valid (packages : list value) (st : state) :
  Forall (fun p => is_invalid p = Ok false) packages ->
  merge_loop packages st = fold_result process_package packages st.
Proof.
  intros H. revert st. induction H as [|p l Hp _ IH]; intros st; simpl; auto.
  rewrite Hp; simpl. destruct (process_package st p); simpl; auto.
Qed.

Lemma merge_loop_processed (packages : list value) (st st' : state) :
  merge_loop packages st = Ok st' ->
  fold_result process_package (processed packages) st = Ok st'.
Proof.
  revert st. induction packages as [|p l IH]; intros st; simpl; auto.
  destruct (is_invalid p) as [[|]|e]; simpl; try discriminate; auto.
  destruct (process_package st p); simpl; auto.
Qed.

(** ** [types_dict] as a fold of entries *)

Lemma add_type_entry (td : gmap key (gset key)) (mdt_type : value) :
  add_type td mdt_type = (e <-- type_entry mdt_type; Ok (add_entry td e)).
Proof.
  unfold add_type, type_entry, add_entry.
  destruct (py_getitem mdt_type "name") as [name|]; simpl; auto.
  destruct (py_hash name) as [k|]; simpl; auto.
  destruct (py_getitem mdt_type "members") as [members|]; simpl; auto.
  destruct (td !! k) as [s|] eqn:E; simpl.
  - rewrite E.
    destruct (py_iter (wrap_str members)) as [items|]; simpl; auto.
    destruct (traverse py_hash items); simpl; auto.
    now rewrite E.
  - rewrite lookup_insert_eq.
    destruct (py_iter (wrap_str members)) as [items|]; simpl; auto.
    destruct (traverse py_hash items); simpl; auto.
    now rewrite insert_insert_eq, E.
Qed.

Lemma fold_add_type (items : list value) (td : gmap key (gset key)) :
  fold_result add_type items td
  = (es <-- traverse type_entry items; Ok (foldl add_entry td es)).
Proof.
  revert td. induction items as [|x items IH]; intros td; simpl; auto.
  rewrite add_type_entry.
  destruct (type_entry x) as [e|]; simpl; auto.
  rewrite IH. destruct (traverse type_entry items); simpl; auto.
Qed.

Lemma process_package_types (st st' : state) (d : value) :
  process_package st d = Ok st' ->
  exists es, package_entries d = Ok es
             /\ types_dict st' = foldl add_entry (types_dict st) es.
Proof.
  unfold process_package, package_entries. intros H.
  apply bind_Ok in H as (pkg & -> & H); simpl.
  apply bind_Ok in H as (name & _ & H).
  apply bind_Ok in H as (mv & _ & H).
  apply bind_Ok in H as (v & _ & H).
  apply bind_Ok in H as (mdt_types & -> & H); simpl.
  apply bind_Ok in H as (items & -> & H); simpl.
  apply bind_Ok in H as (td & Htd & H).
  rewrite fold_add_type in Htd. apply bind_Ok in Htd as (es & -> & Htd).
  injection H as <-. injection Htd as <-. eauto.
Qed.

Lemma fold_process_types (docs : list value) (st st' : state) :
  fold_result process_package docs st = Ok st' ->
  exists ess, Forall2 (fun d es => package_entries d = Ok es) docs ess
              /\ types_dict st' = foldl add_entry (types_dict st) (concat ess).
Proof.
  revert st. induction docs as [|d docs IH]; intros st H; simpl in H.
  - injection H as <-. exists []. split; [constructor | reflexivity].
  - apply bind_Ok in H as (st1 & E & H).
    apply process_package_types in E as (es & Hes & Htd).
    apply IH in H as (ess & Hess & Htd').
    exists (es :: ess). split; [now constructor|].
    simpl. rewrite foldl_app. now rewrite <- Htd.
Qed.

Lemma entry_set_cons (T k : key) (ks : list key) es :
  entry_set T ((k, ks) :: es)
  = (if decide (k = T) then list_to_set ks else ∅) ∪ entry_set T es.
Proof. reflexivity. Qed.

Lemma entry_set_not_in (T : key) es : T ∉ es.*1 -> entry_set T es = ∅.
Proof.
  induction es as [|[k ks] es IH]; [reflexivity|].
  rewrite fmap_cons, not_elem_of_cons, entry_set_cons. cbn [fst].
  intros [Hne Hnin]. rewrite decide_False by congruence.
  rewrite IH by done. set_solver.
Qed.

Lemma lookup_add_entries (td : gmap key (gset key)) es (T : key) :
  foldl add_entry td es !! T
  = if decide (T ∈ es.*1)
    then Some (default ∅ (td !! T) ∪ entry_set T es)
    else td !! T.
Proof.
  revert td. induction es as [|[k ks] es IH]; intros td.
  - reflexivity.
  - change (foldl add_entry td ((k, ks) :: es))
      with (foldl add_entry (add_entry td (k, ks)) es).
    rewrite IH, fmap_cons, entry_set_cons. unfold add_entry; cbn [fst snd].
    destruct (decide (k = T)) as [->|Hne].
    + rewrite lookup_insert_eq; cbn [default].
      rewrite (decide_True (P := T ∈ T :: es.*1)) by apply list_elem_of_here.
      destruct (decide (T ∈ es.*1)) as [Hin|Hnin]; f_equal; unfold id.
      * set_solver.
      * rewrite (entry_set_not_in _ _ Hnin). set_solver.
    + rewrite lookup_insert_ne by done.
      destruct (decide (T ∈ es.*1)) as [Hin|Hnin].
      * rewrite decide_True by now apply list_elem_of_further.
        f_equal. set_solver.
      * rewrite decide_False; [done|].
        intros [?|?]%elem_of_cons; congruence.
Qed.

Lemma elem_of_entry_set (T m : key) es :
  m ∈ entry_set T es <-> exists ks, (T, ks) ∈ es /\ m ∈ ks.
Proof.
  unfold entry_set. induction es as [|[k ks] es IH]; simpl.
  - split; [set_solver|]. intros (ks & H & _). now apply elem_of_nil in H.
  - rewrite elem_of_union, IH. split.
    + intros [H|(ks' & H1 & H2)].
      * destruct (decide (k = T)) as [->|]; [|set_solver].
        exists ks. split; [left|]. now apply elem_of_list_to_set in H.
      * exists ks'. split; [now right | done].
    + intros (ks' & [Heq|H1]%elem_of_cons & H2).
      * injection Heq as <- <-. left. rewrite decide_True by done.
        now apply elem_of_list_to_set.
      * right. eauto.
Qed.

(** ** Sorting *)

Lemma compare_refl (s : string) : (s ?= s)%string = Eq.
Proof.
  pose proof (String.compare_antisym s s) as H.
  destruct (s ?= s)%string; simpl in H; congruence.
Qed.

Lemma ltb_le_ne (x y : string) :
  String.ltb x y = true <-> String.le x y /\ x <> y.
Proof.
  unfold String.le, String.ltb, String.leb.
  destruct (x ?= y)%string eqn:E; simpl; split; try easy.
  - apply String.compare_eq_iff in E. intros [_ Hne]. contradiction.
  - intros _. split; [exact I|]. intros ->. rewrite compare_refl in E. easy.
Qed.

Lemma mapM_as_str (l : list value) (ss : list string) :
  mapM as_str l = Some ss <-> l = VStr <$> ss.
Proof.
  rewrite mapM_Some. split.
  - induction 1 as [|v s l ss Hv _ IH]; [reflexivity|].
    destruct v; simpl in Hv; try discriminate. injection Hv as ->.
    simpl. now rewrite IH.
  - intros ->. induction ss; constructor; auto.
Qed.

Lemma StronglySorted_fmap_VStr (R : relation string) (R' : relation value)
    (ss : list string) :
  (forall x y, R x y -> R' (VStr x) (VStr y)) ->
  StronglySorted R ss -> StronglySorted R' (VStr <$> ss).
Proof.
  intros HR. induction 1 as [|x ss _ IH Hx]; simpl; constructor; auto.
  rewrite Forall_fmap. eapply Forall_impl; [exact Hx|]. intros y. apply HR.
Qed.

Lemma StronglySorted_le_lt (ss : list string) :
  StronglySorted String.le ss -> NoDup ss ->
  StronglySorted (fun x y => String.ltb x y = true) ss.
Proof.
  induction 1 as [|x ss _ IH Hx]; intros Hnd; constructor.
  - apply IH. now apply NoDup_cons in Hnd.
  - apply NoDup_cons in Hnd as [Hnin _].
    rewrite Forall_forall in Hx |- *. intros y Hy.
    apply ltb_le_ne. split; [now apply Hx|]. intros ->. contradiction.
Qed.

Lemma StronglySorted_short {A} (R : relation A) (l : list A) :
  (length l < 2)%nat -> StronglySorted R l.
Proof.
  destruct l as [|x [|y l]]; simpl; intros H; try lia; repeat constructor.
Qed.

Lemma py_sort_Permutation (l l' : list value) : py_sort l = Ok l' -> l' ≡ₚ l.
Proof.
  unfold py_sort. destruct l as [|x [|y l]]; try (intros [= <-]; done).
  destruct (mapM as_str _) as [ss|] eqn:E; [|discriminate].
  intros [= <-]. apply mapM_as_str in E as ->.
  now rewrite merge_sort_Permutation.
Qed.

Lemma py_sort_sorted (l l' : list value) :
  py_sort l = Ok l' -> NoDup l -> StronglySorted value_lt l'.
Proof.
  unfold py_sort. destruct l as [|x [|y l]];
    try (intros [= <-] _; apply StronglySorted_short; simpl; lia).
  destruct (mapM as_str _) as [ss|] eqn:E; [|discriminate].
  intros [= <-] Hnd. apply mapM_as_str in E. rewrite E in Hnd.
  apply StronglySorted_fmap_VStr with (R := fun x y => String.ltb x y = true);
    [done|].
  apply StronglySorted_le_lt.
  - apply StronglySorted_merge_sort; apply _.
  - rewrite merge_sort_Permutation.
    eapply NoDup_fmap_1, Hnd.
Qed.

Lemma merge_sort_perm (l1 l2 : list string) :
  l1 ≡ₚ l2 -> merge_sort String.le l1 = merge_sort String.le l2.
Proof.
  intros H. apply (StronglySorted_unique String.le).
  - apply StronglySorted_merge_sort; apply _.
  - apply StronglySorted_merge_sort; apply _.
  - now rewrite !merge_sort_Permutation.
Qed.

(** ** Dictionaries *)

Lemma dict_get_set_eq (k : string) (v : value) d :
  dict_get k (dict_set k v d) = Some v.
Proof.
  induction d as [|[k' v'] d IH]; simpl.
  - now rewrite String.eqb_refl.
  - destruct (String.eqb k k') eqn:E; simpl; rewrite ?String.eqb_refl, ?E; auto.
Qed.

Lemma dict_get_set_ne (k k' : string) (v : value) d :
  k <> k' -> dict_get k (dict_set k' v d) = dict_get k d.
Proof.
  intros Hne. apply String.eqb_neq in Hne.
  induction d as [|[k0 v0] d IH]; simpl.
  - now rewrite Hne.
  - destruct (String.eqb k' k0) eqn:E; simpl.
    + apply String.eqb_eq in E as <-. now rewrite Hne.
    + destruct (String.eqb k k0); auto.
Qed.

Lemma dict_set_set_eq (k : string) (v v' : value) d :
  dict_set k v (dict_set k v' d) = dict_set k v d.
Proof.
  induction d as [|[k0 v0] d IH]; simpl.
  - now rewrite String.eqb_refl.
  - destruct (String.eqb k k0) eqn:E; simpl; rewrite ?String.eqb_refl, ?E; auto.
    now rewrite IH.
Qed.

Lemma dict_set_same (k : string) (v : value) d :
  dict_get k d = Some v -> dict_set k v d = d.
Proof.
  induction d as [|[k0 v0] d IH]; simpl; [discriminate|].
  destruct (String.eqb k k0) eqn:E.
  - apply String.eqb_eq in E as ->. now intros [= ->].
  - intros H. now rewrite IH.
Qed.

(** ** The shape of a rendered document *)

Lemma render_Ok (st : state) (out : value) :
  render st = Ok out ->
  exists top pkg names joined x ordered types,
    template st = Some (VDict top)
    /\ dict_get "Package" top = Some (VDict pkg)
    /\ py_sort (package_names st) = Ok names
    /\ py_join newline names = Ok joined
    /\ max_version st = Some x
    /\ py_sort (key_value <$> elements (dom (types_dict st))) = Ok ordered
    /\ traverse (render_type (types_dict st)) ordered = Ok types
    /\ out = VDict (dict_set "Package"
                      (VDict (rendered_package pkg joined x types)) top).
Proof.
  unfold render. intros H.
  apply bind_Ok in H as (names & Hnames & H).
  apply bind_Ok in H as (tpl & Htpl & H).
  destruct (template st) as [t|]; [|discriminate]. injection Htpl as ->.
  apply bind_Ok in H as (pkg0 & Hpkg & H).
  destruct tpl as [|?|top|?]; try discriminate. simpl in Hpkg.
  destruct (dict_get "Package" top) as [p|] eqn:Etop; [|discriminate].
  injection Hpkg as ->.
  apply bind_Ok in H as (pkg1 & Hpkg1 & H).
  destruct pkg0 as [|?|pkg|?]; try discriminate. injection Hpkg1 as <-.
  apply bind_Ok in H as (joined & Hjoined & H).
  apply bind_Ok in H as (pkg2 & [= <-] & H).
  apply bind_Ok in H as (version & Hversion & H).
  destruct (max_version st) as [x|]; [|discriminate]. injection Hversion as <-.
  apply bind_Ok in H as (pkg3 & [= <-] & H).
  apply bind_Ok in H as (ordered & Hordered & H).
  apply bind_Ok in H as (types & Htypes & H).
  apply bind_Ok in H as (pkg4 & [= <-] & H).
  injection H as <-.
  exists top, pkg, names, joined, x, ordered, types. repeat split; auto.
Qed.

Lemma field_rendered (k : string) top pkg joined x types :
  field k (VDict (dict_set "Package"
                    (VDict (rendered_package pkg joined x types)) top))
  = dict_get k (rendered_package pkg joined x types).
Proof. unfold field. now rewrite dict_get_set_eq. Qed.

Lemma rendered_types pkg joined x types :
  dict_get "types" (rendered_package pkg joined x types) = Some (VList types).
Proof. apply dict_get_set_eq. Qed.

Lemma rendered_version pkg joined x types :
  dict_get "version" (rendered_package pkg joined x types)
  = Some (VStr (format_1f x)).
Proof.
  unfold rendered_package.
  rewrite dict_get_set_ne by discriminate. apply dict_get_set_eq.
Qed.

Lemma rendered_description pkg joined x types :
  dict_get "description" (rendered_package pkg joined x types)
  = Some (VStr (description_header ++ joined)).
Proof.
  unfold rendered_package.
  rewrite !dict_get_set_ne by discriminate. apply dict_get_set_eq.
Qed.

Lemma rendered_fullName pkg joined x types :
  dict_get "fullName" (rendered_package pkg joined x types)
  = Some (VStr "Merged_Package").
Proof.
  unfold rendered_package.
  rewrite !dict_get_set_ne by discriminate. apply dict_get_set_eq.
Qed.

Lemma merge_Ok (packages : list value) (out : value) :
  merge packages = Ok out ->
  exists st, fold_result process_package (processed packages) initial_state
             = Ok st /\ render st = Ok out.
Proof.
  unfold merge. intros H. apply bind_Ok in H as (st & Hst & H).
  apply merge_loop_processed in Hst. eauto.
Qed.

(** ** An invalid package ends the loop *)

(** X1.  Whatever follows the first invalid package is ignored: among
    valid packages before it, the result of the batch, an exception
    included, is that of those packages alone. *)
Lemma merge_break (pre rest : list value) (d : value) :
  Forall (fun p => is_invalid p = Ok false) pre ->
  is_invalid d = Ok true ->
  merge (pre ++ d :: rest) = merge pre.
Proof.
  intros Hpre Hd. unfold merge.
  now rewrite merge_loop_break, merge_loop_valid.
Qed.

(** C1.  The claim asks that an invalid package be skipped and the rest of
    the batch still be merged.  The loop leaves through [break] instead:
    with the package that lacks [version] in second place, the third
    package is never read, and the result is that of the first alone. *)
Theorem invalid_package_aborts_batch :
  is_invalid package_no_version = Ok true
  /\ merge [package_a; package_no_version; package_b] = merge [package_a]
  /\ (out <-- merge [package_a; package_no_version; package_b];
      Ok (out_types out))
     = Ok [type_record (VStr "ApexClass") (VList [VStr "Foo"])]
  /\ (out <-- merge [package_a; package_b]; Ok (out_types out))
     = Ok [type_record (VStr "ApexClass") (VList [VStr "Bar"; VStr "Foo"]);
           type_record (VStr "Layout") (VList [VStr "X"])].
Proof. repeat split; vm_compute; reflexivity. Qed.

(** ** No valid package *)

Lemma py_in_Raise (k : string) (v : value) (e : exn) :
  py_in k v = Raise e -> e = TypeError.
Proof. destruct v; simpl; congruence. Qed.

Lemma is_invalid_Raise (d : value) (e : exn) :
  is_invalid d = Raise e -> e = TypeError.
Proof.
  unfold is_invalid. intros H.
  apply bind_Raise in H as [H|(b1 & H1 & H)]; [now apply py_in_Raise in H|].
  destruct b1; simpl in H; [|discriminate].
  apply bind_Raise in H as [H|(pkg & Hpkg & H)].
  { destruct d as [|?|top|?]; simpl in H1, H; try congruence.
    unfold dict_mem in H1. destruct (dict_get "Package" top); congruence. }
  apply bind_Raise in H as [H|(b2 & H2 & H)]; [now apply py_in_Raise in H|].
  destruct b2; simpl in H; [|discriminate].
  apply bind_Raise in H as [H|(b3 & H3 & H)]; [now apply py_in_Raise in H|].
  discriminate.
Qed.

(** C2, as the code has it.  When no package of the batch passes the
    validity test, [merge] raises [TypeError] (the template is still [None]
    when line 142 subscripts it, or the test itself raised), and so returns
    no document. *)
Theorem no_valid_package_raises_TypeError (packages : list value) :
  Forall (fun p => is_invalid p <> Ok false) packages ->
  merge packages = Raise TypeError.
Proof.
  intros H. unfold merge. destruct H as [|p rest Hp _]; simpl.
  - reflexivity.
  - destruct (is_invalid p) as [[|]|e] eqn:E; simpl.
    + reflexivity.
    + congruence.
    + now apply is_invalid_Raise in E as ->.
Qed.

Lemma no_valid_package_raises_TypeError_witness :
  Forall (fun p => is_invalid p <> Ok false)
    [package_no_version; VDict [("Package", VNone)]]
  /\ merge [package_no_version; VDict [("Package", VNone)]] = Raise TypeError.
Proof.
  assert (H : Forall (fun p => is_invalid p <> Ok false)
                [package_no_version; VDict [("Package", VNone)]]).
  { repeat constructor; vm_compute; discriminate. }
  split; [exact H|]. exact (no_valid_package_raises_TypeError _ H).
Defined.

(** C2, as the claim states it: the exception would be a
    [NoValidInputError].  The empty batch already raises another one. *)
Lemma no_valid_package_not_NoValidInputError :
  ~ (forall packages : list value,
       Forall (fun p => is_invalid p <> Ok false) packages ->
       exists e, merge packages = Raise e
                 /\ exn_name e = "NoValidInputError").
Proof.
  intros H. destruct (H [] ltac:(constructor)) as (e & He & Hname).
  vm_compute in He. injection He as <-. discriminate.
Qed.

(** ** A package without [fullName] *)

(** C10.  A package whose [Package] record has [version] and [types] but
    no [fullName] passes the validity test, and reading its name at line
    110 raises [KeyError]; this holds wherever the package stands among the
    processed ones. *)
Theorem missing_fullName_raises_KeyError
    (pre rest : list value) (st : state) (top pkg : list (string * value)) :
  Forall (fun p => is_invalid p = Ok false) pre ->
  fold_result process_package pre initial_state = Ok st ->
  dict_get "Package" top = Some (VDict pkg) ->
  dict_mem "version" pkg = true ->
  dict_mem "types" pkg = true ->
  dict_get "fullName" pkg = None ->
  is_invalid (VDict top) = Ok false
  /\ merge (pre ++ VDict top :: rest) = Raise KeyError.
Proof.
  intros Hpre Hst Htop Hv Ht Hn.
  assert (Hvalid : is_invalid (VDict top) = Ok false).
  { unfold is_invalid; simpl. unfold dict_mem at 1. rewrite Htop; simpl.
    now rewrite Hv, Ht. }
  split; [exact Hvalid|].
  unfold merge.
  replace (merge_loop (pre ++ VDict top :: rest) initial_state)
    with (Raise (A := state) KeyError); [reflexivity|].
  symmetry. revert Hst. generalize initial_state as st0.
  induction Hpre as [|p pre Hp _ IH]; intros st0 Hst; simpl.
  - rewrite Hvalid; simpl. unfold process_package; simpl.
    now rewrite Htop; simpl; rewrite Hn.
  - rewrite Hp; simpl. simpl in Hst.
    apply bind_Ok in Hst as (st1 & -> & Hst); simpl. eauto.
Qed.

Lemma missing_fullName_raises_KeyError_witness :
  is_invalid package_no_name = Ok false
  /\ merge ([package_a] ++ package_no_name :: [package_b]) = Raise KeyError.
Proof.
  eapply (missing_fullName_raises_KeyError [package_a] [package_b]).
  - repeat constructor.
  - reflexivity.
  - reflexivity.
  - reflexivity.
  - reflexivity.
  - reflexivity.
Defined.

(** ** The rendered [types] *)

Lemma py_hash_key_value (k : key) : py_hash (key_value k) = Ok k.
Proof. now destruct k. Qed.

Lemma py_sort_keys (ks : list key) (vs : list value) :
  py_sort (key_value <$> ks) = Ok vs ->
  exists ks', vs = key_value <$> ks' /\ ks' ≡ₚ ks.
Proof.
  intros H. apply py_sort_Permutation in H.
  apply Permutation_map_inv in H as (ks' & -> & Hp).
  exists ks'. split; [reflexivity | now symmetry].
Qed.

Lemma render_type_Ok td (k : key) (r : value) :
  render_type td (key_value k) = Ok r -> rendered_type td k r.
Proof.
  unfold render_type. rewrite py_hash_key_value; simpl.
  destruct (td !! k) as [s|] eqn:Es; [|discriminate]. intros H.
  apply bind_Ok in H as (vs & Hvs & [= <-]).
  destruct (py_sort_keys _ _ Hvs) as (ms & -> & Hp).
  exists s, ms. repeat split; auto.
Qed.

Lemma traverse_render_type td (ks : list key) (types : list value) :
  traverse (render_type td) (key_value <$> ks) = Ok types ->
  Forall2 (rendered_type td) ks types.
Proof.
  revert types. induction ks as [|k ks IH]; intros types H; simpl in H.
  - injection H as <-. constructor.
  - apply bind_Ok in H as (r & Hr & H).
    apply bind_Ok in H as (rs & Hrs & [= <-]).
    constructor; [now apply render_type_Ok | now apply IH].
Qed.

(** The rendered [types] of a state, in full. *)
Lemma render_types (st : state) (out : value) :
  render st = Ok out ->
  exists ks types,
    ks ≡ₚ elements (dom (types_dict st))
    /\ py_sort (key_value <$> elements (dom (types_dict st)))
       = Ok (key_value <$> ks)
    /\ Forall2 (rendered_type (types_dict st)) ks types
    /\ field "types" out = Some (VList types).
Proof.
  intros H.
  apply render_Ok in H
    as (top & pkg & names & joined & x & ordered & types
        & _ & _ & _ & _ & _ & Hord & Htypes & ->).
  destruct (py_sort_keys _ _ Hord) as (ks & -> & Hp).
  exists ks, types. repeat split; auto.
  - now apply traverse_render_type.
  - now rewrite field_rendered, rendered_types.
Qed.

Lemma NoDup_key_values (ks : list key) : NoDup ks -> NoDup (key_value <$> ks).
Proof. apply NoDup_fmap_2, _. Qed.

Lemma rendered_records td (ks : list key) (types : list value) :
  Forall2 (rendered_type td) ks types ->
  exists recs : list (value * list value),
    types = (fun r => type_record r.1 (VList r.2)) <$> recs
    /\ recs.*1 = key_value <$> ks
    /\ Forall (fun r => StronglySorted value_lt r.2) recs.
Proof.
  induction 1 as [|k r ks types (s & ms & Hs & Hms & Hp & ->) _
                    (recs & -> & Hnames & Hsorted)].
  - exists []. repeat split; constructor.
  - exists ((key_value k, key_value <$> ms) :: recs). simpl.
    repeat split; [now f_equal|]. constructor; [|exact Hsorted]. simpl.
    eapply py_sort_sorted; [exact Hms|].
    apply NoDup_key_values, NoDup_elements.
Qed.

(** C5.  In the document [merge] returns, [types] is a list of records
    whose names are in strictly ascending order of their bytes, and in each
    record [members] is a list in strictly ascending order. *)
Theorem output_types_sorted (packages : list value) (out : value) :
  merge packages = Ok out ->
  exists recs : list (value * list value),
    field "types" out
    = Some (VList ((fun r => type_record r.1 (VList r.2)) <$> recs))
    /\ StronglySorted value_lt recs.*1
    /\ Forall (fun r => StronglySorted value_lt r.2) recs.
Proof.
  intros H. apply merge_Ok in H as (st & _ & H).
  apply render_types in H as (ks & types & Hp & Hsort & Htypes & ->).
  apply py_sort_sorted in Hsort;
    [|apply NoDup_key_values, NoDup_elements].
  apply rendered_records in Htypes as (recs & -> & Hnames & Hsorted).
  exists recs. rewrite Hnames. auto.
Qed.

(** The order is that of the bytes: capitals come before the underscore
    and both before small letters. *)
Lemma sort_is_by_code_point :
  py_sort [VStr "apple"; VStr "_x"; VStr "Zebra"; VStr "Apple"]
  = Ok [VStr "Apple"; VStr "Zebra"; VStr "_x"; VStr "apple"].
Proof. vm_compute. reflexivity. Qed.

Lemma output_types_sorted_witness :
  merge [package_a; package_b] = Ok merged_a_b
  /\ exists recs : list (value * list value),
      field "types" merged_a_b
      = Some (VList ((fun r => type_record r.1 (VList r.2)) <$> recs))
      /\ StronglySorted value_lt recs.*1
      /\ Forall (fun r => StronglySorted value_lt r.2) recs.
Proof.
  assert (H : merge [package_a; package_b] = Ok merged_a_b)
    by (vm_compute; reflexivity).
  split; [exact H|]. exact (output_types_sorted _ _ H).
Defined.

(** ** Members are listed once *)

Lemma fold_process_lookup (docs : list value) (st : state) (d : value)
    (T m : key) :
  fold_result process_package docs initial_state = Ok st ->
  d ∈ docs -> contributes d T m ->
  exists s, types_dict st !! T = Some s /\ m ∈ s.
Proof.
  intros Hst Hd (es & ks & Hes & HT & Hm).
  apply fold_process_types in Hst as (ess & Hess & ->).
  assert (Hin : (T, ks) ∈ concat ess).
  { apply list_elem_of_lookup in Hd as (i & Hi).
    destruct (Forall2_lookup_l _ _ _ _ _ Hess Hi) as (es' & Hi' & Hes').
    rewrite Hes in Hes'. injection Hes' as <-.
    apply list_elem_of_In, in_concat. exists es.
    split; apply list_elem_of_In; [|exact HT].
    now apply list_elem_of_lookup_2 in Hi'. }
  rewrite lookup_add_entries. rewrite decide_True.
  - eexists. split; [reflexivity|].
    apply elem_of_union_r, elem_of_entry_set. eauto.
  - apply list_elem_of_fmap. exists (T, ks). auto.
Qed.

Lemma filter_rendered_not_in td (ks : list key) (types : list value) (T : key) :
  Forall2 (rendered_type td) ks types -> T ∉ ks ->
  filter (fun r => type_name r = Some (key_value T)) types = [].
Proof.
  induction 1 as [|k r ks types (s & ms & _ & _ & _ & ->) _ IH];
    [reflexivity|].
  rewrite not_elem_of_cons. intros [Hne Hnin].
  rewrite filter_cons_False; [auto|].
  simpl. intros [= Heq]. apply (inj key_value) in Heq. congruence.
Qed.

Lemma members_of_rendered td (ks : list key) (types : list value) (T : key) :
  Forall2 (rendered_type td) ks types -> NoDup ks -> T ∈ ks ->
  exists s ms,
    td !! T = Some s /\ ms ≡ₚ elements s
    /\ omap type_members
         (filter (fun r => type_name r = Some (key_value T)) types)
       = [key_value <$> ms].
Proof.
  induction 1 as [|k r ks types (s & ms & Hs & _ & Hp & ->) Hrest IH];
    intros Hnd Hin.
  - now apply elem_of_nil in Hin.
  - apply NoDup_cons in Hnd as [Hk Hnd].
    destruct (decide (k = T)) as [->|Hne].
    + exists s, ms. repeat split; auto.
      rewrite filter_cons_True by reflexivity.
      now rewrite (filter_rendered_not_in _ _ _ _ Hrest Hk).
    + apply elem_of_cons in Hin as [->|Hin]; [done|].
      destruct (IH Hnd Hin) as (s' & ms' & Hs' & Hp' & Hf).
      exists s', ms'. repeat split; auto.
      rewrite filter_cons_False; [exact Hf|].
      simpl. intros [= Heq]. apply (inj key_value) in Heq. congruence.
Qed.

Lemma count_occ_NoDup {A} (dec : forall x y : A, {x = y} + {x <> y})
    (l : list A) (x : A) :
  NoDup l -> x ∈ l -> count_occ dec l x = 1%nat.
Proof.
  intros Hnd Hin. apply NoDup_ListNoDup in Hnd.
  apply (proj1 (NoDup_count_occ' dec l) Hnd). now apply list_elem_of_In.
Qed.

(** C4.  A member [m] that stands under type [T] in some processed package
    is listed exactly once in the output: there is one record named [T],
    and [m] occurs once in its members.  The same holds at every point of
    the loop: after the packages [pre] have been processed, [m] is once
    among the elements of the set kept for [T], however many of them
    contributed it. *)
Theorem member_listed_once
    (packages pre suf : list value) (out : value) (st : state)
    (d : value) (T m : key) :
  merge packages = Ok out ->
  processed packages = pre ++ suf ->
  fold_result process_package pre initial_state = Ok st ->
  d ∈ pre ->
  contributes d T m ->
  (exists ms, members_of out (key_value T) = [ms]
              /\ count_occ value_eq_dec ms (key_value m) = 1%nat)
  /\ (exists s, types_dict st !! T = Some s
                /\ count_occ (decide_rel (=)) (elements s) m = 1%nat).
Proof.
  intros H Hpre Hst Hd Hc. split.
  - apply merge_Ok in H as (st' & Hst' & H).
    assert (Hd' : d ∈ processed packages).
    { rewrite Hpre. apply elem_of_app. now left. }
    destruct (fold_process_lookup _ _ _ _ _ Hst' Hd' Hc) as (s & Hs & Hm).
    apply render_types in H as (ks & types & Hp & _ & Htypes & Hfield).
    assert (Hnd : NoDup ks) by (rewrite Hp; apply NoDup_elements).
    assert (Hin : T ∈ ks).
    { rewrite Hp. apply elem_of_elements, elem_of_dom. eauto. }
    destruct (members_of_rendered _ _ _ _ Htypes Hnd Hin)
      as (s' & ms & Hs' & Hms & Hf).
    rewrite Hs in Hs'. injection Hs' as <-.
    exists (key_value <$> ms). unfold members_of, out_types.
    rewrite Hfield. split; [exact Hf|].
    apply count_occ_NoDup.
    + apply NoDup_key_values. rewrite Hms. apply NoDup_elements.
    + apply list_elem_of_fmap. exists m. split; [reflexivity|].
      rewrite Hms. now apply elem_of_elements.
  - destruct (fold_process_lookup _ _ _ _ _ Hst Hd Hc) as (s & Hs & Hm).
    exists s. split; [exact Hs|].
    apply count_occ_NoDup; [apply NoDup_elements | now apply elem_of_elements].
Qed.

Lemma member_listed_once_witness :
  merge [package_a; package_b] = Ok merged_a_b
  /\ (exists ms, members_of merged_a_b (VStr "ApexClass") = [ms]
                 /\ count_occ value_eq_dec ms (VStr "Foo") = 1%nat)
  /\ (exists s, types_dict state_a_b !! Some "ApexClass" = Some s
                /\ count_occ (decide_rel (=)) (elements s) (Some "Foo")
                   = 1%nat).
Proof.
  assert (H : merge [package_a; package_b] = Ok merged_a_b)
    by (vm_compute; reflexivity).
  split; [exact H|].
  apply (member_listed_once [package_a; package_b] [package_a; package_b] []
           merged_a_b state_a_b package_b (Some "ApexClass") (Some "Foo")).
  - exact H.
  - reflexivity.
  - vm_compute; reflexivity.
  - apply list_elem_of_further, list_elem_of_here.
  - exists [(Some "ApexClass", [Some "Bar"; Some "Foo"]);
            (Some "Layout", [Some "X"])], [Some "Bar"; Some "Foo"].
    repeat split.
    + apply list_elem_of_here.
    + apply list_elem_of_further, list_elem_of_here.
Defined.

(** ** Name and description *)

Lemma process_package_names (st st' : state) (d : value) :
  process_package st d = Ok st' ->
  exists v, field "fullName" d = Some v
            /\ package_names st' = package_names st ++ [v].
Proof.
  unfold process_package. intros H.
  apply bind_Ok in H as (pkg & Hpkg & H).
  apply bind_Ok in H as (name & Hname & H).
  apply bind_Ok in H as (mv & _ & H).
  apply bind_Ok in H as (v & _ & H).
  apply bind_Ok in H as (mdt_types & _ & H).
  apply bind_Ok in H as (items & _ & H).
  apply bind_Ok in H as (td & _ & [= <-]).
  exists name. split; [|reflexivity].
  destruct d as [|?|top|?]; try discriminate. simpl in Hpkg |- *.
  destruct (dict_get "Package" top) as [p|]; [|discriminate].
  injection Hpkg as ->.
  destruct pkg as [|?|p|?]; try discriminate. simpl in Hname.
  destruct (dict_get "fullName" p); congruence.
Qed.

Lemma fold_process_names (docs : list value) (st st' : state) :
  fold_result process_package docs st = Ok st' ->
  exists vs, Forall2 (fun d v => field "fullName" d = Some v) docs vs
             /\ package_names st' = package_names st ++ vs.
Proof.
  revert st. induction docs as [|d docs IH]; intros st H; simpl in H.
  - injection H as <-. exists []. split; [constructor|].
    now rewrite app_nil_r.
  - apply bind_Ok in H as (st1 & E & H).
    apply process_package_names in E as (v & Hv & Hn).
    apply IH in H as (vs & Hvs & Hn').
    exists (v :: vs). split; [now constructor|].
    rewrite Hn', Hn. now rewrite <- app_assoc.
Qed.

Lemma py_sort_strs (ss : list string) :
  py_sort (VStr <$> ss) = Ok (VStr <$> merge_sort String.le ss).
Proof.
  destruct ss as [|x [|y ss]]; try reflexivity.
  unfold py_sort. change (VStr <$> x :: y :: ss)
    with (VStr x :: VStr y :: (VStr <$> ss)).
  change (VStr x :: VStr y :: (VStr <$> ss)) with (VStr <$> x :: y :: ss).
  now rewrite (proj2 (mapM_as_str _ (x :: y :: ss)) eq_refl).
Qed.

Lemma py_join_Ok (sep joined : string) (l : list value) :
  py_join sep l = Ok joined ->
  exists ss, l = VStr <$> ss /\ joined = String.concat sep ss.
Proof.
  unfold py_join. destruct (mapM as_str l) as [ss|] eqn:E; [|discriminate].
  intros [= <-]. apply mapM_as_str in E. eauto.
Qed.

Lemma fmap_VStr_inj (l1 l2 : list string) :
  VStr <$> l1 = VStr <$> l2 -> l1 = l2.
Proof.
  revert l2. induction l1 as [|x l1 IH]; intros [|y l2] H;
    simpl in H; try discriminate; [reflexivity|].
  injection H as -> H. f_equal. now apply IH.
Qed.

Lemma Permutation_VStr (l : list value) (ss : list string) :
  l ≡ₚ VStr <$> ss -> exists ss', l = VStr <$> ss'.
Proof.
  intros H. apply Permutation_map_inv in H as (ss' & -> & _). eauto.
Qed.

(** C9.  When every package of the batch is valid and [merge] returns a
    document, its [fullName] is [Merged_Package] and its [description] is
    the header followed by the names of all the packages, sorted and joined
    by newlines.  The names are gathered in the order of the input (the
    loop ends with [package_names] holding them in that order) and sorted
    once, at line 140. *)
Theorem output_name_and_description (packages : list value) (out : value) :
  Forall (fun p => is_invalid p = Ok false) packages ->
  merge packages = Ok out ->
  exists (names : list string) (st : state),
    Forall2 (fun p n => field "fullName" p = Some (VStr n)) packages names
    /\ merge_loop packages initial_state = Ok st
    /\ package_names st = VStr <$> names
    /\ field "fullName" out = Some (VStr "Merged_Package")
    /\ field "description" out
       = Some (VStr ("This package.xml was created by merging the following packages:"
                     ++ newline
                     ++ String.concat newline (merge_sort String.le names))).
Proof.
  intros Hvalid H. unfold merge in H.
  apply bind_Ok in H as (st & Hloop & H).
  pose proof Hloop as Hfold. rewrite merge_loop_valid in Hfold by done.
  apply fold_process_names in Hfold as (vs & Hvs & Hnames).
  simpl in Hnames.
  apply render_Ok in H
    as (top & pkg & sorted & joined & x & ordered & types
        & _ & _ & Hsort & Hjoin & _ & _ & _ & ->).
  apply py_join_Ok in Hjoin as (ss & -> & ->).
  pose proof (py_sort_Permutation _ _ Hsort) as Hp.
  symmetry in Hp. apply Permutation_VStr in Hp as (names & Hvs').
  rewrite Hnames in Hvs'. subst vs.
  rewrite Hvs', py_sort_strs in Hsort. injection Hsort as Hsort.
  apply fmap_VStr_inj in Hsort. subst ss. rewrite Hvs' in Hvs.
  exists names, st. repeat split; auto.
  - clear -Hvs. revert Hvs. generalize names. clear names.
    induction packages as [|p l IH]; intros [|n names] H;
      inversion H; subst; constructor; auto.
  - now rewrite field_rendered, rendered_fullName.
  - now rewrite field_rendered, rendered_description.
Qed.

Lemma output_name_and_description_witness :
  merge [package_b; package_a] = Ok merged_a_b
  /\ exists (names : list string) (st : state),
      Forall2 (fun p n => field "fullName" p = Some (VStr n))
        [package_b; package_a] names
      /\ merge_loop [package_b; package_a] initial_state = Ok st
      /\ package_names st = VStr <$> names
      /\ field "fullName" merged_a_b = Some (VStr "Merged_Package")
      /\ field "description" merged_a_b
         = Some (VStr ("This package.xml was created by merging the following packages:"
                       ++ newline
                       ++ String.concat newline (merge_sort String.le names))).
Proof.
  assert (H : merge [package_b; package_a] = Ok merged_a_b)
    by (vm_compute; reflexivity).
  split; [exact H|].
  apply (output_name_and_description [package_b; package_a] merged_a_b).
  - repeat constructor.
  - exact H.
Defined.

(** ** Either shape of [types] and [members] *)

Lemma dict_set_comm (k k' : string) (v v' : value) d :
  k <> k' -> dict_mem k d = true ->
  dict_set k' v' (dict_set k v d) = dict_set k v (dict_set k' v' d).
Proof.
  intros Hne. unfold dict_mem.
  induction d as [|[k0 v0] d IH]; simpl; [discriminate|].
  destruct (String.eqb k k0) eqn:E; simpl.
  - apply String.eqb_eq in E as <-. intros _.
    assert (E' : String.eqb k' k = false) by (apply String.eqb_neq; congruence).
    rewrite E'; simpl. now rewrite String.eqb_refl.
  - intros H. destruct (String.eqb k' k0) eqn:E'; simpl; rewrite ?E.
    + now rewrite (proj2 (String.eqb_neq k k') Hne).
    + now rewrite IH.
Qed.

Lemma dict_mem_set_ne (k k' : string) (v : value) d :
  k <> k' -> dict_mem k (dict_set k' v d) = dict_mem k d.
Proof. intros H. unfold dict_mem. now rewrite dict_get_set_ne. Qed.

Lemma rendered_package_types pkg (t : value) joined x types :
  dict_mem "types" pkg = true ->
  rendered_package (dict_set "types" t pkg) joined x types
  = rendered_package pkg joined x types.
Proof.
  intros H. unfold rendered_package.
  rewrite (dict_set_comm "types" "fullName") by (discriminate || done).
  rewrite (dict_set_comm "types" "description")
    by (discriminate || now rewrite dict_mem_set_ne).
  rewrite (dict_set_comm "types" "version")
    by (discriminate || now rewrite !dict_mem_set_ne).
  apply dict_set_set_eq.
Qed.

Lemma py_truthy_dict_set (k : string) (v : value) d :
  py_truthy (VDict (dict_set k v d)) = true.
Proof.
  destruct d as [|[k0 v0] d]; cbn [dict_set]; [reflexivity|].
  now destruct (String.eqb k k0).
Qed.

Lemma py_truthy_normalize (p : value) :
  py_truthy (normalize_package p) = py_truthy p.
Proof.
  destruct p as [|?|top|?]; try reflexivity. cbn [normalize_package].
  destruct (dict_get "Package" top) as [[|?|pkg|?]|] eqn:E; try reflexivity.
  destruct (dict_get "types" pkg); try reflexivity.
  rewrite py_truthy_dict_set.
  destruct top; [discriminate | reflexivity].
Qed.

Lemma is_invalid_normalize (p : value) :
  is_invalid (normalize_package p) = is_invalid p.
Proof.
  destruct p as [|?|top|?]; try reflexivity. simpl.
  destruct (dict_get "Package" top) as [[|?|pkg|?]|] eqn:E; try reflexivity.
  destruct (dict_get "types" pkg) as [t|] eqn:Et; try reflexivity.
  unfold is_invalid, py_in, py_getitem, dict_mem.
  rewrite !dict_get_set_eq, E. cbn [bind negb].
  rewrite dict_get_set_ne by discriminate.
  now rewrite dict_get_set_eq, Et.
Qed.

Lemma add_type_normalize td (r : value) :
  add_type td (normalize_record r) = add_type td r.
Proof.
  destruct r as [|?|d|?]; try reflexivity. simpl.
  destruct (dict_get "members" d) as [m|] eqn:E; try reflexivity.
  unfold add_type; simpl.
  rewrite dict_get_set_ne by discriminate.
  destruct (dict_get "name" d) as [name|]; simpl; auto.
  destruct (py_hash name) as [k|]; simpl; auto.
  rewrite dict_get_set_eq, E; simpl.
  now destruct m.
Qed.

Lemma fold_add_type_normalize (items : list value) td :
  fold_result add_type (normalize_record <$> items) td
  = fold_result add_type items td.
Proof.
  revert td. induction items as [|r items IH]; intros td; simpl; auto.
  rewrite add_type_normalize. destruct (add_type td r); simpl; auto.
Qed.

Lemma iter_types_normalize (t : value) td :
  (items <-- py_iter (wrap_dict (normalize_types t));
   fold_result add_type items td)
  = (items <-- py_iter (wrap_dict t); fold_result add_type items td).
Proof.
  destruct t as [|s|d|l]; try reflexivity.
  - apply (fold_add_type_normalize [VDict d]).
  - apply fold_add_type_normalize.
Qed.

Lemma process_package_body (st : state) (p : value) :
  process_package st p
  = (pkg <-- py_getitem p "Package";
     process_body st p (py_getitem pkg "fullName") (read_version pkg)
       (read_types (types_dict st) pkg)).
Proof.
  unfold process_package, process_body, read_types.
  destruct (py_getitem p "Package") as [pkg|]; simpl; auto.
  destruct (py_getitem pkg "fullName"); simpl; auto.
  destruct (match max_version st with
            | Some x => if float_truthy x then Ok x else read_version pkg
            | None => read_version pkg
            end); simpl; auto.
  destruct (read_version pkg); simpl; auto.
  destruct (py_getitem pkg "types") as [t|]; simpl; auto.
  destruct (py_iter (wrap_dict t)); simpl; auto.
Qed.

Lemma getitem_normalize_package (p : value) :
  py_getitem (normalize_package p) "Package"
  = (pkg <-- py_getitem p "Package"; Ok (normalize_record_of_package pkg)).
Proof.
  destruct p as [|?|top|?]; try reflexivity.
  cbn [normalize_package py_getitem].
  destruct (dict_get "Package" top) as [[|?|pkg|?]|] eqn:E;
    cbn [py_getitem]; rewrite ?E; try reflexivity.
  cbn [bind normalize_record_of_package].
  destruct (dict_get "types" pkg) eqn:Et.
  - cbn [py_getitem]. now rewrite dict_get_set_eq.
  - cbn [py_getitem]. now rewrite E.
Qed.

Lemma getitem_normalized_ne (pkg : value) (k : string) :
  k <> "types" ->
  py_getitem (normalize_record_of_package pkg) k = py_getitem pkg k.
Proof.
  intros Hk. destruct pkg as [|?|d|?]; try reflexivity. simpl.
  destruct (dict_get "types" d); try reflexivity. simpl.
  now rewrite dict_get_set_ne.
Qed.

Lemma read_types_normalized td (pkg : value) :
  read_types td (normalize_record_of_package pkg) = read_types td pkg.
Proof.
  unfold read_types. destruct pkg as [|?|d|?]; try reflexivity. simpl.
  destruct (dict_get "types" d) as [t|] eqn:Et; simpl; rewrite ?Et; auto.
  rewrite dict_get_set_eq. simpl. apply iter_types_normalize.
Qed.

Lemma process_body_normalize (st : state) (p : value) rn rv rt :
  process_body (state_norm st) (normalize_package p) rn rv rt
  = (st' <-- process_body st p rn rv rt; Ok (state_norm st')).
Proof.
  unfold process_body, state_norm; simpl.
  destruct rn; simpl; auto.
  destruct (match max_version st with
            | Some x => if float_truthy x then Ok x else rv
            | None => rv
            end); simpl; auto.
  destruct rv; simpl; auto. destruct rt; simpl; auto.
  do 3 f_equal.
  destruct (template st) as [t|]; simpl; auto.
  rewrite py_truthy_normalize. now destruct (py_truthy t).
Qed.

Lemma process_package_normalize (st : state) (p : value) :
  process_package (state_norm st) (normalize_package p)
  = (st' <-- process_package st p; Ok (state_norm st')).
Proof.
  rewrite !process_package_body, getitem_normalize_package.
  destruct (py_getitem p "Package") as [pkg|]; simpl; auto.
  rewrite getitem_normalized_ne by discriminate.
  unfold read_version. rewrite getitem_normalized_ne by discriminate.
  rewrite read_types_normalized. apply process_body_normalize.
Qed.

Lemma merge_loop_normalize (packages : list value) (st : state) :
  merge_loop (normalize_package <$> packages) (state_norm st)
  = (st' <-- merge_loop packages st; Ok (state_norm st')).
Proof.
  revert st. induction packages as [|p l IH]; intros st; simpl; auto.
  rewrite is_invalid_normalize.
  destruct (is_invalid p) as [[|]|]; simpl; auto.
  rewrite process_package_normalize.
  destruct (process_package st p); simpl; auto.
Qed.

Lemma render_closed (st : state) :
  render st
  = (names <-- py_sort (package_names st);
     match template st with
     | None => Raise TypeError
     | Some tpl =>
         pkg <-- py_getitem tpl "Package";
         match pkg with
         | VDict d => render_into st names tpl d
         | _ => Raise TypeError
         end
     end).
Proof.
  unfold render, render_into.
  destruct (py_sort (package_names st)) as [names|]; simpl; auto.
  destruct (template st) as [tpl|]; simpl; auto.
  destruct (py_getitem tpl "Package") as [[|?|d|?]|]; simpl; auto.
  destruct (py_join newline names); simpl; auto.
  destruct (max_version st); reflexivity.
Qed.

Lemma render_normalize (st : state) : render (state_norm st) = render st.
Proof.
  rewrite !render_closed. unfold state_norm at 1; cbn [package_names template].
  destruct (py_sort (package_names st)) as [names|]; simpl; auto.
  destruct (template st) as [tpl|]; simpl; auto.
  rewrite getitem_normalize_package.
  destruct tpl as [|?|top|?]; try reflexivity.
  cbn [py_getitem normalize_package].
  destruct (dict_get "Package" top) as [[|?|pkg|?]|] eqn:E;
    try reflexivity.
  cbn [bind normalize_record_of_package].
  destruct (dict_get "types" pkg) as [t|] eqn:Et; [|reflexivity].
  unfold render_into; cbn [max_version types_dict].
  destruct (py_join newline names); simpl; auto.
  destruct (max_version st); simpl; auto.
  destruct (py_sort (key_value <$> elements (dom (types_dict st))))
    as [ordered|]; simpl; auto.
  destruct (traverse (render_type (types_dict st)) ordered); simpl; auto.
  rewrite dict_set_set_eq, rendered_package_types; [reflexivity|].
  unfold dict_mem. now rewrite Et.
Qed.

Lemma merge_normalize (packages : list value) :
  merge (normalize_package <$> packages) = merge packages.
Proof.
  unfold merge.
  change initial_state with (state_norm initial_state) at 1.
  rewrite merge_loop_normalize.
  destruct (merge_loop packages initial_state); simpl; auto.
  apply render_normalize.
Qed.

(** C8.  A package whose [types] is a lone record, or one of whose records
    has a lone string for [members], is merged as the package with the
    one-element sequences in their place: two batches whose packages have,
    one by one, the same normal form give the same result, whichever shape
    each package came in. *)
Theorem either_shape_merges_alike (packages packages' : list value) :
  Forall2 (fun p p' => normalize_package p = normalize_package p')
    packages packages' ->
  merge packages = merge packages'.
Proof.
  intros H.
  rewrite <- (merge_normalize packages), <- (merge_normalize packages').
  f_equal. induction H as [|p p' l l' Hp _ IH]; [reflexivity|].
  rewrite !fmap_cons. now rewrite Hp, IH.
Qed.

Lemma either_shape_merges_alike_witness :
  normalize_package package_a = package_a_sequences
  /\ merge [package_b; package_a] = merge [package_b; package_a_sequences].
Proof.
  split; [reflexivity|].
  apply (either_shape_merges_alike [package_b; package_a]
           [package_b; package_a_sequences]).
  repeat constructor.
Defined.

(** ** The version *)

Lemma process_package_version (st st' : state) (p : value) :
  process_package st p = Ok st' ->
  exists v, package_version p = Ok v
            /\ max_version st' = version_step (max_version st) v.
Proof.
  rewrite process_package_body. unfold package_version, process_body.
  intros H. apply bind_Ok in H as (pkg & -> & H); simpl.
  apply bind_Ok in H as (name & _ & H).
  apply bind_Ok in H as (mv & Hmv & H).
  apply bind_Ok in H as (v & Hv & H).
  apply bind_Ok in H as (td & _ & [= <-]).
  exists v. split; [exact Hv|]. simpl. unfold version_step. do 2 f_equal.
  rewrite Hv in Hmv.
  destruct (max_version st) as [x|]; [destruct (float_truthy x)|]; congruence.
Qed.

Lemma fold_process_version (docs : list value) (st st' : state) :
  fold_result process_package docs st = Ok st' ->
  exists vs, Forall2 (fun p v => package_version p = Ok v) docs vs
             /\ max_version st' = foldl version_step (max_version st) vs.
Proof.
  revert st. induction docs as [|d docs IH]; intros st H; simpl in H.
  - injection H as <-. exists []. split; [constructor | reflexivity].
  - apply bind_Ok in H as (st1 & E & H).
    apply process_package_version in E as (v & Hv & Hm).
    apply IH in H as (vs & Hvs & Hm').
    exists (v :: vs). split; [now constructor|]. simpl. now rewrite <- Hm.
Qed.

Lemma Forall2_functional {A B} (f : A -> result B) (l : list A)
    (l1 l2 : list B) :
  Forall2 (fun a b => f a = Ok b) l l1 ->
  Forall2 (fun a b => f a = Ok b) l l2 -> l1 = l2.
Proof.
  intros H. revert l2. induction H as [|a b l l1 Hab _ IH]; intros l2 H2;
    inversion H2 as [|a' b' l' l2' Hab' H2']; subst; [reflexivity|].
  f_equal; [congruence | now apply IH].
Qed.

Lemma py_max_finite (a b : pyfloat) :
  finite_nonzero a = true -> finite_nonzero b = true ->
  (py_max a b = a \/ py_max a b = b)
  /\ float_units (py_max a b) = Z.max (float_units a) (float_units b).
Proof.
  destruct a as [| |na ka], b as [| |nb kb]; try discriminate. intros _ _.
  unfold py_max, float_gt.
  destruct (float_signed na ka <? float_signed nb kb)%Z eqn:E; simpl.
  - split; [now right|]. apply Z.ltb_lt in E. lia.
  - split; [now left|]. apply Z.ltb_ge in E. lia.
Qed.

Lemma finite_nonzero_truthy (x : pyfloat) :
  finite_nonzero x = true -> float_truthy x = true.
Proof. now destruct x. Qed.

Lemma version_fold_maximum (vs : list pyfloat) (x0 : pyfloat) :
  Forall (fun v => finite_nonzero v = true) (x0 :: vs) ->
  exists x, foldl version_step (Some x0) vs = Some x
            /\ is_maximum x (x0 :: vs).
Proof.
  revert x0. induction vs as [|v vs IH]; intros x0 H.
  - exists x0. split; [reflexivity|]. split; [left|].
    constructor; [lia | constructor].
  - apply Forall_cons in H as [H0 H]. pose proof H as Hv.
    apply Forall_cons in Hv as [Hv _].
    simpl. unfold version_step at 2. rewrite (finite_nonzero_truthy _ H0).
    destruct (py_max_finite x0 v H0 Hv) as [Hor Hmax].
    assert (Hfin : finite_nonzero (py_max x0 v) = true)
      by (destruct Hor as [-> | ->]; assumption).
    destruct (IH (py_max x0 v)) as (x & Hx & Hin & Hle).
    { constructor; [exact Hfin|]. now apply Forall_cons in H as [_ H]. }
    exists x. split; [exact Hx|].
    apply Forall_cons in Hle as [Hle0 Hle]. rewrite Hmax in Hle0.
    split.
    + apply elem_of_cons in Hin as [-> | Hin].
      * destruct Hor as [-> | ->]; [left | right; left].
      * right; now right.
    + constructor; [lia|]. constructor; [lia | exact Hle].
Qed.

(** *** One digit after the point *)

Lemma string_of_uint_digits (u : Decimal.uint) :
  all_digits (NilEmpty.string_of_uint u) = true.
Proof. induction u; simpl; auto. Qed.

Lemma to_uint_not_nil (n : N) : N.to_uint n <> Nil.
Proof.
  destruct n as [|p]; [discriminate|].
  apply DecimalPos.Unsigned.to_uint_nonnil.
Qed.

Lemma string_of_N_digits (n : N) :
  exists c rest, string_of_N n = String c rest
                 /\ is_digit c = true /\ all_digits rest = true.
Proof.
  unfold string_of_N. pose proof (string_of_uint_digits (N.to_uint n)) as H.
  pose proof (to_uint_not_nil n) as Hn.
  destruct (N.to_uint n); try contradiction; simpl in *; eauto.
Qed.

Lemma string_of_N_digit (d : N) :
  (d < 10)%N ->
  exists c, string_of_N d = String c EmptyString /\ is_digit c = true.
Proof.
  intros H.
  assert (Hd : In d [0; 1; 2; 3; 4; 5; 6; 7; 8; 9]%N).
  { simpl. lia. }
  simpl in Hd. repeat destruct Hd as [<- | Hd];
    try (eexists; split; reflexivity). contradiction.
Qed.

Lemma digits_point_digit_app (c d : ascii) (rest : string) :
  is_digit c = true -> all_digits rest = true -> is_digit d = true ->
  digits_point_digit
    (String c rest ++ "." ++ String d EmptyString) = true.
Proof.
  revert c. induction rest as [|c' rest IH]; intros c Hc Hrest Hd; simpl.
  - now rewrite Hc, Hd.
  - rewrite Hc. simpl in Hrest. apply andb_true_iff in Hrest as [Hc' Hrest].
    specialize (IH c' Hc' Hrest Hd). simpl in IH. rewrite IH.
    now rewrite orb_true_r.
Qed.

Lemma format_1f_one_decimal (neg : bool) (k : N) :
  one_decimal (format_1f (FFin neg k)) = true.
Proof.
  unfold format_1f.
  set (n := Z.to_N (round_half_even (10 * Z.of_N k) float_unit)).
  destruct (string_of_N_digits (n / 10)) as (c & rest & -> & Hc & Hrest).
  destruct (string_of_N_digit (n mod 10)) as (d & -> & Hd).
  { apply N.mod_lt. discriminate. }
  pose proof (digits_point_digit_app c d rest Hc Hrest Hd) as H.
  destruct neg; simpl sign_string.
  - exact H.
  - unfold one_decimal. simpl append in *.
    destruct c as [[] [] [] [] [] [] [] []]; try exact H; discriminate.
Qed.

(** C3, as the code has it.  When every package of the batch is valid and
    every version reads as a finite number other than zero, the [version]
    of the result is the greatest of them, compared as numbers, and it is
    written with one digit after the point. *)
Theorem output_version_is_maximum
    (packages : list value) (vs : list pyfloat) (out : value) :
  Forall (fun p => is_invalid p = Ok false) packages ->
  Forall2 (fun p v => package_version p = Ok v) packages vs ->
  Forall (fun v => finite_nonzero v = true) vs ->
  merge packages = Ok out ->
  exists x, is_maximum x vs
            /\ field "version" out = Some (VStr (format_1f x))
            /\ one_decimal (format_1f x) = true.
Proof.
  intros Hvalid Hvs Hfin H. unfold merge in H.
  apply bind_Ok in H as (st & Hloop & H).
  rewrite merge_loop_valid in Hloop by done.
  apply fold_process_version in Hloop as (vs' & Hvs' & Hmax).
  rewrite (Forall2_functional _ _ _ _ Hvs' Hvs) in Hmax. clear vs' Hvs'.
  apply render_Ok in H
    as (top & pkg & names & joined & x & ordered & types
        & Htpl & _ & _ & _ & Hx & _ & _ & ->).
  destruct vs as [|v vs].
  - simpl in Hmax. rewrite Hmax in Hx. discriminate.
  - simpl in Hmax. unfold version_step at 2 in Hmax. simpl in Hmax.
    assert (Hvv : py_max v v = v).
    { unfold py_max. now destruct (float_gt v v). }
    rewrite Hvv in Hmax.
    destruct (version_fold_maximum vs v Hfin) as (m & Hm & Hmaxi).
    rewrite Hm in Hmax. rewrite Hmax in Hx. injection Hx as <-.
    exists m. split; [exact Hmaxi|]. split.
    + now rewrite field_rendered, rendered_version.
    + destruct Hmaxi as [Hin _].
      rewrite Forall_forall in Hfin. specialize (Hfin m Hin).
      destruct m; try discriminate. apply format_1f_one_decimal.
Qed.

Lemma output_version_is_maximum_witness :
  merge [package_versioned "9"; package_versioned "58.0";
         package_versioned "59"] = Ok merged_9_58_59
  /\ exists x,
      is_maximum x [FFin false (9 * 2 ^ 1074); FFin false (58 * 2 ^ 1074);
                    FFin false (59 * 2 ^ 1074)]
      /\ field "version" merged_9_58_59 = Some (VStr (format_1f x))
      /\ one_decimal (format_1f x) = true.
Proof.
  assert (H : merge [package_versioned "9"; package_versioned "58.0";
                     package_versioned "59"] = Ok merged_9_58_59)
    by (vm_compute; reflexivity).
  split; [exact H|].
  apply (output_version_is_maximum
           [package_versioned "9"; package_versioned "58.0";
            package_versioned "59"]).
  - repeat constructor.
  - repeat constructor; vm_compute; reflexivity.
  - repeat constructor.
  - exact H.
Defined.

(** C3, as the claim states it: every batch of valid packages would give
    a version with one digit after the point.  The version [inf] is read by
    [float] and written back as [inf]. *)
Lemma version_inf_not_one_decimal :
  ~ (forall (packages : list value) (out : value),
       Forall (fun p => is_invalid p = Ok false) packages ->
       merge packages = Ok out ->
       exists s, field "version" out = Some (VStr s)
                 /\ one_decimal s = true).
Proof.
  intros H.
  destruct (merge [package_versioned "inf"]) as [out|] eqn:E;
    vm_compute in E; [|discriminate].
  destruct (H [package_versioned "inf"] out) as (s & Hs & Hone).
  - repeat constructor.
  - vm_compute. exact E.
  - injection E as <-. vm_compute in Hs. injection Hs as <-. discriminate.
Qed.

(** The test [not max_version] at line 113 also holds for a maximum of
    zero, which is then replaced by the next version, whatever it is. *)
Lemma zero_version_is_forgotten :
  (out <-- merge [package_versioned "0.0"; package_versioned "-1.0"];
   Ok (field "version" out)) = Ok (Some (VStr "-1.0"))
  /\ (out <-- merge [package_versioned "-1.0"; package_versioned "0.0"];
      Ok (field "version" out)) = Ok (Some (VStr "0.0")).
Proof. split; vm_compute; reflexivity. Qed.

(** ** Rounding *)

Section rounding.
Local Open Scope Z_scope.

Lemma round_half_even_spec (a b : Z) :
  0 < b ->
  2 * Z.abs (a - round_half_even a b * b) <= b
  /\ (2 * Z.abs (a - round_half_even a b * b) = b ->
      Z.even (round_half_even a b) = true).
Proof.
  intros Hb. unfold round_half_even.
  pose proof (Z.div_mod a b ltac:(lia)) as Hdm.
  pose proof (Z.mod_pos_bound a b Hb) as Hr.
  set (q := a / b) in *. set (r := a mod b) in *.
  destruct (Z.compare_spec (2 * r) b) as [E|E|E].
  - destruct (Z.even q) eqn:Ev.
    + split; [lia | auto].
    + split; [lia|]. intros _.
      replace (q + 1) with (Z.succ q) by lia.
      now rewrite Z.even_succ, <- Z.negb_even, Ev.
  - split; lia.
  - split; lia.
Qed.

Lemma round_half_even_nearest (a b c : Z) :
  0 < b ->
  Z.abs (a - round_half_even a b * b) <= Z.abs (a - c * b).
Proof.
  intros Hb. destruct (round_half_even_spec a b Hb) as [H _].
  set (n := round_half_even a b) in *.
  destruct (Z.eq_dec c n) as [->|Hne]; [lia|].
  assert (Hd : (c - n) * b >= b \/ (c - n) * b <= - b) by nia.
  lia.
Qed.

Lemma round_half_even_unique (a b n : Z) :
  0 < b ->
  2 * Z.abs (a - n * b) <= b ->
  (2 * Z.abs (a - n * b) = b -> Z.even n = true) ->
  round_half_even a b = n.
Proof.
  intros Hb Hn Heven. destruct (round_half_even_spec a b Hb) as [H Hev].
  set (m := round_half_even a b) in *.
  destruct (Z.eq_dec m n) as [|Hne]; [assumption|exfalso].
  assert (Hd : (m - n) * b >= b \/ (m - n) * b <= - b) by nia.
  assert (Hm : 2 * Z.abs (a - m * b) = b) by lia.
  assert (Hn' : 2 * Z.abs (a - n * b) = b) by lia.
  apply Hev, Z.even_spec in Hm as [k1 Hk1].
  apply Heven, Z.even_spec in Hn' as [k2 Hk2].
  assert (Hmn : m - n = 1 \/ m - n = -1) by nia.
  lia.
Qed.

Lemma round_half_even_nonneg (a b : Z) :
  0 <= a -> 0 < b -> 0 <= round_half_even a b.
Proof.
  intros Ha Hb. unfold round_half_even.
  pose proof (Z.div_pos a b Ha Hb).
  destruct (2 * (a mod b) ?= b); [destruct (Z.even (a / b))| |]; lia.
Qed.

Lemma round_to_53_bits_exponent (s q : Z) :
  0 <= s -> 0 < q ->
  let j := Z.max 0 (Z.log2 (s / q) - 52) in
  0 <= j /\ s < q * 2 ^ j * 2 ^ 53
  /\ (0 < j -> 2 ^ 52 * (q * 2 ^ j) <= s).
Proof.
  intros Hs Hq j.
  pose proof (Z.div_pos s q Hs Hq) as Ht.
  pose proof (Z.mul_div_le s q Hq) as Hlo.
  pose proof (Z.mul_succ_div_gt s q Hq) as Hhi.
  set (t := s / q) in *.
  assert (Hj : 0 <= j) by (unfold j; lia).
  assert (Hpj : 0 < 2 ^ j) by (apply Z.pow_pos_nonneg; lia).
  split; [exact Hj|]. split.
  - destruct (Z.eq_dec t 0) as [Ht0|Ht0].
    + assert (1 <= 2 ^ j * 2 ^ 53) by nia. nia.
    + destruct (Z.log2_spec t ltac:(lia)) as [_ Hlog].
      assert (Hle : 2 ^ Z.succ (Z.log2 t) <= 2 ^ (j + 53)).
      { apply Z.pow_le_mono_r; unfold j; lia. }
      rewrite Z.pow_add_r in Hle by lia.
      assert (t + 1 <= 2 ^ j * 2 ^ 53) by lia. nia.
  - intros Hj0.
    assert (Hjeq : j = Z.log2 t - 52) by (unfold j in *; lia).
    assert (Ht0 : 0 < t).
    { destruct (Z.eq_dec t 0) as [E|]; [|lia].
      rewrite E in Hjeq. simpl in Hjeq. lia. }
    destruct (Z.log2_spec t Ht0) as [Hlog _].
    replace (Z.log2 t) with (52 + j) in Hlog by lia.
    rewrite Z.pow_add_r in Hlog by lia. nia.
Qed.

Lemma round_to_53_bits_representable (s q : Z) :
  0 <= s -> 0 < q -> representable (round_to_53_bits s q).
Proof.
  intros Hs Hq. unfold round_to_53_bits.
  destruct (round_to_53_bits_exponent s q Hs Hq) as (Hj & Hhi & _).
  set (j := Z.max 0 (Z.log2 (s / q) - 52)) in *.
  assert (Hpj : 0 < 2 ^ j) by (apply Z.pow_pos_nonneg; lia).
  assert (HB : 0 < q * 2 ^ j) by nia.
  pose proof (round_half_even_nonneg s (q * 2 ^ j) Hs HB) as Hm0.
  assert (Hm : round_half_even s (q * 2 ^ j) <= 2 ^ 53).
  { assert (Hdiv : s / (q * 2 ^ j) < 2 ^ 53)
      by (apply Z.div_lt_upper_bound; lia).
    unfold round_half_even.
    destruct (2 * (s mod (q * 2 ^ j)) ?= q * 2 ^ j);
      [destruct (Z.even (s / (q * 2 ^ j)))| |]; lia. }
  set (m := round_half_even s (q * 2 ^ j)) in *.
  destruct (Z.eq_dec m (2 ^ 53)) as [E|E].
  - exists (2 ^ 52), (j + 1). repeat split; try lia.
    rewrite E, Z.pow_add_r by lia. lia.
  - exists m, j. repeat split; lia.
Qed.

Lemma round_to_53_bits_nearest (s q k' : Z) :
  0 <= s -> 0 < q -> representable k' ->
  Z.abs (s - round_to_53_bits s q * q) <= Z.abs (s - k' * q).
Proof.
  intros Hs Hq (m' & j' & Hj' & Hm' & ->). unfold round_to_53_bits.
  destruct (round_to_53_bits_exponent s q Hs Hq) as (Hj & _ & Hlo).
  set (j := Z.max 0 (Z.log2 (s / q) - 52)) in *.
  assert (Hpj : 0 < 2 ^ j) by (apply Z.pow_pos_nonneg; lia).
  assert (HB : 0 < q * 2 ^ j) by nia.
  set (B := q * 2 ^ j) in *.
  replace (round_half_even s B * 2 ^ j * q)
    with (round_half_even s B * B) by (unfold B; ring).
  destruct (Z_le_gt_dec j j') as [Hle|Hgt].
  - replace (m' * 2 ^ j' * q) with (m' * 2 ^ (j' - j) * B).
    + apply round_half_even_nearest; exact HB.
    + unfold B. replace j' with ((j' - j) + j) at 2 by lia.
      rewrite Z.pow_add_r by lia. ring.
  - specialize (Hlo ltac:(lia)).
    pose proof (round_half_even_nearest s B (2 ^ 52) HB) as Hnear.
    assert (Hpj' : 0 < 2 ^ j') by (apply Z.pow_pos_nonneg; lia).
    assert (Hpow : 2 * 2 ^ j' <= 2 ^ j).
    { replace j with ((j - j' - 1) + 1 + j') by lia.
      rewrite !Z.pow_add_r by lia.
      assert (0 < 2 ^ (j - j' - 1)) by (apply Z.pow_pos_nonneg; lia).
      nia. }
    assert (Hk : m' * 2 ^ j' * q < 2 ^ 52 * B).
    { unfold B.
      assert (m' * 2 ^ j' < 2 ^ 52 * 2 ^ j) by nia. nia. }
    lia.
Qed.

Lemma representable_below_overflow (k : Z) :
  representable k -> k < 2 ^ 2098 -> k + 2 ^ 2045 <= 2 ^ 2098.
Proof.
  intros (m & j & Hj & Hm & ->) Hlt.
  assert (E : 2 ^ 2098 = 2 ^ 53 * 2 ^ 2045)
    by (rewrite <- Z.pow_add_r by lia; reflexivity).
  assert (HP : 0 < 2 ^ 2045) by (apply Z.pow_pos_nonneg; lia).
  assert (Hpj : 0 < 2 ^ j) by (apply Z.pow_pos_nonneg; lia).
  destruct (Z_le_gt_dec j 2045) as [Hle|Hgt].
  - assert (Hpow : 2 ^ j <= 2 ^ 2045) by (apply Z.pow_le_mono_r; lia).
    rewrite E in *. set (P := 2 ^ 2045) in *. clearbody P. nia.
  - assert (Hpow : 2 ^ 2045 <= 2 ^ j) by (apply Z.pow_le_mono_r; lia).
    destruct (Z_le_gt_dec j 2098) as [Hle'|Hgt'].
    + assert (E' : 2 ^ 2098 = 2 ^ (2098 - j) * 2 ^ j).
      { rewrite <- Z.pow_add_r by lia. f_equal. lia. }
      assert (0 < 2 ^ (2098 - j)) by (apply Z.pow_pos_nonneg; lia).
      rewrite E' in *. set (P := 2 ^ 2045) in *. clearbody P. nia.
    + assert (Hbig : 2 ^ 2098 <= 2 ^ j) by (apply Z.pow_le_mono_r; lia).
      set (P := 2 ^ 2045) in *. set (V := 2 ^ 2098) in *. clearbody P V.
      assert (m = 0) by nia. subst m. lia.
Qed.

(** Writing a float with one decimal and reading that back gives a float
    that is written the same way. *)
Lemma one_decimal_round_trip (k : Z) :
  representable k -> 0 <= k < float_overflow ->
  let n := round_half_even (10 * k) float_unit in
  let k' := round_to_53_bits (n * float_unit) 10 in
  0 <= k' < float_overflow /\ round_half_even (10 * k') float_unit = n.
Proof.
  intros Hrep [Hk0 Hk] n k'.
  assert (HU : 0 < float_unit) by (apply Z.pow_pos_nonneg; lia).
  assert (HUP : float_unit <= 2 ^ 2045)
    by (apply Z.pow_le_mono_r; lia).
  pose proof (representable_below_overflow k Hrep Hk) as Hroom.
  destruct (round_half_even_spec (10 * k) float_unit HU) as [Hn Heven].
  fold n in Hn, Heven.
  assert (Hn0 : 0 <= n) by (apply round_half_even_nonneg; lia).
  pose proof (round_to_53_bits_nearest (n * float_unit) 10 k
                ltac:(nia) ltac:(lia) Hrep) as Hnear.
  fold k' in Hnear.
  assert (Hk'0 : 0 <= k').
  { unfold k', round_to_53_bits.
    set (j := Z.max 0 (Z.log2 (n * float_unit / 10) - 52)).
    assert (0 < 2 ^ j) by (apply Z.pow_pos_nonneg; lia).
    assert (0 <= round_half_even (n * float_unit) (10 * 2 ^ j))
      by (apply round_half_even_nonneg; nia).
    nia. }
  unfold float_overflow in *.
  set (U := float_unit) in *. set (P := 2 ^ 2045) in *.
  set (V := 2 ^ 2098) in *. clearbody U P V k' n.
  split; [lia|].
  apply round_half_even_unique; [exact HU | lia |].
  intros Htie. apply Heven. lia.
Qed.

End rounding.

(** ** Reading back a version written by [merge] *)

Lemma rstrip_end (s : string) (d : ascii) :
  is_space d = false ->
  rstrip (s ++ String d EmptyString) = (s ++ String d EmptyString)%string.
Proof.
  intros Hd. induction s as [|c s IH]; simpl.
  - now rewrite Hd.
  - rewrite IH. now destruct s.
Qed.

Lemma strip_clean (c d : ascii) (s : string) :
  is_space c = false -> is_space d = false ->
  strip (String c s ++ String d EmptyString)
  = (String c s ++ String d EmptyString)%string.
Proof.
  intros Hc Hd. unfold strip.
  replace (lstrip (String c s ++ String d EmptyString))
    with (String c s ++ String d EmptyString)%string
    by (simpl; now rewrite Hc).
  now apply rstrip_end.
Qed.

Lemma drop_underscores_none (prev : ascii) (s : string) :
  Ascii.eqb prev "_" = false -> no_underscore s = true ->
  drop_underscores prev s = Some s.
Proof.
  revert prev. induction s as [|c s IH]; intros prev Hp Hs; simpl.
  - now rewrite Hp.
  - simpl in Hs. apply andb_true_iff in Hs as [Hc Hs].
    apply negb_true_iff in Hc. rewrite Hc, Hp. simpl.
    now rewrite IH.
Qed.

Lemma no_underscore_app (s1 s2 : string) :
  no_underscore (s1 ++ s2) = no_underscore s1 && no_underscore s2.
Proof.
  induction s1 as [|c s1 IH]; simpl; [reflexivity|].
  now rewrite IH, andb_assoc.
Qed.

Lemma is_digit_facts (c : ascii) :
  is_digit c = true ->
  Ascii.eqb c "_" = false /\ is_space c = false.
Proof.
  destruct c as [[] [] [] [] [] [] [] []]; try discriminate; auto.
Qed.

Lemma all_digits_no_underscore (s : string) :
  all_digits s = true -> no_underscore s = true.
Proof.
  induction s as [|c s IH]; simpl; [reflexivity|].
  intros [Hc Hs]%andb_true_iff.
  destruct (is_digit_facts c Hc) as [-> _]. simpl. auto.
Qed.

Lemma take_digits_uint (u : Decimal.uint) (rest : string) :
  take_digits rest = (Nil, rest) ->
  take_digits (NilEmpty.string_of_uint u ++ rest) = (u, rest).
Proof.
  intros Hrest. induction u; simpl; rewrite ?IHu; auto.
Qed.

Lemma append_empty_r (s : string) : (s ++ "")%string = s.
Proof. induction s as [|c s IH]; simpl; [reflexivity | now rewrite IH]. Qed.

Lemma take_digits_point (rest : string) :
  take_digits (String "." rest) = (Nil, String "." rest).
Proof. simpl. now destruct (take_digits rest). Qed.

Lemma ndigits_digit (d : N) : (d < 10)%N -> ndigits (N.to_uint d) = 1%nat.
Proof.
  intros H.
  assert (Hd : In d [0; 1; 2; 3; 4; 5; 6; 7; 8; 9]%N) by (simpl; lia).
  simpl in Hd. repeat destruct Hd as [<- | Hd]; try reflexivity.
  contradiction.
Qed.

Lemma parse_number_one_decimal (i d : N) :
  (d < 10)%N ->
  parse_number (string_of_N i ++ "." ++ string_of_N d)
  = Some ((i * 10 + d)%N, (-1)%Z).
Proof.
  intros Hd. unfold parse_number, string_of_N.
  rewrite take_digits_uint by apply take_digits_point.
  change ("." ++ NilEmpty.string_of_uint (N.to_uint d))%string
    with (String "." (NilEmpty.string_of_uint (N.to_uint d))).
  cbv iota beta.
  rewrite <- (append_empty_r (NilEmpty.string_of_uint (N.to_uint d))).
  rewrite take_digits_uint by reflexivity.
  pose proof (to_uint_not_nil i) as Hi.
  destruct (N.to_uint i) eqn:Ei; try contradiction;
    cbn [is_nil andb parse_exponent mbind option_bind];
    rewrite <- Ei, !DecimalN.Unsigned.of_to, (ndigits_digit d Hd);
    reflexivity.
Qed.

Lemma append_assoc (a b c : string) :
  ((a ++ b) ++ c)%string = (a ++ (b ++ c))%string.
Proof. induction a as [|x a IH]; simpl; [reflexivity | now rewrite IH]. Qed.

Lemma parse_literal_digits (neg : bool) (c : ascii) (rest : string) :
  is_digit c = true ->
  parse_literal (sign_string neg ++ String c rest)
  = match parse_number (String c rest) with
    | Some (mant, exp10) => Ok (binary64_of_decimal neg mant exp10)
    | None => Raise ValueError
    end.
Proof.
  intros Hc. unfold parse_literal.
  destruct neg, c as [[] [] [] [] [] [] [] []]; try discriminate Hc;
    reflexivity.
Qed.

Lemma float_of_string_format (neg : bool) (k : N) :
  float_of_string (format_1f (FFin neg k))
  = Ok (binary64_of_decimal neg
          (Z.to_N (round_half_even (10 * Z.of_N k) float_unit)) (-1)).
Proof.
  unfold format_1f.
  set (n := Z.to_N (round_half_even (10 * Z.of_N k) float_unit)).
  assert (Hd : (n mod 10 < 10)%N) by (apply N.mod_lt; discriminate).
  pose proof (parse_number_one_decimal (n / 10) (n mod 10) Hd) as Hparse.
  replace (n / 10 * 10 + n mod 10)%N with n in Hparse
    by (rewrite (N.div_mod n 10) at 1; [lia | discriminate]).
  destruct (string_of_N_digits (n / 10)) as (c & rest & Ei & Hc & Hrest).
  destruct (string_of_N_digit (n mod 10) Hd) as (d & Ed & Hdd).
  rewrite Ei, Ed in *.
  destruct (is_digit_facts c Hc) as [Hcu Hcs].
  destruct (is_digit_facts d Hdd) as [Hdu Hds].
  set (body := (String c rest ++ "." ++ String d "")%string) in *.
  assert (Hbody : body = (String c (rest ++ ".") ++ String d "")%string).
  { unfold body. simpl. now rewrite append_assoc. }
  assert (Hnu : no_underscore body = true).
  { unfold body. simpl. rewrite Hcu, no_underscore_app. simpl.
    now rewrite (all_digits_no_underscore _ Hrest), Hdu. }
  unfold float_of_string.
  assert (Hstrip : strip (sign_string neg ++ body)
                   = (sign_string neg ++ body)%string).
  { destruct neg; simpl sign_string.
    - rewrite Hbody.
      change ("-" ++ String c (rest ++ ".") ++ String d "")%string
        with (String "-" (String c (rest ++ ".")) ++ String d "")%string.
      now apply strip_clean.
    - change ("" ++ body)%string with body. rewrite Hbody.
      now apply strip_clean. }
  rewrite Hstrip.
  rewrite drop_underscores_none.
  - assert (Hb : body = String c (rest ++ "." ++ String d "")%string)
      by reflexivity.
    rewrite Hb, parse_literal_digits by exact Hc.
    now rewrite <- Hb, Hparse.
  - reflexivity.
  - destruct neg; simpl; exact Hnu.
Qed.

Lemma binary64_of_ratio_ok (neg : bool) (p q : Z) :
  (0 < p)%Z -> (0 < q)%Z -> float_ok (binary64_of_ratio neg p q).
Proof.
  intros Hp Hq. unfold binary64_of_ratio.
  assert (HU : (0 < float_unit)%Z) by (apply Z.pow_pos_nonneg; lia).
  pose proof (round_to_53_bits_representable (p * float_unit) q
                ltac:(nia) Hq) as Hrep.
  set (k := round_to_53_bits (p * float_unit) q) in *.
  destruct (float_overflow <=? k)%Z eqn:E; simpl; [exact I|].
  apply Z.leb_gt in E.
  assert (Hk : (0 <= k)%Z).
  { destruct Hrep as (m & j & Hj & Hm & ->).
    assert (0 < 2 ^ j)%Z by (apply Z.pow_pos_nonneg; lia). nia. }
  rewrite Z2N.id by exact Hk. auto.
Qed.

Lemma float_zero_ok (neg : bool) : float_ok (FFin neg 0).
Proof.
  split.
  - exists 0%Z, 0%Z. repeat split; lia.
  - apply Z.pow_pos_nonneg; lia.
Qed.

Lemma binary64_of_decimal_ok (neg : bool) (mant : N) (exp10 : Z) :
  float_ok (binary64_of_decimal neg mant exp10).
Proof.
  unfold binary64_of_decimal.
  destruct (mant =? 0)%N eqn:E; [apply float_zero_ok|].
  apply N.eqb_neq in E.
  destruct (0 <=? exp10)%Z eqn:Ee.
  - apply binary64_of_ratio_ok; [|lia].
    apply Z.leb_le in Ee.
    assert (0 < 10 ^ exp10)%Z by (apply Z.pow_pos_nonneg; lia). nia.
  - apply binary64_of_ratio_ok; [lia|].
    apply Z.leb_gt in Ee. apply Z.pow_pos_nonneg; lia.
Qed.

Lemma float_of_string_ok (s : string) (x : pyfloat) :
  float_of_string s = Ok x -> float_ok x.
Proof.
  unfold float_of_string, parse_literal.
  destruct (drop_underscores "000" (strip s)) as [s1|]; [|discriminate].
  destruct (parse_sign s1) as [neg s2].
  destruct (String.eqb (lower s2) "nan"); [now intros [= <-]|].
  destruct (String.eqb (lower s2) "inf" || String.eqb (lower s2) "infinity");
    [now intros [= <-]|].
  destruct (parse_number s2) as [[mant exp10]|]; [|discriminate].
  intros [= <-]. apply binary64_of_decimal_ok.
Qed.

(** A float that [float] returned, written with [.1f] and read back, is
    written again as before. *)
Lemma format_float_round_trip (x : pyfloat) :
  float_ok x ->
  exists y, float_of_string (format_1f x) = Ok y
            /\ float_ok y
            /\ format_1f y = format_1f x.
Proof.
  destruct x as [|neg|neg k]; intros Hok.
  - exists FNan. repeat split.
  - exists (FInf neg). destruct neg; repeat split.
  - destruct Hok as [Hrep Hlt].
    rewrite float_of_string_format.
    eexists. split; [reflexivity|]. split; [apply binary64_of_decimal_ok|].
    destruct (one_decimal_round_trip (Z.of_N k) Hrep ltac:(lia))
      as [[Hk0 Hk'] Hround].
    assert (HU : (0 < float_unit)%Z) by (apply Z.pow_pos_nonneg; lia).
    pose proof (round_half_even_nonneg (10 * Z.of_N k) float_unit
                  ltac:(lia) HU) as Hn0.
    set (n := round_half_even (10 * Z.of_N k) float_unit) in *.
    unfold binary64_of_decimal.
    destruct (Z.to_N n =? 0)%N eqn:E.
    + apply N.eqb_eq in E. assert (n = 0%Z) as Hn by lia.
      unfold format_1f. fold n. rewrite Hn. reflexivity.
    + change (0 <=? -1)%Z with false. cbv iota.
      change (10 ^ (- -1))%Z with 10%Z.
      unfold binary64_of_ratio. rewrite Z2N.id by exact Hn0.
      set (k' := round_to_53_bits (n * float_unit) 10) in *.
      destruct (float_overflow <=? k')%Z eqn:Eo;
        [apply Z.leb_le in Eo; lia|].
      unfold format_1f. rewrite Z2N.id by exact Hk0.
      now rewrite Hround.
Qed.

(** ** Merging the result of a merge *)

Lemma traverse_py_hash_keys (ms : list key) :
  traverse py_hash (key_value <$> ms) = Ok ms.
Proof.
  induction ms as [|m ms IH]; [reflexivity|].
  rewrite fmap_cons. simpl. rewrite py_hash_key_value. simpl.
  now rewrite IH.
Qed.

Lemma type_entry_rendered td (k : key) (r : value) :
  rendered_type td k r ->
  exists e, type_entry r = Ok e /\ entry_of td k e.
Proof.
  intros (s & ms & Hs & _ & Hp & ->).
  exists (k, ms). split.
  - unfold type_entry, type_record. simpl.
    rewrite py_hash_key_value. simpl. now rewrite traverse_py_hash_keys.
  - split; [reflexivity|]. eauto.
Qed.

Lemma traverse_type_entry_rendered td (ks : list key) (types : list value) :
  Forall2 (rendered_type td) ks types ->
  exists es, traverse type_entry types = Ok es
             /\ Forall2 (entry_of td) ks es.
Proof.
  induction 1 as [|k r ks types Hr _ (es & Hes & IH)].
  - exists []. split; [reflexivity | constructor].
  - destruct (type_entry_rendered _ _ _ Hr) as (e & He & Hof).
    exists (e :: es). split; [|now constructor].
    simpl. now rewrite He, Hes.
Qed.

Lemma rebuild_types_dict td (ks : list key) (es : list (key * list key)) :
  ks ≡ₚ elements (dom td) ->
  Forall2 (entry_of td) ks es ->
  foldl add_entry ∅ es = td.
Proof.
  intros Hp Hes. apply map_eq. intros T.
  rewrite lookup_add_entries, lookup_empty.
  assert (Hfst : es.*1 = ks).
  { clear Hp. induction Hes as [|k e ks es [He _] _ IH]; [reflexivity|].
    rewrite fmap_cons. now rewrite He, IH. }
  rewrite Hfst.
  destruct (decide (T ∈ ks)) as [Hin|Hnin].
  - assert (HT : T ∈ dom td) by (apply elem_of_elements; now rewrite <- Hp).
    apply elem_of_dom in HT as [s Hs]. rewrite Hs. f_equal.
    apply set_eq. intros m. rewrite elem_of_union, elem_of_entry_set.
    split.
    + intros [Hm|(ms & Hms & Hm)]; [now apply not_elem_of_empty in Hm|].
      apply list_elem_of_lookup in Hms as (i & Hi).
      destruct (Forall2_lookup_r _ _ _ _ _ Hes Hi)
        as (k & _ & [Hk (s' & Hs' & Hperm)]).
      simpl in Hk, Hperm. subst k. rewrite Hs in Hs'. injection Hs' as <-.
      apply elem_of_elements. now rewrite <- Hperm.
    + intros Hm. right.
      apply list_elem_of_lookup in Hin as (i & Hi).
      destruct (Forall2_lookup_l _ _ _ _ _ Hes Hi)
        as ([k ms] & Hi' & [Hk (s' & Hs' & Hperm)]).
      simpl in Hk, Hperm. subst k. rewrite Hs in Hs'. injection Hs' as <-.
      exists ms. split; [now apply list_elem_of_lookup_2 in Hi'|].
      rewrite Hperm. now apply elem_of_elements.
  - symmetry. apply not_elem_of_dom. intros HT. apply Hnin.
    rewrite Hp. now apply elem_of_elements.
Qed.

Lemma read_types_rendered (st : state) pkg joined x types ks :
  ks ≡ₚ elements (dom (types_dict st)) ->
  Forall2 (rendered_type (types_dict st)) ks types ->
  read_types ∅ (VDict (rendered_package pkg joined x types))
  = Ok (types_dict st).
Proof.
  intros Hp Htypes. unfold read_types, py_getitem.
  rewrite rendered_types; simpl. rewrite fold_add_type.
  destruct (traverse_type_entry_rendered _ _ _ Htypes) as (es & -> & Hes).
  simpl. f_equal. now apply rebuild_types_dict with (ks := ks).
Qed.

Lemma rendered_package_again pkg joined joined' (x y : pyfloat) types :
  format_1f y = format_1f x ->
  rendered_package (rendered_package pkg joined x types) joined' y types
  = dict_set "description" (VStr (description_header ++ joined'))
      (rendered_package pkg joined x types).
Proof.
  intros Hxy. set (R := rendered_package pkg joined x types).
  unfold rendered_package at 1. fold R.
  rewrite (dict_set_same "fullName" _ R) by apply rendered_fullName.
  rewrite (dict_set_comm "description" "version")
    by (discriminate || (unfold dict_mem, R;
                         now rewrite rendered_description)).
  rewrite (dict_set_same "version" _ R)
    by (rewrite Hxy; apply rendered_version).
  rewrite (dict_set_comm "description" "types")
    by (discriminate || (unfold dict_mem, R;
                         now rewrite rendered_description)).
  now rewrite (dict_set_same "types" _ R) by apply rendered_types.
Qed.

Lemma package_version_ok (p : value) (v : pyfloat) :
  package_version p = Ok v -> float_ok v.
Proof.
  unfold package_version, read_version. intros H.
  apply bind_Ok in H as (pkg & _ & H).
  apply bind_Ok in H as (ver & _ & H).
  destruct ver; try discriminate. now apply float_of_string_ok in H.
Qed.

Lemma version_step_ok (cur : option pyfloat) (v x : pyfloat) :
  (forall c, cur = Some c -> float_ok c) -> float_ok v ->
  version_step cur v = Some x -> float_ok x.
Proof.
  intros Hcur Hv [= <-]. unfold py_max.
  destruct cur as [c|]; [destruct (float_truthy c)|];
    match goal with |- context [float_gt ?a ?b] => destruct (float_gt a b) end;
    auto.
Qed.

Lemma fold_process_version_ok (docs : list value) (st st' : state) :
  fold_result process_package docs st = Ok st' ->
  (forall c, max_version st = Some c -> float_ok c) ->
  forall x, max_version st' = Some x -> float_ok x.
Proof.
  revert st. induction docs as [|d docs IH]; intros st H Hst; simpl in H.
  - now injection H as <-.
  - apply bind_Ok in H as (st1 & E & H).
    apply (IH st1 H). intros c Hc.
    apply process_package_version in E as (v & Hv & Hm).
    rewrite Hm in Hc.
    eapply version_step_ok; [exact Hst | | exact Hc].
    now apply package_version_ok in Hv.
Qed.

(** C6, as the code has it.  Merging the document that [merge] returned,
    alone in a batch, returns that document with one change: its
    [description] now names [Merged_Package] as the only source.  The
    name, the version, the types and their members, and every other field
    are as they were. *)
Theorem merge_of_output (packages : list value) (out : value) :
  merge packages = Ok out ->
  exists top pkg,
    out = VDict top
    /\ dict_get "Package" top = Some (VDict pkg)
    /\ merge [out]
       = Ok (VDict
               (dict_set "Package"
                  (VDict
                     (dict_set "description"
                        (VStr ("This package.xml was created by merging the following packages:"
                               ++ newline ++ "Merged_Package"))
                        pkg))
                  top)).
Proof.
  intros H. apply merge_Ok in H as (st & Hst & H).
  pose proof (fold_process_version_ok _ _ _ Hst) as Hok.
  pose proof (render_types _ _ H) as (ks & types' & Hp & Hsort & Htypes & Hf).
  apply render_Ok in H
    as (top0 & pkg0 & names & joined & x & ordered & types
        & Htpl & Htop0 & _ & _ & Hx & Hord & Htrav & ->).
  rewrite field_rendered, rendered_types in Hf. injection Hf as <-.
  specialize (Hok ltac:(discriminate) x Hx).
  destruct (format_float_round_trip x Hok) as (y & Hy & _ & Hfmt).
  set (R := rendered_package pkg0 joined x types) in *.
  exists (dict_set "Package" (VDict R) top0), R.
  split; [reflexivity|]. split; [apply dict_get_set_eq|].
  set (out := VDict (dict_set "Package" (VDict R) top0)).
  assert (Hget : py_getitem out "Package" = Ok (VDict R)).
  { unfold out, py_getitem. now rewrite dict_get_set_eq. }
  assert (Hvalid : is_invalid out = Ok false).
  { unfold is_invalid. unfold out at 1, py_in, dict_mem.
    rewrite dict_get_set_eq. cbn [negb bind]. rewrite Hget.
    cbn [negb bind]. unfold R. now rewrite rendered_version, rendered_types. }
  assert (Hproc : process_package initial_state out
                  = Ok {| types_dict := types_dict st;
                          package_names := [VStr "Merged_Package"];
                          max_version := Some y;
                          template := Some out |}).
  { assert (Hfn : py_getitem (VDict R) "fullName"
                  = Ok (VStr "Merged_Package")).
    { unfold py_getitem, R. now rewrite rendered_fullName. }
    assert (Hrv : read_version (VDict R) = Ok y).
    { unfold read_version, py_getitem, R. now rewrite rendered_version. }
    rewrite process_package_body, Hget. cbn [bind].
    unfold process_body. rewrite Hfn, Hrv.
    unfold R. rewrite (read_types_rendered st _ _ _ _ ks Hp Htypes).
    cbn. do 3 f_equal. unfold py_max. now destruct (float_gt y y). }
  unfold merge, merge_loop. rewrite Hvalid. cbn [bind]. rewrite Hproc.
  cbn [bind]. rewrite render_closed.
  cbn [package_names template py_sort bind]. rewrite Hget. cbn [bind].
  unfold render_into. cbn [max_version types_dict].
  change (py_join newline [VStr "Merged_Package"]) with (Ok "Merged_Package").
  cbn [bind]. rewrite Hord. cbn [bind]. rewrite Htrav.
  cbn [bind]. unfold py_setitem, out. rewrite !dict_set_set_eq.
  unfold R. now rewrite (rendered_package_again _ _ _ x y _ Hfmt).
Qed.

Lemma merge_of_output_witness :
  merge [package_a; package_b] = Ok merged_a_b
  /\ exists top pkg,
      merged_a_b = VDict top
      /\ dict_get "Package" top = Some (VDict pkg)
      /\ merge [merged_a_b]
         = Ok (VDict
                 (dict_set "Package"
                    (VDict
                       (dict_set "description"
                          (VStr ("This package.xml was created by merging the following packages:"
                                 ++ newline ++ "Merged_Package"))
                          pkg))
                    top)).
Proof.
  assert (H : merge [package_a; package_b] = Ok merged_a_b)
    by (vm_compute; reflexivity).
  split; [exact H|]. exact (merge_of_output _ _ H).
Defined.

(** C6, as the claim states it: merging the result again would give the
    result back.  The description differs: it lists the sources, and the
    only source of the second merge is the first result. *)
Lemma merge_of_output_differs :
  ~ (forall (packages : list value) (out : value),
       merge packages = Ok out -> merge [out] = Ok out).
Proof.
  intros H.
  assert (H1 : merge [package_a; package_b] = Ok merged_a_b)
    by (vm_compute; reflexivity).
  apply H in H1. vm_compute in H1. discriminate.
Qed.

(** ** The order of the packages *)

(** C7.  The claim asks for the same types whatever the order of the
    batch.  With an invalid package in the batch the order decides which
    packages are read at all: placed second it hides [package_b], placed
    last it hides nothing. *)
Theorem permuted_batch_changes_types :
  [package_a; package_no_version; package_b]
  ≡ₚ [package_a; package_b; package_no_version]
  /\ (out <-- merge [package_a; package_no_version; package_b];
      Ok (field "types" out))
     = Ok (Some (VList [type_record (VStr "ApexClass") (VList [VStr "Foo"])]))
  /\ (out <-- merge [package_a; package_b; package_no_version];
      Ok (field "types" out))
     = Ok (Some (VList
                   [type_record (VStr "ApexClass")
                      (VList [VStr "Bar"; VStr "Foo"]);
                    type_record (VStr "Layout") (VList [VStr "X"])])).
Proof.
  split; [apply perm_skip, perm_swap|].
  split; vm_compute; reflexivity.
Qed.

(** Without invalid packages the order does not matter for the types and
    the description; the lemmas below lead to that. *)

Lemma read_types_entries td (pkg : value) :
  read_types td pkg
  = (es <-- package_entries_of pkg; Ok (foldl add_entry td es)).
Proof.
  unfold read_types, package_entries_of.
  destruct (py_getitem pkg "types") as [t|]; simpl; auto.
  destruct (py_iter (wrap_dict t)) as [items|]; simpl; auto.
  apply fold_add_type.
Qed.

Lemma process_package_Ok_any (st st1 st2 : state) (p : value) :
  process_package st p = Ok st1 ->
  exists st3, process_package st2 p = Ok st3.
Proof.
  rewrite !process_package_body. intros H.
  apply bind_Ok in H as (pkg & -> & H). cbn [bind].
  unfold process_body in *. rewrite !read_types_entries in *.
  apply bind_Ok in H as (name & -> & H).
  apply bind_Ok in H as (mv & _ & H).
  apply bind_Ok in H as (v & -> & H).
  apply bind_Ok in H as (td & Htd & _).
  apply bind_Ok in Htd as (es & -> & _).
  cbn [bind].
  destruct (max_version st2) as [x|]; [destruct (float_truthy x)|];
    cbn [bind]; eauto.
Qed.

Lemma fold_process_Ok_each (docs : list value) (st st' : state) :
  fold_result process_package docs st = Ok st' ->
  Forall (fun p => exists s s', process_package s p = Ok s') docs.
Proof.
  revert st. induction docs as [|d docs IH]; intros st H; constructor.
  - simpl in H. apply bind_Ok in H as (st1 & E & _). eauto.
  - simpl in H. apply bind_Ok in H as (st1 & _ & H). eauto.
Qed.

Lemma fold_process_Ok_all (docs : list value) (st : state) :
  Forall (fun p => exists s s', process_package s p = Ok s') docs ->
  exists st', fold_result process_package docs st = Ok st'.
Proof.
  intros H. revert st.
  induction H as [|d docs (s & s' & Hd) _ IH]; intros st; simpl.
  - eauto.
  - destruct (process_package_Ok_any _ _ st _ Hd) as (st1 & ->). simpl.
    apply IH.
Qed.

Lemma add_entries_ext (l l' : list (key * list key)) :
  (forall e, e ∈ l <-> e ∈ l') ->
  foldl add_entry ∅ l = foldl add_entry ∅ l'.
Proof.
  intros Hext. apply map_eq. intros T. rewrite !lookup_add_entries.
  assert (Hfst : T ∈ l.*1 <-> T ∈ l'.*1).
  { rewrite !list_elem_of_fmap. split; intros (e & -> & He); exists e;
      (split; [reflexivity | now apply Hext]). }
  assert (Hset : entry_set T l = entry_set T l').
  { apply set_eq. intros m. rewrite !elem_of_entry_set.
    split; intros (ks & Hks & Hm); exists ks; (split; [now apply Hext|done]). }
  rewrite Hset.
  destruct (decide (T ∈ l.*1)), (decide (T ∈ l'.*1)); tauto.
Qed.

Lemma elem_of_concat_entries (docs : list value) ess (e : key * list key) :
  Forall2 (fun d es => package_entries d = Ok es) docs ess ->
  e ∈ concat ess
  <-> exists d es, d ∈ docs /\ package_entries d = Ok es /\ e ∈ es.
Proof.
  induction 1 as [|d es docs ess Hd _ IH]; simpl.
  - split; [intros H; now apply elem_of_nil in H|].
    intros (d & es & Hin & _). now apply elem_of_nil in Hin.
  - rewrite elem_of_app, IH. split.
    + intros [He|(d' & es' & Hin & Hes & He)].
      * exists d, es. split; [left|]. auto.
      * exists d', es'. split; [now right|]. auto.
    + intros (d' & es' & [->|Hin]%elem_of_cons & Hes & He).
      * left. congruence.
      * right. eauto.
Qed.

Lemma py_sort_perm (l l' : list value) : l ≡ₚ l' -> py_sort l = py_sort l'.
Proof.
  intros Hp. pose proof (Permutation_length Hp) as Hlen.
  destruct l as [|x [|y l]].
  - apply Permutation_nil_l in Hp as <-. reflexivity.
  - apply Permutation_singleton_l in Hp as <-. reflexivity.
  - destruct l' as [|x' [|y' l']]; try discriminate Hlen.
    unfold py_sort.
    destruct (mapM as_str (x :: y :: l)) as [ss|] eqn:E.
    + apply mapM_as_str in E. rewrite E in Hp. symmetry in Hp.
      apply Permutation_map_inv in Hp as (ss' & E' & Hp).
      rewrite (proj2 (mapM_as_str _ ss') E').
      now rewrite (merge_sort_perm _ _ Hp).
    + destruct (mapM as_str (x' :: y' :: l')) as [ss'|] eqn:E';
        [|reflexivity].
      apply mapM_as_str in E'. rewrite E' in Hp.
      apply Permutation_map_inv in Hp as (ss & Ess & _).
      apply mapM_as_str in Ess. congruence.
Qed.

Lemma process_package_template (st st' : state) (p : value) :
  process_package st p = Ok st' ->
  exists t, template st' = Some t
            /\ (template st = Some t
                \/ exists top pkg, t = VDict top
                                   /\ dict_get "Package" top = Some (VDict pkg)).
Proof.
  rewrite process_package_body. intros H.
  apply bind_Ok in H as (pkg & Hpkg & H). unfold process_body in H.
  apply bind_Ok in H as (name & Hname & H).
  apply bind_Ok in H as (mv & _ & H).
  apply bind_Ok in H as (v & _ & H).
  apply bind_Ok in H as (td & _ & [= <-]). simpl.
  assert (Hp : exists top d, p = VDict top
                             /\ dict_get "Package" top = Some (VDict d)).
  { destruct p as [|?|top|?]; try discriminate. simpl in Hpkg.
    destruct (dict_get "Package" top) as [x|] eqn:Etop; [|discriminate].
    injection Hpkg as ->. destruct pkg; try discriminate. eauto. }
  destruct (template st) as [t|]; [destruct (py_truthy t)|]; eauto.
Qed.

Lemma fold_process_template (docs : list value) (st st' : state) :
  fold_result process_package docs st = Ok st' ->
  docs <> [] ->
  (forall t, template st = Some t ->
             exists top pkg, t = VDict top
                             /\ dict_get "Package" top = Some (VDict pkg)) ->
  exists top pkg, template st' = Some (VDict top)
                  /\ dict_get "Package" top = Some (VDict pkg).
Proof.
  revert st. induction docs as [|d docs IH]; intros st H Hne Hst;
    [contradiction|].
  simpl in H. apply bind_Ok in H as (st1 & E & H).
  apply process_package_template in E as (t & Ht & Hcases).
  assert (Ht' : exists top pkg, t = VDict top
                                /\ dict_get "Package" top = Some (VDict pkg)).
  { destruct Hcases as [Hold|Hnew]; auto. }
  destruct docs as [|d' docs].
  - simpl in H. injection H as <-.
    destruct Ht' as (top & pkg & -> & Hpkg). eauto.
  - apply (IH st1 H); [discriminate|].
    intros t0 Ht0. rewrite Ht in Ht0. now injection Ht0 as <-.
Qed.

Lemma version_fold_Some (vs : list pyfloat) (x : pyfloat) :
  exists y, foldl version_step (Some x) vs = Some y.
Proof.
  revert x. induction vs as [|v vs IH]; intros x; simpl; eauto.
Qed.

Lemma Forall2_fullName_fmap (docs : list value) (vs : list value) :
  Forall2 (fun d v => field "fullName" d = Some v) docs vs ->
  vs = (fun d => default VNone (field "fullName" d)) <$> docs.
Proof.
  induction 1 as [|d v docs vs Hd _ IH]; [reflexivity|].
  rewrite fmap_cons, Hd. simpl. now rewrite IH.
Qed.

(** X2.  Among valid packages the order of the batch changes neither the
    types nor the description nor the name of the result: when a batch is
    merged, every permutation of it is merged too, with the same three
    fields. *)
Lemma valid_permutation_same_types (packages packages' : list value)
    (out : value) :
  Forall (fun p => is_invalid p = Ok false) packages ->
  packages ≡ₚ packages' ->
  merge packages = Ok out ->
  exists out', merge packages' = Ok out'
               /\ field "types" out' = field "types" out
               /\ field "description" out' = field "description" out
               /\ field "fullName" out' = field "fullName" out.
Proof.
  intros Hvalid Hperm H. unfold merge in *.
  apply bind_Ok in H as (st & Hloop & Hrender).
  assert (Hvalid' : Forall (fun p => is_invalid p = Ok false) packages')
    by now rewrite <- Hperm.
  rewrite merge_loop_valid in * by done.
  pose proof (fold_process_Ok_each _ _ _ Hloop) as Hall.
  rewrite Hperm in Hall.
  destruct (fold_process_Ok_all _ initial_state Hall) as (st' & Hloop').
  rewrite Hloop'. cbn [bind].
  (* the types *)
  assert (Htd : types_dict st' = types_dict st).
  { destruct (fold_process_types _ _ _ Hloop) as (ess & Hess & ->).
    destruct (fold_process_types _ _ _ Hloop') as (ess' & Hess' & ->).
    apply add_entries_ext. intros e.
    rewrite (elem_of_concat_entries _ _ _ Hess),
      (elem_of_concat_entries _ _ _ Hess').
    split; intros (d & es & Hd & Hes & He); exists d, es;
      (split; [|done]); [now rewrite Hperm | now rewrite <- Hperm]. }
  (* the names *)
  assert (Hnames : package_names st' ≡ₚ package_names st).
  { destruct (fold_process_names _ _ _ Hloop) as (vs & Hvs & ->).
    destruct (fold_process_names _ _ _ Hloop') as (vs' & Hvs' & ->).
    simpl. rewrite (Forall2_fullName_fmap _ _ Hvs),
      (Forall2_fullName_fmap _ _ Hvs').
    now rewrite Hperm. }
  apply render_Ok in Hrender
    as (top & pkg & names & joined & x & ordered & types
        & Htpl & Htop & Hsort & Hjoin & Hx & Hord & Htrav & ->).
  assert (Hne : packages' <> []).
  { intros ->. apply Permutation_nil_r in Hperm as ->.
    simpl in Hloop. injection Hloop as <-. discriminate. }
  destruct (fold_process_template _ _ _ Hloop' Hne ltac:(discriminate))
    as (top' & pkg' & Htpl' & Htop').
  assert (Hy : exists y, max_version st' = Some y).
  { destruct (fold_process_version _ _ _ Hloop') as (vs & Hvs & ->).
    destruct vs as [|v vs].
    - inversion Hvs; subst. contradiction.
    - simpl. unfold version_step at 2. apply version_fold_Some. }
  destruct Hy as (y & Hy).
  rewrite render_closed, (py_sort_perm _ _ Hnames), Hsort. cbn [bind].
  rewrite Htpl'. unfold py_getitem at 1. rewrite Htop'. cbn [bind].
  unfold render_into. rewrite Hjoin, Hy, Htd, Hord. cbn [bind].
  rewrite Htrav. cbn [bind py_setitem].
  eexists. split; [reflexivity|].
  rewrite !field_rendered, !rendered_types, !rendered_description,
    !rendered_fullName.
  auto.
Qed.

(** ** Well-formed batches are merged *)

















(** ** More on the core: what reaches the result, and what ends it *)

Lemma merge_break_witness :
  Forall (fun p => is_invalid p = Ok false) [package_a]
  /\ is_invalid package_no_version = Ok true
  /\ merge ([package_a] ++ package_no_version :: [package_no_name; package_b])
     = merge [package_a].
Proof.
  assert (H1 : Forall (fun p => is_invalid p = Ok false) [package_a])
    by repeat constructor.
  assert (H2 : is_invalid package_no_version = Ok true) by reflexivity.
  split; [exact H1|]. split; [exact H2|].
  exact (merge_break [package_a] [package_no_name; package_b]
           package_no_version H1 H2).
Defined.

Lemma valid_permutation_same_types_witness :
  merge [package_a; package_b] = Ok merged_a_b
  /\ exists out', merge [package_b; package_a] = Ok out'
                  /\ field "types" out' = field "types" merged_a_b
                  /\ field "description" out'
                     = field "description" merged_a_b
                  /\ field "fullName" out' = field "fullName" merged_a_b.
Proof.
  assert (H : merge [package_a; package_b] = Ok merged_a_b)
    by (vm_compute; reflexivity).
  split; [exact H|].
  apply (valid_permutation_same_types [package_a; package_b]
           [package_b; package_a] merged_a_b).
  - repeat constructor.
  - apply perm_swap.
  - exact H.
Defined.


(** *** The template *)

Lemma process_package_truthy (st st' : state) (p : value) :
  process_package st p = Ok st' -> py_truthy p = true.
Proof.
  intros H. apply bind_Ok in H as (pkg & Hpkg & _).
  destruct p as [|?|top|?]; try discriminate. simpl in Hpkg.
  destruct top; [discriminate | reflexivity].
Qed.

Lemma process_package_keeps_template (st st' : state) (p t : value) :
  process_package st p = Ok st' ->
  template st = Some t -> py_truthy t = true ->
  template st' = Some t.
Proof.
  rewrite process_package_body. intros H Ht Htruthy.
  apply bind_Ok in H as (pkg & _ & H). unfold process_body in H.
  apply bind_Ok in H as (name & _ & H).
  apply bind_Ok in H as (mv & _ & H).
  apply bind_Ok in H as (v & _ & H).
  apply bind_Ok in H as (td & _ & [= <-]). simpl.
  now rewrite Ht, Htruthy.
Qed.

Lemma fold_process_keeps_template (docs : list value) (st st' : state)
    (t : value) :
  fold_result process_package docs st = Ok st' ->
  template st = Some t -> py_truthy t = true ->
  template st' = Some t.
Proof.
  revert st. induction docs as [|d docs IH]; intros st H Ht Htruthy;
    simpl in H.
  - now injection H as <-.
  - apply bind_Ok in H as (st1 & E & H).
    apply (IH st1 H); [|exact Htruthy].
    now apply (process_package_keeps_template _ _ _ _ E).
Qed.

Lemma fold_process_template_first (p : value) (docs : list value)
    (st : state) :
  fold_result process_package (p :: docs) initial_state = Ok st ->
  template st = Some p.
Proof.
  simpl. intros H. apply bind_Ok in H as (st1 & E & H).
  pose proof (process_package_truthy _ _ _ E) as Htruthy.
  apply (fold_process_keeps_template _ _ _ _ H); [|exact Htruthy].
  rewrite process_package_body in E.
  apply bind_Ok in E as (pkg & _ & E). unfold process_body in E.
  apply bind_Ok in E as (name & _ & E).
  apply bind_Ok in E as (mv & _ & E).
  apply bind_Ok in E as (v & _ & E).
  now apply bind_Ok in E as (td & _ & [= <-]).
Qed.

(** X4.  The result is the first processed package with four fields of its
    [Package] record replaced: every other field of that record, and
    everything beside the record, is carried over as it was. *)
Theorem template_fields_carried_over (packages : list value) (out : value) :
  merge packages = Ok out ->
  exists first rest,
    processed packages = first :: rest
    /\ (forall k, k <> "fullName" -> k <> "description" ->
                  k <> "version" -> k <> "types" ->
                  field k out = field k first)
    /\ (forall k, k <> "Package" -> top_field k out = top_field k first).
Proof.
  intros H. apply merge_Ok in H as (st & Hst & H).
  apply render_Ok in H
    as (top & pkg & names & joined & x & ordered & types
        & Htpl & Htop & _ & _ & _ & _ & _ & ->).
  destruct (processed packages) as [|first rest] eqn:E.
  { simpl in Hst. injection Hst as <-. discriminate. }
  apply fold_process_template_first in Hst.
  rewrite Htpl in Hst. injection Hst as <-.
  exists (VDict top), rest. split; [reflexivity|]. split.
  - intros k H1 H2 H3 H4. rewrite field_rendered. unfold rendered_package.
    rewrite !dict_get_set_ne by congruence.
    unfold field. now rewrite Htop.
  - intros k Hk. unfold top_field. now rewrite dict_get_set_ne.
Qed.

Lemma template_fields_carried_over_witness :
  merge [package_b; package_a] = Ok merged_a_b
  /\ exists first rest,
      processed [package_b; package_a] = first :: rest
      /\ (forall k, k <> "fullName" -> k <> "description" ->
                    k <> "version" -> k <> "types" ->
                    field k merged_a_b = field k first)
      /\ (forall k, k <> "Package" ->
                    top_field k merged_a_b = top_field k first).
Proof.
  assert (H : merge [package_b; package_a] = Ok merged_a_b)
    by (vm_compute; reflexivity).
  split; [exact H|]. exact (template_fields_carried_over _ _ H).
Defined.

(** *** Nothing in the result that no package had *)

(** X5.  Every member listed in the result stands, under the type of its
    record, in one of the processed packages. *)
Theorem output_members_have_a_source
    (packages : list value) (out r v : value) (ms : list value) :
  merge packages = Ok out ->
  r ∈ out_types out ->
  type_members r = Some ms ->
  v ∈ ms ->
  exists (T m : key) (d : value),
    type_name r = Some (key_value T)
    /\ v = key_value m
    /\ d ∈ processed packages
    /\ contributes d T m.
Proof.
  intros H Hr Hms Hv. apply merge_Ok in H as (st & Hst & H).
  apply render_types in H as (ks & types & _ & _ & Htypes & Hf).
  unfold out_types in Hr. rewrite Hf in Hr.
  apply list_elem_of_lookup in Hr as (i & Hi).
  destruct (Forall2_lookup_r _ _ _ _ _ Htypes Hi)
    as (T & _ & (s & ms' & Hs & _ & Hp & ->)).
  simpl in Hms. injection Hms as <-.
  apply list_elem_of_fmap in Hv as (m & -> & Hm).
  rewrite Hp in Hm. apply elem_of_elements in Hm.
  destruct (fold_process_types _ _ _ Hst) as (ess & Hess & Htd).
  change (types_dict initial_state) with (∅ : gmap key (gset key)) in Htd.
  rewrite Htd, lookup_add_entries, lookup_empty in Hs.
  case_decide as Hin; [|discriminate]. injection Hs as <-.
  apply elem_of_union in Hm as [Hm|Hm]; [now apply not_elem_of_empty in Hm|].
  apply elem_of_entry_set in Hm as (ks0 & Hks0 & Hm).
  apply (elem_of_concat_entries _ _ _ Hess) in Hks0
    as (d & es & Hd & Hes & He).
  exists T, m, d. repeat split; auto. exists es, ks0. auto.
Qed.

Lemma output_members_have_a_source_witness :
  merge [package_a; package_b] = Ok merged_a_b
  /\ exists (T m : key) (d : value),
      type_name (type_record (VStr "Layout") (VList [VStr "X"]))
      = Some (key_value T)
      /\ VStr "X" = key_value m
      /\ d ∈ processed [package_a; package_b]
      /\ contributes d T m.
Proof.
  assert (H : merge [package_a; package_b] = Ok merged_a_b)
    by (vm_compute; reflexivity).
  split; [exact H|].
  apply (output_members_have_a_source [package_a; package_b] merged_a_b
           (type_record (VStr "Layout") (VList [VStr "X"])) (VStr "X")
           [VStr "X"] H).
  - apply list_elem_of_further, list_elem_of_here.
  - reflexivity.
  - apply list_elem_of_here.
Defined.

(** *** Packages that pass the validity test and still end the run *)

Lemma fold_result_app {A S} (f : S -> A -> result S) (l1 l2 : list A)
    (s : S) :
  fold_result f (l1 ++ l2) s = (s' <-- fold_result f l1 s; fold_result f l2 s').
Proof.
  revert s. induction l1 as [|x l1 IH]; intros s; simpl; auto.
  destruct (f s x); simpl; auto.
Qed.

Lemma traverse_raises {A B} (f : A -> result B) (good more : list A)
    (x : A) (ys : list B) (e : exn) :
  traverse f good = Ok ys -> f x = Raise e ->
  traverse f (good ++ x :: more) = Raise e.
Proof.
  revert ys. induction good as [|g good IH]; intros ys H Hx; simpl.
  - now rewrite Hx.
  - simpl in H. apply bind_Ok in H as (y & -> & H); simpl.
    apply bind_Ok in H as (ys' & H & _). now rewrite (IH ys').
Qed.

Lemma merge_raises_at (pre rest : list value) (p : value) (st : state)
    (e : exn) :
  Forall (fun p => is_invalid p = Ok false) pre ->
  fold_result process_package pre initial_state = Ok st ->
  is_invalid p = Ok false ->
  process_package st p = Raise e ->
  merge (pre ++ p :: rest) = Raise e.
Proof.
  intros Hpre Hst Hp He. unfold merge.
  replace (merge_loop (pre ++ p :: rest) initial_state)
    with (Raise (A := state) e); [reflexivity|].
  symmetry. revert Hst. generalize initial_state as st0.
  induction Hpre as [|q pre Hq _ IH]; intros st0 Hst; simpl.
  - injection Hst as ->. now rewrite Hp; simpl; rewrite He.
  - rewrite Hq; simpl. simpl in Hst.
    apply bind_Ok in Hst as (st1 & -> & Hst); simpl. eauto.
Qed.

Lemma process_package_at_types (st : state) (p pkg name t : value)
    (v : pyfloat) :
  py_getitem p "Package" = Ok pkg ->
  py_getitem pkg "fullName" = Ok name ->
  read_version pkg = Ok v ->
  py_getitem pkg "types" = Ok t ->
  process_package st p
  = (items <-- py_iter (wrap_dict t);
     es <-- traverse type_entry items;
     Ok {| types_dict := foldl add_entry (types_dict st) es;
           package_names := package_names st ++ [name];
           max_version := version_step (max_version st) v;
           template := Some match template st with
                            | Some tpl => if py_truthy tpl then tpl else p
                            | None => p
                            end |}).
Proof.
  intros Hpkg Hname Hv Ht. unfold process_package.
  rewrite Hpkg; simpl. rewrite Hname; simpl. rewrite Hv.
  replace (match max_version st with
           | Some x => if float_truthy x then Ok x else Ok v
           | None => Ok v
           end)
    with (Ok match max_version st with
             | Some x => if float_truthy x then x else v
             | None => v
             end)
    by (destruct (max_version st) as [x|]; [destruct (float_truthy x)|];
        reflexivity).
  simpl. rewrite Ht; simpl.
  destruct (py_iter (wrap_dict t)) as [items|]; simpl; auto.
  rewrite fold_add_type.
  destruct (traverse type_entry items); reflexivity.
Qed.

(** X6.  A [types] record without [name], or with a [name] and without
    [members], raises [KeyError] (lines 131 and 134): the validity test
    does not look inside the records.  This holds wherever the package
    stands among valid ones and wherever the record stands in it, the
    records before it being read without error. *)
Theorem record_without_name_or_members_KeyError
    (pre rest : list value) (st : state) (p pkg name t : value)
    (v : pyfloat) (good more : list value) (d : list (string * value))
    (es : list (key * list key)) :
  Forall (fun p => is_invalid p = Ok false) pre ->
  fold_result process_package pre initial_state = Ok st ->
  is_invalid p = Ok false ->
  py_getitem p "Package" = Ok pkg ->
  py_getitem pkg "fullName" = Ok name ->
  read_version pkg = Ok v ->
  py_getitem pkg "types" = Ok t ->
  py_iter (wrap_dict t) = Ok (good ++ VDict d :: more) ->
  traverse type_entry good = Ok es ->
  dict_get "name" d = None
  \/ ((exists n k, dict_get "name" d = Some n /\ py_hash n = Ok k)
      /\ dict_get "members" d = None) ->
  merge (pre ++ p :: rest) = Raise KeyError.
Proof.
  intros Hpre Hst Hp Hpkg Hname Hv Ht Hiter Hgood Hd.
  apply (merge_raises_at pre rest p st KeyError Hpre Hst Hp).
  rewrite (process_package_at_types st p pkg name t v Hpkg Hname Hv Ht).
  rewrite Hiter; simpl.
  rewrite (traverse_raises type_entry good more (VDict d) es KeyError Hgood);
    [reflexivity|].
  unfold type_entry; simpl.
  destruct Hd as [->|((n & k & -> & Hk) & Hm)]; [reflexivity|].
  simpl. rewrite Hk; simpl. now rewrite Hm.
Qed.

Lemma record_without_name_or_members_KeyError_witness :
  is_invalid package_record_no_members = Ok false
  /\ merge ([package_a] ++ package_record_no_members :: [package_b])
     = Raise KeyError.
Proof.
  assert (H : is_invalid package_record_no_members = Ok false)
    by reflexivity.
  split; [exact H|].
  eapply (record_without_name_or_members_KeyError [package_a] [package_b]
            _ package_record_no_members _ _ _ _
            [type_record (VStr "ApexClass") (VStr "Foo")] []
            [("name", VStr "Flow")]).
  - repeat constructor.
  - reflexivity.
  - exact H.
  - reflexivity.
  - reflexivity.
  - reflexivity.
  - reflexivity.
  - reflexivity.
  - reflexivity.
  - right. split; [|reflexivity]. eexists _, _. split; reflexivity.
Defined.

(** X7.  An empty [types] element, which the parser gives as [None], passes
    the validity test (the key is there) and raises [TypeError] when the
    loop of line 130 iterates it; so does an empty [members] element when
    line 138 does.  Earlier valid packages do not change that. *)
Theorem empty_types_or_members_TypeError
    (pre rest : list value) (st : state) (p pkg name t : value)
    (v : pyfloat) (good more : list value) (d : list (string * value))
    (es : list (key * list key)) (n : value) (k : key) :
  Forall (fun p => is_invalid p = Ok false) pre ->
  fold_result process_package pre initial_state = Ok st ->
  is_invalid p = Ok false ->
  py_getitem p "Package" = Ok pkg ->
  py_getitem pkg "fullName" = Ok name ->
  read_version pkg = Ok v ->
  py_getitem pkg "types" = Ok t ->
  t = VNone
  \/ (py_iter (wrap_dict t) = Ok (good ++ VDict d :: more)
      /\ traverse type_entry good = Ok es
      /\ dict_get "name" d = Some n /\ py_hash n = Ok k
      /\ dict_get "members" d = Some VNone) ->
  merge (pre ++ p :: rest) = Raise TypeError.
Proof.
  intros Hpre Hst Hp Hpkg Hname Hv Ht Hd.
  apply (merge_raises_at pre rest p st TypeError Hpre Hst Hp).
  rewrite (process_package_at_types st p pkg name t v Hpkg Hname Hv Ht).
  destruct Hd as [->|(Hiter & Hgood & Hn & Hk & Hm)]; [reflexivity|].
  rewrite Hiter; simpl.
  rewrite (traverse_raises type_entry good more (VDict d) es TypeError Hgood);
    [reflexivity|].
  unfold type_entry; simpl. rewrite Hn; simpl. rewrite Hk; simpl.
  now rewrite Hm.
Qed.

Lemma empty_types_or_members_TypeError_witness :
  is_invalid package_empty_types = Ok false
  /\ is_invalid package_empty_members = Ok false
  /\ merge ([package_a] ++ package_empty_types :: [package_b])
     = Raise TypeError
  /\ merge ([package_a] ++ package_empty_members :: [package_b])
     = Raise TypeError.
Proof.
  assert (H1 : is_invalid package_empty_types = Ok false) by reflexivity.
  assert (H2 : is_invalid package_empty_members = Ok false) by reflexivity.
  split; [exact H1|]. split; [exact H2|]. split.
  - eapply (empty_types_or_members_TypeError [package_a] [package_b]
              _ package_empty_types _ _ _ _ [] [] [] [] VNone None).
    + repeat constructor.
    + reflexivity.
    + exact H1.
    + reflexivity.
    + reflexivity.
    + reflexivity.
    + reflexivity.
    + now left.
  - eapply (empty_types_or_members_TypeError [package_a] [package_b]
              _ package_empty_members _ _ _ _ [] []
              [("members", VNone); ("name", VStr "ApexClass")] []
              (VStr "ApexClass") (Some "ApexClass")).
    + repeat constructor.
    + reflexivity.
    + exact H2.
    + reflexivity.
    + reflexivity.
    + reflexivity.
    + reflexivity.
    + right. repeat split; reflexivity.
Defined.

(** *** The version *)



Lemma py_max_same (v : pyfloat) : py_max v v = v.
Proof. unfold py_max. now destruct (float_gt v v). Qed.

Lemma merge_valid_Ok (packages : list value) (out : value) :
  Forall (fun p => is_invalid p = Ok false) packages ->
  merge packages = Ok out ->
  exists st, fold_result process_package packages initial_state = Ok st
             /\ render st = Ok out.
Proof.
  intros Hvalid H. unfold merge in H. apply bind_Ok in H as (st & Hst & H).
  rewrite (merge_loop_valid _ _ Hvalid) in Hst. eauto.
Qed.

Lemma render_version (st : state) (out : value) :
  render st = Ok out ->
  exists x, max_version st = Some x
            /\ field "version" out = Some (VStr (format_1f x)).
Proof.
  intros H.
  apply render_Ok in H
    as (top & pkg & names & joined & x & ordered & types
        & _ & _ & _ & _ & Hx & _ & _ & ->).
  exists x. split; [exact Hx|]. now rewrite field_rendered, rendered_version.
Qed.

(** X9.  When the greatest version so far is zero ([0], [0.0], [-0.0]), the
    test [not max_version] of line 113 takes it for unset: the version of
    the next package replaces it, also when that version is below zero.
    So a batch whose last package follows such a prefix gets the version
    of its last package. *)
Theorem zero_maximum_is_replaced
    (pre : list value) (p out : value) (st : state) (x v : pyfloat) :
  Forall (fun p => is_invalid p = Ok false) pre ->
  fold_result process_package pre initial_state = Ok st ->
  max_version st = Some x -> float_truthy x = false ->
  is_invalid p = Ok false ->
  package_version p = Ok v ->
  merge (pre ++ [p]) = Ok out ->
  field "version" out = Some (VStr (format_1f v)).
Proof.
  intros Hpre Hst Hx Hzero Hp Hv H.
  apply merge_valid_Ok in H as (st2 & Hst2 & H).
  2:{ apply Forall_app. split; [exact Hpre | now constructor]. }
  rewrite fold_result_app, Hst in Hst2. simpl in Hst2.
  apply bind_Ok in Hst2 as (st1 & E & [= <-]).
  apply process_package_version in E as (v' & Hv' & Hm).
  rewrite Hv in Hv'. injection Hv' as <-.
  apply render_version in H as (y & Hy & ->).
  rewrite Hm, Hx in Hy. unfold version_step in Hy.
  rewrite Hzero, py_max_same in Hy. now injection Hy as <-.
Qed.

Lemma zero_maximum_is_replaced_witness :
  exists out,
    merge ([package_versioned "-3.0"; package_versioned "0.0"]
           ++ [package_versioned "-1.0"]) = Ok out
    /\ field "version" out = Some (VStr (format_1f (FFin true (2 ^ 1074)))).
Proof.
  eexists. split; [vm_compute; reflexivity|].
  eapply (zero_maximum_is_replaced
            [package_versioned "-3.0"; package_versioned "0.0"]
            (package_versioned "-1.0") _ _ (FFin false 0)).
  - repeat constructor.
  - vm_compute; reflexivity.
  - reflexivity.
  - reflexivity.
  - reflexivity.
  - vm_compute; reflexivity.
  - vm_compute; reflexivity.
Defined.

Lemma version_fold_nan (vs : list pyfloat) :
  foldl version_step (Some FNan) vs = Some FNan.
Proof.
  induction vs as [|v vs IH]; simpl; [reflexivity|].
  unfold version_step at 2; simpl. unfold py_max.
  replace (float_gt v FNan) with false by now destruct v. exact IH.
Qed.

(** X10.  [float] reads [nan], and no float compares greater than it: when the
    first package has the version [nan], the result has the version [nan]
    whatever the versions of the packages after it. *)
Theorem nan_version_first_stays (p : value) (rest : list value)
    (out : value) :
  Forall (fun p => is_invalid p = Ok false) (p :: rest) ->
  package_version p = Ok FNan ->
  merge (p :: rest) = Ok out ->
  field "version" out = Some (VStr "nan").
Proof.
  intros Hvalid Hp H.
  apply merge_valid_Ok in H as (st & Hst & H); [|exact Hvalid].
  apply render_version in H as (x & Hx & ->).
  apply fold_process_version in Hst as (vs & Hvs & Hm).
  inversion Hvs as [|? v ? vs' Hv Hvs']; subst.
  rewrite Hp in Hv. injection Hv as <-.
  simpl in Hm. unfold version_step at 2 in Hm. simpl in Hm.
  change (py_max FNan FNan) with FNan in Hm.
  rewrite version_fold_nan, Hx in Hm. now injection Hm as ->.
Qed.

Lemma nan_version_first_stays_witness :
  exists out,
    merge [package_versioned "nan"; package_versioned "59.0"] = Ok out
    /\ field "version" out = Some (VStr "nan").
Proof.
  eexists. split; [vm_compute; reflexivity|].
  apply (nan_version_first_stays (package_versioned "nan")
           [package_versioned "59.0"]).
  - repeat constructor.
  - vm_compute; reflexivity.
  - vm_compute; reflexivity.
Defined.

(** ** The program around the core *)

(** *** The files of [merge] *)

Lemma read_packages_touches_nothing (sys : system) (verbose : bool)
    (packages : list string) (st : state) :
  created (read_packages sys verbose packages st).1 = []
  /\ written (read_packages sys verbose packages st).1 = [].
Proof.
  revert st. induction packages as [|p rest IH]; intros st; simpl; [done|].
  destruct (load_package sys p) as [d|]; [|done].
  destruct (is_invalid d) as [[|]|e]; simpl; [now destruct verbose| |done].
  destruct (process_package st d) as [st'|e]; simpl;
    [|now destruct verbose].
  specialize (IH st').
  destruct (read_packages sys verbose rest st') as [ev' r]. simpl in *.
  now destruct verbose.
Qed.

Lemma read_packages_failure (sys : system) (verbose : bool)
    (packages : list string) (st : state) (f : failure) :
  (read_packages sys verbose packages st).2 = inl f ->
  (exists e, f = Core e) \/ (exists p, f = LoadFailure p).
Proof.
  revert st. induction packages as [|p rest IH]; intros st; simpl; [done|].
  destruct (load_package sys p) as [d|]; [|intros [= <-]; eauto].
  destruct (is_invalid d) as [[|]|e]; simpl;
    [done| |intros [= <-]; eauto].
  destruct (process_package st d) as [st'|e]; simpl;
    [|intros [= <-]; eauto].
  specialize (IH st').
  now destruct (read_packages sys verbose rest st') as [ev' r].
Qed.

Lemma read_packages_quiet (sys : system) (packages : list string)
    (st : state) :
  printed (read_packages sys false packages st).1 = [].
Proof.
  revert st. induction packages as [|p rest IH]; intros st; simpl; [done|].
  destruct (load_package sys p) as [d|]; [|done].
  destruct (is_invalid d) as [[|]|e]; simpl; [done| |done].
  destruct (process_package st d) as [st'|e]; simpl; [|done].
  specialize (IH st').
  now destruct (read_packages sys false rest st') as [ev' r].
Qed.

Lemma opened_read_packages (sys : system) (verbose : bool)
    (packages : list string) (st : state) :
  opened (read_packages sys verbose packages st).1 `prefix_of` packages.
Proof.
  revert st. induction packages as [|p rest IH]; intros st; simpl; [done|].
  destruct (load_package sys p) as [d|]; [|now exists rest].
  destruct (is_invalid d) as [[|]|e]; simpl;
    [destruct verbose; now exists rest| |now exists rest].
  destruct (process_package st d) as [st'|e]; simpl;
    [|destruct verbose; now exists rest].
  specialize (IH st').
  destruct (read_packages sys verbose rest st') as [ev' r]. simpl in *.
  destruct verbose; simpl; now apply prefix_cons.
Qed.

Lemma read_packages_loaded (sys : system) (verbose : bool)
    (packages : list string) (docs : list value) (st : state) :
  Forall2 (fun p d => load_package sys p = Some d) packages docs ->
  (read_packages sys verbose packages st).2
  = match merge_loop docs st with
    | Ok st' => inr st'
    | Raise e => inl (Core e)
    end.
Proof.
  intros H. revert st.
  induction H as [|p d packages docs Hp _ IH]; intros st; simpl; [done|].
  rewrite Hp. destruct (is_invalid d) as [[|]|e]; simpl; [done| |done].
  destruct (process_package st d) as [st'|e]; simpl; [|done].
  specialize (IH st').
  now destruct (read_packages sys verbose packages st') as [ev' r].
Qed.

Lemma read_packages_break (sys : system) (verbose : bool)
    (pre rest : list string) (p : string) (d : value) (st : state) :
  load_package sys p = Some d -> is_invalid d = Ok true ->
  read_packages sys verbose (pre ++ p :: rest) st
  = read_packages sys verbose (pre ++ [p]) st.
Proof.
  intros Hp Hd. revert st. induction pre as [|q pre IH]; intros st; simpl.
  - now rewrite Hp, Hd.
  - destruct (load_package sys q) as [dq|]; [|done].
    destruct (is_invalid dq) as [[|]|e]; simpl; [done| |done].
    destruct (process_package st dq) as [st'|e]; simpl; [|done].
    now rewrite IH.
Qed.

Lemma completion_notice_Ok (verbose : bool) (st : state) (tpl : value) :
  render st = Ok tpl ->
  exists ev, completion_notice verbose st = Ok ev
             /\ opened ev = [] /\ created ev = [] /\ written ev = []
             /\ (verbose = false -> ev = []).
Proof.
  intros H.
  apply render_Ok in H
    as (top & pkg & names & joined & x & ordered & types
        & _ & _ & Hnames & Hjoined & _).
  unfold completion_notice. destruct verbose.
  - rewrite Hnames; simpl. rewrite Hjoined; simpl.
    eexists. split; [reflexivity|]. repeat split. discriminate.
  - exists []. repeat split.
Qed.

(** [merge_files] in its ways out. *)
Lemma merge_files_cases (sys : system) (packages : list string)
    (outpath : option string) (verbose : bool) :
  let ev0 := says verbose (newline ++ "//// MERGING PACKAGES" ++ newline) in
  let read := read_packages sys verbose packages initial_state in
  match read.2 with
  | inl f =>
      merge_files sys packages outpath verbose = (ev0 ++ read.1, Some f)
  | inr st =>
      match render st with
      | Raise e =>
          merge_files sys packages outpath verbose
          = (ev0 ++ read.1, Some (Core e))
      | Ok tpl =>
          exists ev2,
            opened ev2 = [] /\ created ev2 = [] /\ written ev2 = []
            /\ (verbose = false -> ev2 = [])
            /\ merge_files sys packages outpath verbose
               = (ev0 ++ read.1 ++ ev2
                  ++ (deliver sys outpath verbose tpl).1,
                  (deliver sys outpath verbose tpl).2)
      end
  end.
Proof.
  unfold merge_files.
  destruct (read_packages sys verbose packages initial_state)
    as [ev1 [f|st]]; simpl; [done|].
  destruct (render st) as [tpl|e] eqn:E; [|done].
  destruct (completion_notice_Ok verbose st tpl E)
    as (ev2 & -> & H1 & H2 & H3 & H4).
  exists ev2. repeat split; auto.
  now destruct (deliver sys outpath verbose tpl).
Qed.

Lemma opened_deliver (sys : system) (outpath : option string)
    (verbose : bool) (tpl : value) :
  opened (deliver sys outpath verbose tpl).1 = [].
Proof.
  unfold deliver. destruct (given outpath).
  - destruct (open_write sys _); [|done].
    destruct (unparse sys tpl); [|done]. now destruct verbose.
  - now destruct (unparse sys tpl).
Qed.

Lemma opened_merge_files (sys : system) (packages : list string)
    (outpath : option string) (verbose : bool) :
  opened (merge_files sys packages outpath verbose).1
  = opened (read_packages sys verbose packages initial_state).1.
Proof.
  pose proof (merge_files_cases sys packages outpath verbose) as H.
  simpl in H.
  destruct (read_packages sys verbose packages initial_state)
    as [ev1 [f|st]]; simpl in *.
  - rewrite H; simpl. unfold opened. rewrite omap_app.
    now destruct verbose.
  - destruct (render st) as [tpl|e].
    + destruct H as (ev2 & H2 & _ & _ & _ & ->). simpl.
      pose proof (opened_deliver sys outpath verbose tpl) as Hd.
      unfold opened in *. rewrite !omap_app, H2, Hd, app_nil_r.
      now destruct verbose.
    + rewrite H; simpl. unfold opened. rewrite omap_app.
      now destruct verbose.
Qed.

(** The events before the delivery create and write nothing. *)
Lemma before_delivery_touches_nothing (sys : system) (verbose : bool)
    (packages : list string) (st : state) (ev2 l : list event) :
  created ev2 = [] -> written ev2 = [] ->
  let ev0 := says verbose (newline ++ "//// MERGING PACKAGES" ++ newline) in
  let ev1 := (read_packages sys verbose packages st).1 in
  created (ev0 ++ ev1 ++ ev2 ++ l) = created l
  /\ written (ev0 ++ ev1 ++ ev2 ++ l) = written l.
Proof.
  intros H2 H3.
  destruct (read_packages_touches_nothing sys verbose packages st)
    as (Hc & Hw).
  simpl. unfold created, written in *.
  rewrite !omap_app, Hc, Hw, H2, H3. now destruct verbose.
Qed.

(** X11.  [merge] with its files does what the core does on the parsed
    documents: when every file loads, the run ends with the exception of
    the core, or goes on to deliver the document the core returns; nothing
    is created or written before the delivery. *)
Theorem merge_files_runs_merge (sys : system) (packages : list string)
    (docs : list value) (outpath : option string) (verbose : bool) :
  Forall2 (fun p d => load_package sys p = Some d) packages docs ->
  exists before,
    created before = [] /\ written before = []
    /\ merge_files sys packages outpath verbose
       = match merge docs with
         | Raise e => (before, Some (Core e))
         | Ok out => (before ++ (deliver sys outpath verbose out).1,
                      (deliver sys outpath verbose out).2)
         end.
Proof.
  intros Hload.
  pose proof (merge_files_cases sys packages outpath verbose) as H.
  pose proof (fun ev2 l H2 H3 =>
                before_delivery_touches_nothing sys verbose packages
                  initial_state ev2 l H2 H3) as Hb.
  simpl in H, Hb.
  rewrite (read_packages_loaded sys verbose packages docs _ Hload) in H.
  unfold merge.
  destruct (read_packages sys verbose packages initial_state) as [ev1 r].
  simpl in *.
  set (ev0 := says verbose (newline ++ "//// MERGING PACKAGES" ++ newline))
    in *.
  assert (H0 : created (ev0 ++ ev1) = [] /\ written (ev0 ++ ev1) = []).
  { destruct (Hb [] [] eq_refl eq_refl) as (Hc & Hw).
    now rewrite !app_nil_r in Hc, Hw. }
  destruct (merge_loop docs initial_state) as [st|e]; simpl.
  - destruct (render st) as [tpl|e].
    + destruct H as (ev2 & _ & H2 & H3 & _ & ->).
      exists (ev0 ++ ev1 ++ ev2). split; [|split].
      * destruct (Hb ev2 [] H2 H3) as (Hc & _).
        now rewrite !app_nil_r in Hc.
      * destruct (Hb ev2 [] H2 H3) as (_ & Hw).
        now rewrite !app_nil_r in Hw.
      * now rewrite <- !app_assoc.
    + exists (ev0 ++ ev1). now destruct H0.
  - exists (ev0 ++ ev1). now destruct H0.
Qed.

Lemma merge_files_runs_merge_witness :
  Forall2 (fun p d => load_package sample_system p = Some d)
    ["/src/a/package.xml"; "/src/b/package.xml"] [package_a; package_b]
  /\ exists before,
      created before = [] /\ written before = []
      /\ merge_files sample_system
           ["/src/a/package.xml"; "/src/b/package.xml"] (Some "/out") false
         = match merge [package_a; package_b] with
           | Raise e => (before, Some (Core e))
           | Ok out =>
               (before ++ (deliver sample_system (Some "/out") false out).1,
                (deliver sample_system (Some "/out") false out).2)
           end.
Proof.
  assert (H : Forall2 (fun p d => load_package sample_system p = Some d)
                ["/src/a/package.xml"; "/src/b/package.xml"]
                [package_a; package_b])
    by (repeat constructor).
  split; [exact H|].
  exact (merge_files_runs_merge sample_system _ _ (Some "/out") false H).
Defined.

(** X12.  The files are opened when the loop comes to them: once a file
    holds an invalid package, the files after it are not opened, and the
    run is the run without them. *)
Theorem files_after_invalid_not_opened (sys : system)
    (pre rest : list string) (p : string) (d : value)
    (outpath : option string) (verbose : bool) :
  load_package sys p = Some d ->
  is_invalid d = Ok true ->
  merge_files sys (pre ++ p :: rest) outpath verbose
  = merge_files sys (pre ++ [p]) outpath verbose
  /\ opened (merge_files sys (pre ++ p :: rest) outpath verbose).1
     `prefix_of` pre ++ [p].
Proof.
  intros Hp Hd.
  assert (E : merge_files sys (pre ++ p :: rest) outpath verbose
              = merge_files sys (pre ++ [p]) outpath verbose).
  { unfold merge_files.
    now rewrite (read_packages_break sys verbose pre rest p d _ Hp Hd). }
  split; [exact E|].
  rewrite E, opened_merge_files. apply opened_read_packages.
Qed.

Lemma files_after_invalid_not_opened_witness :
  load_package sample_system "/src/c/package.xml" = Some package_no_version
  /\ is_invalid package_no_version = Ok true
  /\ merge_files sample_system
       (["/src/a/package.xml"] ++ "/src/c/package.xml"
        :: ["/src/b/package.xml"; "/src/missing/package.xml"]) None true
     = merge_files sample_system
         (["/src/a/package.xml"] ++ ["/src/c/package.xml"]) None true
  /\ opened (merge_files sample_system
               (["/src/a/package.xml"] ++ "/src/c/package.xml"
                :: ["/src/b/package.xml"; "/src/missing/package.xml"])
               None true).1
     `prefix_of` ["/src/a/package.xml"] ++ ["/src/c/package.xml"].
Proof.
  assert (H1 : load_package sample_system "/src/c/package.xml"
               = Some package_no_version) by reflexivity.
  assert (H2 : is_invalid package_no_version = Ok true) by reflexivity.
  split; [exact H1|]. split; [exact H2|].
  exact (files_after_invalid_not_opened sample_system
           ["/src/a/package.xml"]
           ["/src/b/package.xml"; "/src/missing/package.xml"]
           "/src/c/package.xml" package_no_version None true H1 H2).
Defined.

(** X13.  The package files are opened in the order of the list, each
    when the loop comes to it, and none after the one at which the run
    ends: the files opened are an initial part of the list. *)
Theorem package_files_opened_in_order (sys : system)
    (packages : list string) (outpath : option string) (verbose : bool) :
  opened (merge_files sys packages outpath verbose).1 `prefix_of` packages.
Proof. rewrite opened_merge_files. apply opened_read_packages. Qed.

(** X14.  The only file the run creates or writes is [package.xml] under
    the output directory, once, and only when the merge got through;
    without an output directory, and on every exception other than one of
    [unparse], no file is created or written. *)
Theorem only_the_output_is_touched (sys : system) (packages : list string)
    (outpath : option string) (verbose : bool) :
  let run := merge_files sys packages outpath verbose in
  let path := (default "" outpath ++ "/package.xml")%string in
  match run.2 with
  | None =>
      if given outpath
      then created run.1 = [path]
           /\ exists text, written run.1 = [(path, text)]
      else created run.1 = [] /\ written run.1 = []
  | Some UnparseFailure =>
      written run.1 = []
      /\ created run.1 = if given outpath then [path] else []
  | Some _ => created run.1 = [] /\ written run.1 = []
  end.
Proof.
  pose proof (merge_files_cases sys packages outpath verbose) as H.
  pose proof (fun ev2 l H2 H3 =>
                before_delivery_touches_nothing sys verbose packages
                  initial_state ev2 l H2 H3) as Hb.
  pose proof (read_packages_failure sys verbose packages initial_state)
    as Hf.
  simpl in H, Hb.
  destruct (read_packages sys verbose packages initial_state) as [ev1 r].
  simpl in *.
  set (ev0 := says verbose (newline ++ "//// MERGING PACKAGES" ++ newline))
    in *.
  assert (H0 : created (ev0 ++ ev1) = [] /\ written (ev0 ++ ev1) = []).
  { destruct (Hb [] [] eq_refl eq_refl) as (Hc & Hw).
    now rewrite !app_nil_r in Hc, Hw. }
  destruct r as [f|st].
  { rewrite H; simpl.
    destruct (Hf f eq_refl) as [(e & ->)|(p & ->)]; exact H0. }
  destruct (render st) as [tpl|e].
  2:{ rewrite H; simpl. exact H0. }
  destruct H as (ev2 & _ & H2 & H3 & _ & ->). simpl.
  destruct (Hb ev2 (deliver sys outpath verbose tpl).1 H2 H3) as (-> & ->).
  unfold deliver.
  destruct (given outpath).
  - destruct (open_write sys _); [|done].
    destruct (unparse sys tpl) as [text|]; simpl; [|done].
    destruct verbose; simpl; eauto.
  - destruct (unparse sys tpl) as [text|]; simpl; done.
Qed.

(** *** [validate_paths] *)

(** X15.  What [validate_paths] accepts: SOURCE exists and is not a
    regular file; OUTPUT, when given and not empty, exists.  It returns
    the absolute paths, with no output path when OUTPUT is absent or
    empty, and [ValueError] is its only exception. *)
Theorem validate_paths_accepts (sys : system) (args : arguments) :
  (forall sp op,
     validate_paths sys args = Ok (sp, op) <->
     sp = abs_path sys (source args)
     /\ (fs_kind sys sp = Directory \/ fs_kind sys sp = Other)
     /\ op = (if given (output args)
              then abs_path sys <$> output args else None)
     /\ (given op = true -> fs_kind sys (default "" op) <> Missing))
  /\ (forall e, validate_paths sys args = Raise e -> e = ValueError).
Proof.
  unfold validate_paths, path_exists, path_isfile.
  set (sourcepath := abs_path sys (source args)).
  set (outpath := if given (output args)
                  then abs_path sys <$> output args else None).
  split.
  - intros sp op. split.
    + intros H.
      destruct (fs_kind sys sourcepath) eqn:E; simpl in H;
        try discriminate;
        destruct (given outpath) eqn:G; simpl in H;
        try (destruct (fs_kind sys (default "" outpath)) eqn:E';
             simpl in H; try discriminate);
        inversion H; subst sp op; rewrite ?E, ?G;
        repeat split; auto; try discriminate;
        rewrite E'; discriminate.
    + intros (-> & Hk & -> & Ho).
      destruct Hk as [-> | ->]; simpl;
        (destruct (given outpath); simpl; [|reflexivity];
         specialize (Ho eq_refl);
         now destruct (fs_kind sys (default "" outpath))).
  - intros e.
    destruct (_ || _); [now intros [= <-]|].
    destruct (_ && _); [now intros [= <-]|discriminate].
Qed.

Lemma validate_paths_accepts_witness :
  validate_paths sample_system
    {| source := "/src"; output := Some "/out"; verbose := false |}
  = Ok ("/src", Some "/out")
  /\ validate_paths sample_system
       {| source := "/out.xml"; output := None; verbose := false |}
     = Raise ValueError.
Proof.
  split.
  - apply (proj1 (validate_paths_accepts sample_system
                    {| source := "/src"; output := Some "/out";
                       verbose := false |})).
    repeat split; [now left | discriminate].
  - destruct (validate_paths sample_system
                {| source := "/out.xml"; output := None; verbose := false |})
      as [r|e] eqn:E; [vm_compute in E; discriminate|].
    f_equal.
    exact (proj2 (validate_paths_accepts sample_system
                    {| source := "/out.xml"; output := None;
                       verbose := false |}) e E).
Defined.

(** X16.  The test of line 69 asks whether [sourcepath] is a regular
    file, not [outpath]: an OUTPUT that names an existing regular file is
    accepted, though the function is to accept directories only. *)
Theorem output_file_is_accepted (sys : system) (args : arguments)
    (o : string) :
  fs_kind sys (abs_path sys (source args)) = Directory ->
  output args = Some o ->
  nonempty o = true ->
  nonempty (abs_path sys o) = true ->
  fs_kind sys (abs_path sys o) = File ->
  validate_paths sys args
  = Ok (abs_path sys (source args), Some (abs_path sys o)).
Proof.
  intros Hs Ho Hne Hne' Hf.
  unfold validate_paths, path_exists, path_isfile.
  rewrite Hs, Ho; simpl. rewrite Hne; simpl. now rewrite Hne', Hf.
Qed.

Lemma output_file_is_accepted_witness :
  fs_kind sample_system "/out.xml" = File
  /\ validate_paths sample_system
       {| source := "/src"; output := Some "/out.xml"; verbose := false |}
     = Ok ("/src", Some "/out.xml").
Proof.
  assert (H : fs_kind sample_system (abs_path sample_system "/out.xml")
              = File) by reflexivity.
  split; [exact H|].
  exact (output_file_is_accepted sample_system
           {| source := "/src"; output := Some "/out.xml";
              verbose := false |}
           "/out.xml" eq_refl eq_refl eq_refl eq_refl H).
Defined.

(** *** Finding the packages *)

Lemma elem_of_found_in (sys : system) (dirpath : string)
    (dirs files : list string) (p : string) :
  p ∈ found_in sys (dirpath, dirs, files)
  <-> "package.xml" ∈ files /\ p = path_join sys dirpath "package.xml".
Proof.
  unfold found_in. rewrite list_elem_of_fmap. split.
  - intros (f & -> & Hf). apply list_elem_of_filter in Hf as (-> & Hf).
    auto.
  - intros (Hf & ->). exists "package.xml". split; [reflexivity|].
    now apply list_elem_of_filter.
Qed.

(** X17.  The packages [main] hands to [merge] are the paths
    [join(dirpath, 'package.xml')] of the directories that [os.walk]
    gives with a file of exactly that name, in ascending order of their
    code points. *)
Theorem find_packages_spec (sys : system) (sourcepath : string) :
  StronglySorted String.le (find_packages sys sourcepath)
  /\ forall p,
      p ∈ find_packages sys sourcepath
      <-> exists dirpath dirs files,
            (dirpath, dirs, files) ∈ os_walk sys sourcepath
            /\ "package.xml" ∈ files
            /\ p = path_join sys dirpath "package.xml".
Proof.
  unfold find_packages.
  set (packages := os_walk sys sourcepath ≫= found_in sys).
  assert (Hin : forall p,
             p ∈ packages
             <-> exists dirpath dirs files,
                   (dirpath, dirs, files) ∈ os_walk sys sourcepath
                   /\ "package.xml" ∈ files
                   /\ p = path_join sys dirpath "package.xml").
  { intros p. subst packages. rewrite list_elem_of_bind. split.
    - intros ([[dirpath dirs] files] & Hp & Hentry).
      apply elem_of_found_in in Hp as (Hf & ->).
      exists dirpath, dirs, files. auto.
    - intros (dirpath & dirs & files & Hentry & Hf & ->).
      exists (dirpath, dirs, files). split; [|exact Hentry].
      now apply elem_of_found_in. }
  destruct packages as [|q found] eqn:E.
  - split; [constructor | exact Hin].
  - split.
    + apply StronglySorted_merge_sort; apply _.
    + intros p. now rewrite merge_sort_Permutation.
Qed.

Lemma find_packages_spec_witness :
  ("/src/a", @nil string, ["Package.xml"; "package.xml"])
    ∈ os_walk sample_system "/src"
  /\ "/src/a/package.xml" ∈ find_packages sample_system "/src".
Proof.
  assert (H : ("/src/a", @nil string, ["Package.xml"; "package.xml"])
                ∈ os_walk sample_system "/src")
    by (apply list_elem_of_further, list_elem_of_further,
          list_elem_of_here).
  split; [exact H|].
  apply (proj2 (find_packages_spec sample_system "/src")).
  exists "/src/a", [], ["Package.xml"; "package.xml"].
  split; [exact H|]. split; [|reflexivity].
  apply list_elem_of_further, list_elem_of_here.
Defined.

Lemma find_packages_walk (sys : system)
    (walk : string -> list (string * list string * list string))
    (sourcepath : string) :
  walk sourcepath ≡ₚ os_walk sys sourcepath ->
  find_packages (with_os_walk sys walk) sourcepath
  = find_packages sys sourcepath.
Proof.
  intros H. unfold find_packages.
  change (os_walk (with_os_walk sys walk) sourcepath) with (walk sourcepath).
  change (found_in (with_os_walk sys walk)) with (found_in sys).
  assert (Hp : walk sourcepath ≫= found_in sys
               ≡ₚ os_walk sys sourcepath ≫= found_in sys)
    by now rewrite H.
  destruct (walk sourcepath ≫= found_in sys) as [|x l] eqn:E1;
    destruct (os_walk sys sourcepath ≫= found_in sys) as [|y k] eqn:E2.
  - reflexivity.
  - now apply Permutation_nil_cons in Hp.
  - symmetry in Hp. now apply Permutation_nil_cons in Hp.
  - now apply merge_sort_perm.
Qed.

Lemma read_packages_with_os_walk (sys : system)
    (walk : string -> list (string * list string * list string))
    (verbose : bool) (packages : list string) (st : state) :
  read_packages (with_os_walk sys walk) verbose packages st
  = read_packages sys verbose packages st.
Proof.
  revert st. induction packages as [|p rest IH]; intros st; simpl; [done|].
  destruct (load_package sys p) as [d|]; [|done].
  destruct (is_invalid d) as [[|]|e]; simpl; [done| |done].
  destruct (process_package st d) as [st'|e]; simpl; [|done].
  now rewrite IH.
Qed.

(** *** [main] *)

Lemma prints_touch_nothing (l : list string) :
  opened (Print <$> l) = [] /\ created (Print <$> l) = []
  /\ written (Print <$> l) = [].
Proof. induction l as [|x l IH]; [done|]. exact IH. Qed.

(** [main] once the arguments are valid and a package was found. *)
Lemma main_found (sys : system) (args : arguments) (sp : string)
    (op : option string) :
  validate_paths sys args = Ok (sp, op) ->
  find_packages sys sp <> [] ->
  exists ev,
    opened ev = [] /\ created ev = [] /\ written ev = []
    /\ (verbose args = false -> ev = [])
    /\ main sys args
       = (ev ++ (merge_files sys (find_packages sys sp) op
                   (verbose args)).1,
          (merge_files sys (find_packages sys sp) op (verbose args)).2).
Proof.
  intros Hv Hne. unfold main. rewrite Hv.
  destruct (find_packages sys sp) as [|p rest] eqn:E; [done|].
  destruct (merge_files sys (p :: rest) op (verbose args)) as [ev' r].
  eexists. split; [|split; [|split; [|split; [|reflexivity]]]].
  - destruct (verbose args); [|done].
    apply (prints_touch_nothing (p :: rest)).
  - destruct (verbose args); [|done].
    apply (prints_touch_nothing (p :: rest)).
  - destruct (verbose args); [|done].
    apply (prints_touch_nothing (p :: rest)).
  - now intros ->.
Qed.

(** X18.  The order in which [os.walk] gives the directories does not
    matter: with any other enumeration of the same directories the run is
    the same, event by event. *)
Theorem main_walk_order (sys : system)
    (walk : string -> list (string * list string * list string))
    (args : arguments) :
  (forall top, walk top ≡ₚ os_walk sys top) ->
  main (with_os_walk sys walk) args = main sys args.
Proof.
  intros H. unfold main.
  change (validate_paths (with_os_walk sys walk) args)
    with (validate_paths sys args).
  destruct (validate_paths sys args) as [[sp op]|e]; [|reflexivity].
  rewrite (find_packages_walk sys walk sp (H sp)).
  destruct (find_packages sys sp) as [|p rest]; [reflexivity|].
  unfold merge_files. rewrite read_packages_with_os_walk.
  reflexivity.
Qed.

Lemma main_walk_order_witness :
  (forall top, reverse (os_walk sample_system top)
               ≡ₚ os_walk sample_system top)
  /\ main (with_os_walk sample_system
             (fun top => reverse (os_walk sample_system top)))
       {| source := "/src"; output := Some "/out"; verbose := true |}
     = main sample_system
         {| source := "/src"; output := Some "/out"; verbose := true |}.
Proof.
  assert (H : forall top, reverse (os_walk sample_system top)
                          ≡ₚ os_walk sample_system top)
    by (intros top; apply reverse_Permutation).
  split; [exact H|].
  exact (main_walk_order sample_system
           (fun top => reverse (os_walk sample_system top)) _ H).
Defined.

(** X19.  When no directory under SOURCE has a file named [package.xml],
    [main] returns without calling [merge]: no exception, no file opened
    or created, and one line printed if [verbose] is set.  The
    [TypeError] of [merge] on an empty list cannot come from [main]. *)
Theorem main_without_packages (sys : system) (args : arguments)
    (sp : string) (op : option string) :
  validate_paths sys args = Ok (sp, op) ->
  (forall dirpath dirs files,
     (dirpath, dirs, files) ∈ os_walk sys sp -> "package.xml" ∉ files) ->
  main sys args
  = (says (verbose args)
       ("No packages found in subdirectory tree with root at SOURCE"
        ++ "(" ++ sp ++ ")"),
     None).
Proof.
  intros Hv Hnone. unfold main. rewrite Hv.
  destruct (find_packages sys sp) as [|p rest] eqn:E; [reflexivity|].
  exfalso.
  assert (Hp : p ∈ find_packages sys sp) by (rewrite E; left).
  unfold find_packages in Hp.
  assert (Hp' : p ∈ os_walk sys sp ≫= found_in sys).
  { destruct (os_walk sys sp ≫= found_in sys); [exact Hp|].
    now rewrite merge_sort_Permutation in Hp. }
  apply list_elem_of_bind in Hp' as ([[dirpath dirs] files] & Hin & Hentry).
  apply elem_of_found_in in Hin as (Hf & _).
  exact (Hnone dirpath dirs files Hentry Hf).
Qed.

Lemma main_without_packages_witness :
  validate_paths sample_system
    {| source := "/out"; output := None; verbose := true |}
  = Ok ("/out", None)
  /\ main sample_system
       {| source := "/out"; output := None; verbose := true |}
     = ([Print ("No packages found in subdirectory tree with root at SOURCE"
                ++ "(" ++ "/out" ++ ")")],
        None).
Proof.
  assert (H : validate_paths sample_system
                {| source := "/out"; output := None; verbose := true |}
              = Ok ("/out", None)) by reflexivity.
  split; [exact H|].
  apply (main_without_packages sample_system _ "/out" None H).
  intros dirpath dirs files Hin. now apply elem_of_nil in Hin.
Defined.

Lemma merge_files_quiet (sys : system) (packages : list string)
    (outpath : option string) :
  let run := merge_files sys packages outpath false in
  let header := (newline ++ "//// MERGED PACKAGE:" ++ newline)%string in
  if given outpath then printed run.1 = []
  else match run.2 with
       | None => exists text, printed run.1 = [header; text]
       | Some UnparseFailure => printed run.1 = [header]
       | Some _ => printed run.1 = []
       end.
Proof.
  pose proof (merge_files_cases sys packages outpath false) as H.
  pose proof (read_packages_quiet sys packages initial_state) as Hq.
  pose proof (read_packages_failure sys false packages initial_state)
    as Hf.
  simpl in H.
  destruct (read_packages sys false packages initial_state) as [ev1 r].
  simpl in *.
  destruct r as [f|st].
  { rewrite H; simpl. destruct (given outpath); [exact Hq|].
    destruct (Hf f eq_refl) as [(e & ->)|(p & ->)]; exact Hq. }
  destruct (render st) as [tpl|e].
  2:{ rewrite H; simpl. now destruct (given outpath). }
  destruct H as (ev2 & _ & _ & _ & H2 & ->). rewrite (H2 eq_refl). simpl.
  unfold printed in *. rewrite omap_app, Hq. simpl.
  unfold deliver. destruct (given outpath).
  - destruct (open_write sys _); [|done]. now destruct (unparse sys tpl).
  - destruct (unparse sys tpl) as [text|]; simpl; eauto.
Qed.

(** X20.  Without [-v] the run prints nothing when it has an output
    directory, and otherwise nothing but the header and the merged
    document (only the header when [unparse] raises; nothing when no
    package is found or another exception ends the run). *)
Theorem quiet_run_prints_only_the_package (sys : system) (args : arguments)
    (sp : string) (op : option string) :
  verbose args = false ->
  validate_paths sys args = Ok (sp, op) ->
  let run := main sys args in
  let header := (newline ++ "//// MERGED PACKAGE:" ++ newline)%string in
  if given op then printed run.1 = []
  else match run.2 with
       | None => (find_packages sys sp = [] /\ printed run.1 = [])
                 \/ exists text, printed run.1 = [header; text]
       | Some UnparseFailure => printed run.1 = [header]
       | Some _ => printed run.1 = []
       end.
Proof.
  intros Hq Hv.
  destruct (decide (find_packages sys sp = [])) as [E|Hne].
  - simpl. unfold main. rewrite Hv, E, Hq. simpl.
    destruct (given op); auto.
  - destruct (main_found sys args sp op Hv Hne)
      as (ev & _ & _ & _ & Hev & ->).
    rewrite (Hev Hq), Hq. simpl.
    pose proof (merge_files_quiet sys (find_packages sys sp) op) as H.
    simpl in H. destruct (given op); [exact H|].
    destruct (merge_files sys (find_packages sys sp) op false).2
      as [f|]; [exact H|]. now right.
Qed.

Lemma quiet_run_prints_only_the_package_witness :
  validate_paths sample_system
    {| source := "/src"; output := Some "/out"; verbose := false |}
  = Ok ("/src", Some "/out")
  /\ printed (main sample_system
                {| source := "/src"; output := Some "/out";
                   verbose := false |}).1 = [].
Proof.
  assert (H : validate_paths sample_system
                {| source := "/src"; output := Some "/out";
                   verbose := false |}
              = Ok ("/src", Some "/out")) by reflexivity.
  split; [exact H|].
  exact (quiet_run_prints_only_the_package sample_system
           {| source := "/src"; output := Some "/out"; verbose := false |}
           "/src" (Some "/out") eq_refl H).
Defined.

(** X21.  When the first package in the order of the paths is invalid,
    the loop ends at once and nothing was merged: the run ends with the
    [TypeError] of line 142, having opened that one file and created
    none, whatever the other packages hold. *)
Theorem first_package_invalid_ends_run (sys : system) (args : arguments)
    (sp : string) (op : option string) (p : string) (rest : list string)
    (d : value) :
  validate_paths sys args = Ok (sp, op) ->
  find_packages sys sp = p :: rest ->
  load_package sys p = Some d ->
  is_invalid d = Ok true ->
  (main sys args).2 = Some (Core TypeError)
  /\ opened (main sys args).1 = [p]
  /\ created (main sys args).1 = []
  /\ written (main sys args).1 = [].
Proof.
  intros Hv Hfind Hp Hd.
  destruct (main_found sys args sp op Hv)
    as (ev & Ho & Hc & Hw & _ & ->); [now rewrite Hfind|].
  rewrite Hfind. unfold merge_files. simpl. rewrite Hp, Hd. simpl.
  change (render initial_state) with (Raise (A := value) TypeError).
  simpl. unfold opened, created, written in *.
  rewrite !omap_app, Ho, Hc, Hw. now destruct (verbose args).
Qed.

Lemma first_package_invalid_ends_run_witness :
  find_packages (with_os_walk sample_system
                   (fun _ => [("/src/c", [], ["package.xml"]);
                              ("/src/d", [], ["package.xml"])])) "/src"
  = ["/src/c/package.xml"; "/src/d/package.xml"]
  /\ (main (with_os_walk sample_system
              (fun _ => [("/src/c", [], ["package.xml"]);
                         ("/src/d", [], ["package.xml"])]))
        {| source := "/src"; output := Some "/out"; verbose := true |}).2
     = Some (Core TypeError).
Proof.
  assert (H : find_packages
                (with_os_walk sample_system
                   (fun _ => [("/src/c", [], ["package.xml"]);
                              ("/src/d", [], ["package.xml"])])) "/src"
              = ["/src/c/package.xml"; "/src/d/package.xml"])
    by (vm_compute; reflexivity).
  split; [exact H|].
  apply (first_package_invalid_ends_run
           (with_os_walk sample_system
              (fun _ => [("/src/c", [], ["package.xml"]);
                         ("/src/d", [], ["package.xml"])]))
           {| source := "/src"; output := Some "/out"; verbose := true |}
           "/src" (Some "/out") "/src/c/package.xml"
           ["/src/d/package.xml"] package_no_version eq_refl H eq_refl
           eq_refl).
Defined.

Lemma read_packages_valid (sys : system) (verbose : bool)
    (packages : list string) (docs : list value) (st st' : state) :
  Forall2 (fun p d => load_package sys p = Some d) packages docs ->
  Forall (fun d => is_invalid d = Ok false) docs ->
  fold_result process_package docs st = Ok st' ->
  (read_packages sys verbose packages st).2 = inr st'
  /\ opened (read_packages sys verbose packages st).1 = packages.
Proof.
  intros H. revert st.
  induction H as [|p d packages docs Hp _ IH]; intros st Hvalid Hst.
  - simpl in *. now injection Hst as ->.
  - apply Forall_cons in Hvalid as (Hd & Hvalid). simpl in Hst.
    apply bind_Ok in Hst as (st1 & E & Hst).
    destruct (IH st1 Hvalid Hst) as (IH1 & IH2).
    simpl. rewrite Hp, Hd, E.
    destruct (read_packages sys verbose packages st1) as [ev' r].
    simpl in *. split; [exact IH1|].
    destruct verbose; simpl; now rewrite IH2.
Qed.

(** X22.  The output file is only tried after every package was read and
    merged: when all packages are valid and the merge gets through, but
    [package.xml] cannot be opened for writing under OUTPUT, the run has
    opened every package file before it ends with that failure, and no
    file was created. *)
Theorem unwritable_output_fails_last (sys : system) (args : arguments)
    (sp : string) (op : option string) (docs : list value) (out : value) :
  validate_paths sys args = Ok (sp, op) ->
  given op = true ->
  Forall2 (fun p d => load_package sys p = Some d)
    (find_packages sys sp) docs ->
  Forall (fun d => is_invalid d = Ok false) docs ->
  merge docs = Ok out ->
  open_write sys (default "" op ++ "/package.xml") = false ->
  (main sys args).2
  = Some (WriteFailure (default "" op ++ "/package.xml"))
  /\ opened (main sys args).1 = find_packages sys sp
  /\ created (main sys args).1 = []
  /\ written (main sys args).1 = [].
Proof.
  intros Hv Hop Hload Hvalid Hmerge Hw.
  destruct (merge_valid_Ok docs out Hvalid Hmerge) as (st & Hst & Hrender).
  assert (Hne : find_packages sys sp <> []).
  { intros E. rewrite E in Hload. inversion Hload; subst.
    vm_compute in Hmerge. discriminate. }
  destruct (main_found sys args sp op Hv Hne)
    as (ev & Ho & Hc & Hw' & _ & ->).
  pose proof (merge_files_cases sys (find_packages sys sp) op
                (verbose args)) as H.
  pose proof (fun ev2 l H2 H3 =>
                before_delivery_touches_nothing sys (verbose args)
                  (find_packages sys sp) initial_state ev2 l H2 H3) as Hb.
  destruct (read_packages_valid sys (verbose args) _ _ _ _
              Hload Hvalid Hst) as (Hr & Hopened).
  simpl in H, Hb. rewrite Hr, Hrender in H.
  destruct H as (ev2 & H1 & H2 & H3 & _ & HM).
  assert (Hd : deliver sys op (verbose args) out
               = ([], Some (WriteFailure
                              (default "" op ++ "/package.xml")))).
  { unfold deliver. now rewrite Hop, Hw. }
  rewrite Hd in HM. simpl in HM.
  destruct (Hb ev2 [] H2 H3) as (Hc2 & Hw2).
  pose proof (opened_merge_files sys (find_packages sys sp) op
                (verbose args)) as Hom.
  rewrite Hopened in Hom. rewrite HM in Hom |- *. simpl in Hom |- *.
  unfold opened, created, written in *.
  rewrite !(omap_app _ ev), Ho, Hc, Hw'. simpl.
  now rewrite Hom, Hc2, Hw2.
Qed.

Lemma unwritable_output_fails_last_witness :
  validate_paths sample_system
    {| source := "/src"; output := Some "/out.xml"; verbose := false |}
  = Ok ("/src", Some "/out.xml")
  /\ (main (with_os_walk sample_system
              (fun _ => [("/src/b", [], ["package.xml"]);
                         ("/src/a", [], ["package.xml"])]))
        {| source := "/src"; output := Some "/out.xml";
           verbose := false |}).2
     = Some (WriteFailure "/out.xml/package.xml")
  /\ opened (main (with_os_walk sample_system
                     (fun _ => [("/src/b", [], ["package.xml"]);
                                ("/src/a", [], ["package.xml"])]))
               {| source := "/src"; output := Some "/out.xml";
                  verbose := false |}).1
     = ["/src/a/package.xml"; "/src/b/package.xml"].
Proof.
  assert (H : validate_paths sample_system
                {| source := "/src"; output := Some "/out.xml";
                   verbose := false |}
              = Ok ("/src", Some "/out.xml")) by reflexivity.
  split; [exact H|].
  assert (Hm : merge [package_a; package_b] = Ok merged_a_b)
    by (vm_compute; reflexivity).
  destruct (unwritable_output_fails_last
              (with_os_walk sample_system
                 (fun _ => [("/src/b", [], ["package.xml"]);
                            ("/src/a", [], ["package.xml"])]))
              {| source := "/src"; output := Some "/out.xml";
                 verbose := false |}
              "/src" (Some "/out.xml") [package_a; package_b] merged_a_b
              H eq_refl
              ltac:(repeat constructor) ltac:(repeat constructor) Hm
              eq_refl) as (H1 & H2 & _).
  split; [exact H1 | exact H2].
Defined.

(** *** A name that is not a string *)

(** X23.  The loop takes any [fullName], also one that is not a string
    (an empty element is parsed as [None]); the names are then sorted and
    joined for the description, and that raises [TypeError]: a batch of
    valid packages that the loop gets through, one of which has such a
    name, is not merged. *)
Theorem name_not_a_string_TypeError (docs : list value) (st : state)
    (d v : value) :
  Forall (fun p => is_invalid p = Ok false) docs ->
  fold_result process_package docs initial_state = Ok st ->
  d ∈ docs ->
  field "fullName" d = Some v ->
  as_str v = None ->
  merge docs = Raise TypeError.
Proof.
  intros Hvalid Hst Hd Hv Hs. unfold merge.
  rewrite (merge_loop_valid _ _ Hvalid), Hst. simpl.
  destruct (fold_process_names _ _ _ Hst) as (vs & Hvs & Hnames).
  simpl in Hnames.
  assert (Hin : v ∈ vs).
  { rewrite (Forall2_fullName_fmap _ _ Hvs). apply list_elem_of_fmap.
    exists d. now rewrite Hv. }
  assert (Hnone : mapM as_str vs = None).
  { apply mapM_None_2, Exists_exists. eauto. }
  destruct docs as [|d0 docs']; [now apply elem_of_nil in Hd|].
  pose proof (fold_process_template_first _ _ _ Hst) as Htpl.
  simpl in Hst. apply bind_Ok in Hst as (st1 & E & _).
  unfold process_package in E.
  apply bind_Ok in E as (pkg & Hpkg & E).
  apply bind_Ok in E as (name & Hname & _).
  destruct pkg as [|?|pkgd|?]; try discriminate.
  unfold render. rewrite Hnames, Htpl.
  destruct vs as [|v1 [|v2 vs']].
  - now apply elem_of_nil in Hin.
  - cbn [py_sort bind]. rewrite Hpkg. cbn [bind py_setitem].
    unfold py_join. now rewrite Hnone.
  - unfold py_sort. now rewrite Hnone.
Qed.

Lemma name_not_a_string_TypeError_witness :
  is_invalid package_empty_name = Ok false
  /\ merge [package_a; package_empty_name] = Raise TypeError
  /\ merge [package_empty_name] = Raise TypeError.
Proof.
  split; [reflexivity|]. split.
  - eapply (name_not_a_string_TypeError [package_a; package_empty_name] _
              package_empty_name VNone).
    + repeat constructor.
    + vm_compute; reflexivity.
    + apply list_elem_of_further, list_elem_of_here.
    + reflexivity.
    + reflexivity.
  - eapply (name_not_a_string_TypeError [package_empty_name] _
              package_empty_name VNone).
    + repeat constructor.
    + vm_compute; reflexivity.
    + apply list_elem_of_here.
    + reflexivity.
    + reflexivity.
Defined.

(** *** What [-v] changes *)

Lemma effects_app (a b : list event) :
  effects (a ++ b) = effects a ++ effects b.
Proof. apply omap_app. Qed.

Lemma effects_says (verbose : bool) (text : string) :
  effects (says verbose text) = [].
Proof. now destruct verbose. Qed.

Lemma effects_prints (l : list string) : effects (Print <$> l) = [].
Proof. induction l as [|x l IH]; [done|]. exact IH. Qed.

Lemma effects_found_notice (a b : string) (l : list string) :
  effects (Print a :: Print b :: (Print <$> l)) = [].
Proof. exact (effects_prints l). Qed.

Lemma read_packages_verbose (sys : system) (verbose : bool)
    (packages : list string) (st : state) :
  (read_packages sys verbose packages st).2
  = (read_packages sys false packages st).2
  /\ effects (read_packages sys verbose packages st).1
     = effects (read_packages sys false packages st).1.
Proof.
  revert st. induction packages as [|p rest IH]; intros st; simpl; [done|].
  destruct (load_package sys p) as [d|]; [|done].
  destruct (is_invalid d) as [[|]|e]; simpl; [now destruct verbose| |done].
  destruct (process_package st d) as [st'|e]; simpl;
    [|now destruct verbose].
  specialize (IH st').
  destruct (read_packages sys verbose rest st') as [ev1 r1].
  destruct (read_packages sys false rest st') as [ev2 r2].
  simpl in *. destruct IH as (-> & IH). split; [reflexivity|].
  destruct verbose; simpl; now rewrite <- IH.
Qed.

Lemma completion_notice_effects (verbose : bool) (st : state)
    (tpl : value) :
  render st = Ok tpl ->
  exists ev, completion_notice verbose st = Ok ev /\ effects ev = [].
Proof.
  intros H.
  apply render_Ok in H
    as (top & pkg & names & joined & x & ordered & types
        & _ & _ & Hnames & Hjoined & _).
  unfold completion_notice. destruct verbose.
  - rewrite Hnames; simpl. rewrite Hjoined; simpl. eauto.
  - eauto.
Qed.

Lemma deliver_verbose (sys : system) (outpath : option string)
    (verbose : bool) (tpl : value) :
  (deliver sys outpath verbose tpl).2 = (deliver sys outpath false tpl).2
  /\ effects (deliver sys outpath verbose tpl).1
     = effects (deliver sys outpath false tpl).1.
Proof.
  unfold deliver. destruct (given outpath).
  - destruct (open_write sys _); [|done].
    destruct (unparse sys tpl); [|done]. now destruct verbose.
  - now destruct (unparse sys tpl).
Qed.

Lemma merge_files_verbose (sys : system) (packages : list string)
    (outpath : option string) (verbose : bool) :
  (merge_files sys packages outpath verbose).2
  = (merge_files sys packages outpath false).2
  /\ effects (merge_files sys packages outpath verbose).1
     = effects (merge_files sys packages outpath false).1.
Proof.
  unfold merge_files.
  destruct (read_packages_verbose sys verbose packages initial_state)
    as (Hr & He).
  destruct (read_packages sys verbose packages initial_state) as [ev1 r1].
  destruct (read_packages sys false packages initial_state) as [ev2 r2].
  simpl in Hr, He. subst r2.
  destruct r1 as [f|st].
  { simpl. now rewrite effects_app, effects_says, He. }
  destruct (render st) as [tpl|e] eqn:E.
  2:{ simpl. now rewrite effects_app, effects_says, He. }
  destruct (completion_notice_effects verbose st tpl E) as (ev & -> & Hev).
  destruct (deliver_verbose sys outpath verbose tpl) as (Hd2 & Hd1).
  destruct (deliver sys outpath verbose tpl) as [ev3 r3].
  destruct (deliver sys outpath false tpl) as [ev3' r3'].
  simpl in *. subst r3'. split; [reflexivity|].
  now rewrite !effects_app, effects_says, He, Hev, Hd1.
Qed.

(** X24.  The flag [-v] only adds printed lines: with it and without it
    the run opens, creates and writes the same files in the same order,
    and ends in the same way. *)
Theorem verbose_only_prints (sys : system) (s : string)
    (o : option string) :
  let loud := main sys {| source := s; output := o; verbose := true |} in
  let quiet := main sys {| source := s; output := o; verbose := false |} in
  loud.2 = quiet.2 /\ effects loud.1 = effects quiet.1.
Proof.
  unfold main.
  change (validate_paths sys {| source := s; output := o; verbose := true |})
    with (validate_paths sys
            {| source := s; output := o; verbose := false |}).
  destruct (validate_paths sys _) as [[sp op]|e]; [|done].
  destruct (find_packages sys sp) as [|p rest]; [done|].
  cbn [verbose].
  destruct (merge_files_verbose sys (p :: rest) op true) as (H2 & H1).
  destruct (merge_files sys (p :: rest) op true) as [ev1 r1].
  destruct (merge_files sys (p :: rest) op false) as [ev2 r2].
  simpl in H1, H2. subst r2. split; [reflexivity|].
  cbn [fst]. rewrite effects_app, H1, effects_found_notice. reflexivity.
Qed.
